(** * ai2-kit, [ai2_kit/domain/dplr.py]: a shallow embedding and its properties

    The module prepares DPLR training data and LAMMPS input from CP2K
    output.  Python functions become Rocq functions; a raised exception is
    the left injection of a sum; NumPy arrays are lists (rows of a 2-d array
    are the elements of the outer list), and what [np.loadtxt] returns
    carries its number of dimensions; the objects that the code mutates
    in place ([ase.Atoms]) live in an explicit store. *)

From stdpp Require Import base option list strings gmap sorting.
From Stdlib Require Import ZArith Lia Ascii.

Local Open Scope string_scope.
Local Open Scope list_scope.
Local Open Scope nat_scope.

(** ** Exceptions and the error monad *)

(** The payload of the [ValueError]s that the module or NumPy raise. *)
Inductive value_error : Type :=
  | cutoff_range (ii cn : nat)      (* dplr.py:136 *)
  | sys_charge_map_length           (* dplr.py:183 *)
  | model_charge_map_length         (* dplr.py:188 *)
  | cannot_reshape                  (* numpy: size does not fit the shape *)
  | shape_mismatch                  (* numpy: value does not broadcast *)
  | could_not_convert (s : string). (* float(s) *)

Inductive exn : Type :=
  | ValueError (e : value_error)
  | AssertionError
  | IndexError
  | UnboundLocalError (name : string)
  | AttributeError
  | TypeError
  | OSError (path : string).

Definition res (A : Type) : Type := exn + A.

Definition raise {A} (e : exn) : res A := inl e.

#[export] Instance res_ret : MRet res := λ A x, inr x.
#[export] Instance res_bind : MBind res := λ A B f c,
  match c with
  | inl e => inl e
  | inr x => f x
  end.
#[export] Instance res_fmap : FMap res := λ A B f c,
  match c with
  | inl e => inl e
  | inr x => inr (f x)
  end.

(** [assert c] *)
Definition py_assert (c : bool) : res unit :=
  if c then mret () else raise AssertionError.

(** ** [get_unused_symbols] (dplr.py:234-249) *)

(** [ase.data.chemical_symbols]: the table of the ASE library, the dummy
    symbol [X] followed by the elements in order of atomic number. *)
Definition chemical_symbols : list string :=
  [ "X";
    "H"; "He";
    "Li"; "Be"; "B"; "C"; "N"; "O"; "F"; "Ne";
    "Na"; "Mg"; "Al"; "Si"; "P"; "S"; "Cl"; "Ar";
    "K"; "Ca"; "Sc"; "Ti"; "V"; "Cr"; "Mn"; "Fe"; "Co"; "Ni"; "Cu"; "Zn";
    "Ga"; "Ge"; "As"; "Se"; "Br"; "Kr";
    "Rb"; "Sr"; "Y"; "Zr"; "Nb"; "Mo"; "Tc"; "Ru"; "Rh"; "Pd"; "Ag"; "Cd";
    "In"; "Sn"; "Sb"; "Te"; "I"; "Xe";
    "Cs"; "Ba"; "La"; "Ce"; "Pr"; "Nd"; "Pm"; "Sm"; "Eu"; "Gd"; "Tb"; "Dy";
    "Ho"; "Er"; "Tm"; "Yb"; "Lu";
    "Hf"; "Ta"; "W"; "Re"; "Os"; "Ir"; "Pt"; "Au"; "Hg"; "Tl"; "Pb"; "Bi";
    "Po"; "At"; "Rn";
    "Fr"; "Ra"; "Ac"; "Th"; "Pa"; "U"; "Np"; "Pu"; "Am"; "Cm"; "Bk";
    "Cf"; "Es"; "Fm"; "Md"; "No"; "Lr";
    "Rf"; "Db"; "Sg"; "Bh"; "Hs"; "Mt"; "Ds"; "Rg"; "Cn"; "Nh"; "Fl"; "Mc";
    "Lv"; "Ts"; "Og" ].

(** [symbol not in used_symbols] *)
Definition not_in (symbol : string) (used_symbols : list string) : bool :=
  bool_decide (symbol ∉ used_symbols).

(** The [for] loop of [get_unused_symbols] over the symbols still to be
    scanned; [unused_symbols] is the list built so far.  [size] is a Python
    [int], so it may be zero or negative. *)
Fixpoint scan_unused (used_symbols : list string) (size : Z)
    (scan unused_symbols : list string) : list string :=
  match scan with
  | [] => unused_symbols
  | symbol :: scan' =>
      let unused_symbols :=
        if not_in symbol used_symbols
        then unused_symbols ++ [symbol] else unused_symbols in
      if (Z.of_nat (length unused_symbols) =? size)%Z
      then unused_symbols                                   (* break *)
      else scan_unused used_symbols size scan' unused_symbols
  end.

Definition get_unused_symbols (used_symbols : list string) (size : Z)
    : list string :=
  scan_unused used_symbols size (reverse chemical_symbols) [].

(** ** Numbers, vectors, atoms *)

(** The floating-point numbers of NumPy are kept abstract: the operations
    the module uses on them are the fields of this class, and no law about
    them is assumed anywhere. *)
Class Num (num : Type) : Type := {
  nzero : num;                    (* 0.0, the entries of np.zeros *)
  nadd : num → num → num;
  nsub : num → num → num;
  ndiv : num → nat → num;         (* division by a count, as in mean() *)
  nlt : num → num → bool;         (* x < y *)
}.

Definition vec (num : Type) : Type := (num * num * num)%type.

(** One atom of an [ase.Atoms] object; the object is the list of its atoms,
    so that the per-atom arrays have one length by construction. *)
Record Atom (num : Type) : Type := mkAtom {
  symbol : string;
  position : vec num;
}.
Arguments mkAtom {num} _ _.
Arguments symbol {num} _.
Arguments position {num} _.

Abbreviation Atoms num := (list (Atom num)).

(** ** Python and NumPy primitives *)

(** [a[i]] on a Python list or a NumPy array, with a Python [int] index:
    negative indices count from the end, anything else out of range raises
    [IndexError]. *)
Definition py_getitem {A} (a : list A) (i : Z) : res A :=
  let n := Z.of_nat (length a) in
  let j := if (i <? 0)%Z then (i + n)%Z else i in
  if ((0 <=? j)%Z && (j <? n)%Z)%bool
  then match a !! Z.to_nat j with
       | Some x => mret x
       | None => raise IndexError
       end
  else raise IndexError.

(** [a[idx]] with an integer index array. *)
Definition np_take {A} (a : list A) (idx : list Z) : res (list A) :=
  mapM (py_getitem a) idx.

(** [a[idx]] with the non-negative indices that [np.where] returns. *)
Definition np_take_nat {A} (a : list A) (idx : list nat) : res (list A) :=
  mapM (λ i, match a !! i with
             | Some x => mret x
             | None => raise IndexError
             end) idx.

(** [np.where(mask)[0]] *)
Fixpoint np_where_from (i : nat) (mask : list bool) : list nat :=
  match mask with
  | [] => []
  | b :: mask' =>
      if b then i :: np_where_from (S i) mask' else np_where_from (S i) mask'
  end.
Definition np_where (mask : list bool) : list nat := np_where_from 0 mask.

(** [a[mask]] with a boolean mask: the lengths must agree. *)
Fixpoint mask_select {A} (a : list A) (mask : list bool) : list A :=
  match a, mask with
  | x :: a', b :: mask' =>
      if b then x :: mask_select a' mask' else mask_select a' mask'
  | _, _ => []
  end.
Definition np_getitem_mask {A} (a : list A) (mask : list bool)
    : res (list A) :=
  if decide (length mask = length a) then mret (mask_select a mask)
  else raise IndexError.

(** [a[mask] = x] *)
Fixpoint mask_assign {A} (a : list A) (mask : list bool) (x : A) : list A :=
  match a, mask with
  | y :: a', b :: mask' => (if b then x else y) :: mask_assign a' mask' x
  | _, _ => a
  end.

(** [atoms.symbols == s] for the symbol [s] of one element of the table of
    ASE ([X] included): ASE turns [s] into atomic numbers and compares them
    with those of the atoms, atom by atom.  (A string that is no element
    symbol is read by ASE as a chemical formula; the properties of
    [dump_dplr_lammps_data] on any structure are stated for a [type_map] of
    element symbols.) *)
Definition symbols_eq {num} (a : Atoms num) (s : string) : list bool :=
  map (λ x, bool_decide (symbol x = s)) a.

(** [np.isin(xs, ys)] *)
Definition np_isin (xs ys : list string) : list bool :=
  map (λ x, bool_decide (x ∈ ys)) xs.

(** ** The object store

    [ase.Atoms] objects are mutable and are passed by reference:
    [set_chemical_symbols] and [+=] update the object in place, while
    [copy()] and [atoms[mask]] build a new object.  A reference is a
    location of the store; the open files are kept next to it. *)

Abbreviation loc := nat.

Record world (num : Type) : Type := World {
  heap : gmap loc (Atoms num);
  files : gmap loc string;
}.
Arguments World {num} _ _.
Arguments heap {num} _.
Arguments files {num} _.

(** State and exceptions: a computation returns a value or raises, and in
    both cases leaves a state behind. *)
Definition ST (S A : Type) : Type := S → res A * S.

#[export] Instance ST_ret {S} : MRet (ST S) := λ A x w, (inr x, w).
#[export] Instance ST_bind {S} : MBind (ST S) := λ A B f c w,
  match c w with
  | (inl e, w') => (inl e, w')
  | (inr x, w') => f x w'
  end.

Definition ST_raise {S A} (e : exn) : ST S A := λ w, (inl e, w).
Definition ST_lift {S A} (c : res A) : ST S A := λ w, (c, w).

Abbreviation M num := (ST (world num)).

Section store.
Context {num : Type}.

(** Reading through a reference; a reference to anything but an [Atoms]
    object has none of the methods used below. *)
Definition deref (a : loc) : M num (Atoms num) := λ w,
  match heap w !! a with
  | Some v => (inr v, w)
  | None => (inl AttributeError, w)
  end.

Definition alloc (v : Atoms num) : M num loc := λ w,
  let l := fresh (dom (heap w)) in
  (inr l, World (<[l := v]> (heap w)) (files w)).

Definition store (a : loc) (v : Atoms num) : M num unit := λ w,
  (inr (), World (<[a := v]> (heap w)) (files w)).

(** [atoms.copy()] *)
Definition atoms_copy (a : loc) : M num loc :=
  v ← deref a; alloc v.

(** [atoms[mask]]: a new object holding the atoms picked by the mask *)
Definition atoms_getitem_mask (a : loc) (mask : list bool) : M num loc :=
  v ← deref a; v' ← ST_lift (np_getitem_mask v mask); alloc v'.

(** [atoms.set_chemical_symbols(symbols)], in place *)
Definition set_chemical_symbols (a : loc) (symbols : list string)
    : M num unit :=
  v ← deref a;
  if decide (length symbols = length v)
  then store a (zip_with (λ s x, mkAtom s (position x)) symbols v)
  else ST_raise (ValueError shape_mismatch).

(** [atoms += other], in place *)
Definition atoms_iadd (a other : loc) : M num unit :=
  v ← deref a; v' ← deref other; store a (v ++ v').

(** [len(atoms)] *)
Definition atoms_len (a : loc) : M num nat :=
  v ← deref a; mret (length v).

(** [atoms.symbols == s] *)
Definition atoms_symbols_eq (a : loc) (s : string) : M num (list bool) :=
  v ← deref a; mret (symbols_eq v s).
End store.

(** ** [dump_dplr_lammps_data] (dplr.py:160-231) *)

(** A row of the [bonds] array: bond id, bond type, left atom, right atom. *)
Definition bond : Type := (nat * nat * nat * nat)%type.

Section dump_dplr_lammps_data.
Context `{Num num}.

(** [LammpsData(new_atoms)] with its [charges] and [bonds] set, followed
    by [write(fp, atom_style="full", specorder=...)]: the serializer of
    [ai2_kit.domain.util].  It is given the contents of the file and the
    object it was built from, and returns what it leaves in both. *)
Variable LammpsData_write :
  string → Atoms num → list num → list bond → list string →
  res unit * string * Atoms num.

Definition lammps_write (fp new_atoms : loc) (charges : list num)
    (bonds : list bond) (specorder : list string) : M num unit := λ w,
  match files w !! fp, heap w !! new_atoms with
  | Some f, Some v =>
      let '(r, f', v') := LammpsData_write f v charges bonds specorder in
      (r, World (<[new_atoms := v']> (heap w)) (<[fp := f']> (files w)))
  | _, _ => (inl AttributeError, w)
  end.

(** The loop "add virtual atoms" (dplr.py:199-208) over the pairs still
    to be visited. *)
Fixpoint add_virtual_atoms (atoms new_atoms : loc) (type_map : list string)
    (pairs : list (Z * string)) (r_atom_ids v_atom_ids : list nat)
    : M num (list nat * list nat) :=
  match pairs with
  | [] => mret (r_atom_ids, v_atom_ids)
  | (atype, vtype) :: pairs' =>
      sym ← ST_lift (py_getitem type_map atype);
      mask ← atoms_symbols_eq atoms sym;
      v_atoms ← atoms_getitem_mask atoms mask;
      n_v ← atoms_len v_atoms;
      _ ← set_chemical_symbols v_atoms (replicate n_v vtype);
      mask ← atoms_symbols_eq atoms sym;
      let r_atom_ids := r_atom_ids ++ np_where mask in
      n_v ← atoms_len v_atoms;
      n_new ← atoms_len new_atoms;
      let v_atom_ids := v_atom_ids ++ map (λ k, k + n_new) (seq 0 n_v) in
      _ ← atoms_iadd new_atoms v_atoms;
      add_virtual_atoms atoms new_atoms type_map pairs'
        r_atom_ids v_atom_ids
  end.

(** The loop "build charges" (dplr.py:212-213). *)
Fixpoint build_charges (new_atoms : loc) (pairs : list (string * num))
    (charges : list num) : M num (list num) :=
  match pairs with
  | [] => mret charges
  | (atype, charge) :: pairs' =>
      mask ← atoms_symbols_eq new_atoms atype;
      build_charges new_atoms pairs' (mask_assign charges mask charge)
  end.

(** [np.array([arange(n)+1, [1]*n, r+1, v+1]).T] *)
Definition build_bonds (r_atom_ids v_atom_ids : list nat) : list bond :=
  imap (λ k '(r, v), (k + 1, 1, r + 1, v + 1)) (zip r_atom_ids v_atom_ids).

(** Lines 182-225: everything up to the call of the serializer.  The
    result is what the serializer is given: the augmented structure, the
    charges, the bonds and the species order. *)
Definition dplr_lammps_build (atoms : loc) (type_map : list string)
    (sel_type : list Z) (sys_charge_map model_charge_map : list num)
    : M num (loc * list num * list bond * list string) :=
  if negb (bool_decide (length type_map = length sys_charge_map))
  then ST_raise (ValueError sys_charge_map_length)
  else if negb (bool_decide (length sel_type = length model_charge_map))
  then ST_raise (ValueError model_charge_map_length)
  else
    new_atoms ← atoms_copy atoms;
    let vtypes := get_unused_symbols type_map (Z.of_nat (length sel_type)) in
    '(r_atom_ids, v_atom_ids) ←
      add_virtual_atoms atoms new_atoms type_map (zip sel_type vtypes) [] [];
    n ← atoms_len new_atoms;
    charges ← build_charges new_atoms
                (zip (type_map ++ vtypes)
                     (sys_charge_map ++ model_charge_map))
                (replicate n nzero);
    let bonds := build_bonds r_atom_ids v_atom_ids in
    mret (new_atoms, charges, bonds, type_map ++ vtypes).

Definition dump_dplr_lammps_data (fp atoms : loc) (type_map : list string)
    (sel_type : list Z) (sys_charge_map model_charge_map : list num)
    : M num unit :=
  '(new_atoms, charges, bonds, specorder) ←
    dplr_lammps_build atoms type_map sel_type
      sys_charge_map model_charge_map;
  lammps_write fp new_atoms charges bonds specorder.
End dump_dplr_lammps_data.

(** ** The libraries and the file system around the module *)

(** A 3x3 cell, row by row. *)
Definition cell (num : Type) : Type := (vec num * vec num * vec num)%type.

(** The geometry routines the module imports.  [distance_array] and
    [minimize_vectors] of MDAnalysis work entry by entry and row by row:
    [distance box r e] is the entry of the distance matrix for the reference
    point [r] and the point [e] under the periodic box, and
    [minimize_vector box v] is the minimum image of the displacement [v]. *)
Class Geometry (num : Type) : Type := {
  cellpar : Type;
  cell_to_cellpar : cell num → cellpar;           (* ase.geometry.cell *)
  distance : cellpar → vec num → vec num → num;
  minimize_vector : cellpar → vec num → vec num;
}.

(** [dpdata.LabeledSystem]: the entries of its [data] dictionary that the
    module reads or writes.  [coords] is frames x atoms x 3, [cells] is
    frames x 3 x 3; the last two keys are absent until they are set. *)
Record LabeledSystem (num : Type) : Type := mkLabeledSystem {
  atom_names : list string;
  atom_types : list Z;
  coords : list (list (vec num));
  cells : list (cell num);
  data_atomic_dipole : option (list (list (vec num)));
  data_wannier_spread : option (list (list (list num)));
}.
Arguments mkLabeledSystem {num} _ _ _ _ _ _.
Arguments atom_names {num} _.
Arguments atom_types {num} _.
Arguments coords {num} _.
Arguments cells {num} _.
Arguments data_atomic_dipole {num} _.
Arguments data_wannier_spread {num} _.

Definition get_natoms {num} (dp_sys : LabeledSystem num) : nat :=
  length (atom_types dp_sys).
Definition get_nframes {num} (dp_sys : LabeledSystem num) : nat :=
  length (cells dp_sys).

(** What [np.loadtxt] returns.  The array is squeezed: a file of one value
    gives a 0-d array, a file of one line or of one column a 1-d array, a
    file of several lines of several columns a 2-d array (the list of its
    rows). *)
Inductive ndarray (A : Type) : Type :=
  | Array0 (x : A)
  | Array1 (l : list A)
  | Array2 (rows : list (list A)).
Arguments Array0 {A} _.
Arguments Array1 {A} _.
Arguments Array2 {A} _.

(** What the module reads from disk, the path functions of [os.path], the
    string functions of Python, and what the installed NumPy does where
    its versions differ.  Every reader may raise. *)
Class FileSystem (num : Type) : Type := {
  os_path_join : string → string → string;
  os_path_dirname : string → string;
  (* dpdata.LabeledSystem(path, fmt="cp2k/output") *)
  LabeledSystem_load : string → res (LabeledSystem num);
  (* ase.io.read(path) *)
  ase_io_read : string → res (Atoms num);
  (* open(path).readlines() *)
  readlines : string → res (list string);
  (* s.strip() and s.split(): white space is what Python's str takes for
     it, Unicode white space included *)
  py_strip : string → string;
  py_split : string → list string;
  (* float(s) *)
  py_float : string → res num;
  (* np.loadtxt(path, dtype=str) and np.loadtxt(path, dtype=int) *)
  loadtxt_str : string → res (ndarray string);
  loadtxt_int : string → res (ndarray Z);
  (* np.where on a 0-d array: returns, with a DeprecationWarning, before
     NumPy 2.1, and raises ValueError from then on *)
  np_where_0d : res unit;
  (* glob.glob(os.path.join(root, "**", name), recursive=True) *)
  glob_recursive : string → string → list string;
}.

(** ** [read_wannier_spread] (dplr.py:262-286) *)

(** [lines[2:-1]] *)
Definition slice_2_m1 {A} (lines : list A) : list A :=
  take (length lines - 1 - 2) (drop 2 lines).

Section read_wannier_spread.
Context {num : Type} `{!FileSystem num}.

Definition read_wannier_spread (fname : string) : res (list (num * num)) :=
  lines ← readlines fname;
  mapM (λ line,
          let line := py_split (py_strip line) in
          x1 ← py_getitem line 1 ≫= py_float;
          x2 ← py_getitem line 2 ≫= py_float;
          mret (x1, x2))
       (slice_2_m1 lines).

(** [a[:, -1]] on what [read_wannier_spread] returns: [np.array([])] has
    one axis only. *)
Definition last_column (a : list (num * num)) : res (list num) :=
  match a with
  | [] => raise IndexError
  | _ => mret (snd <$> a)
  end.
End read_wannier_spread.

(** ** [get_sel_ids] (dplr.py:105-109) *)

Definition get_sel_ids {num} (dp_sys : LabeledSystem num)
    (type_map : list string) (sel_type : list Z) : res (list nat) :=
  symbols ← np_take (atom_names dp_sys) (atom_types dp_sys);
  sel_symbols ← np_take type_map sel_type;
  mret (np_where (np_isin symbols sel_symbols)).

(** ** [get_atomic_dipole] (dplr.py:112-153) *)

Section vectors.
Context `{Num num}.

Definition vzero : vec num := (nzero, nzero, nzero).
Definition vadd (u v : vec num) : vec num :=
  let '(a, b, c) := u in let '(x, y, z) := v in
  (nadd a x, nadd b y, nadd c z).
Definition vsub (u v : vec num) : vec num :=
  let '(a, b, c) := u in let '(x, y, z) := v in
  (nsub a x, nsub b y, nsub c z).
Definition vdiv (u : vec num) (n : nat) : vec num :=
  let '(a, b, c) := u in (ndiv a n, ndiv b n, ndiv c n).

(** [a.mean(axis=0)] on an array of rows: the rows are added up from the
    first on and the sum is divided by their number. *)
Definition mean_axis0 (rows : list (vec num)) : vec num :=
  match rows with
  | [] => vdiv vzero 0
  | r :: rows' => vdiv (foldl vadd r rows') (length rows)
  end.
End vectors.

(** [cells.reshape(3, 3)]: the array must hold exactly one cell. *)
Definition reshape_3_3 {num} (cells : list (cell num)) : res (cell num) :=
  match cells with
  | [c] => mret c
  | _ => raise (ValueError cannot_reshape)
  end.

(** [if wannier_spread_file:] is false for [None] and for the empty
    string. *)
Definition truthy (s : option string) : option string :=
  match s with
  | Some s => if bool_decide (s = "") then None else Some s
  | None => None
  end.

(** [len(set(ids))] *)
Definition count_distinct (ids : list nat) : nat := length (remove_dups ids).

Section get_atomic_dipole.
Context `{Num num} `{!Geometry num} `{!FileSystem num}.

(** [distance_array(ref_coords, e_coords, box=cellpar)] *)
Definition distance_array (ref_coords e_coords : list (vec num))
    (box : cellpar) : list (list num) :=
  map (λ r, map (distance box r) e_coords) ref_coords.

(** [minimize_vectors(vectors, box=cellpar)] *)
Definition minimize_vectors (vectors : list (vec num)) (box : cellpar)
    : list (vec num) :=
  map (minimize_vector box) vectors.

(** The variables that the loop of [get_atomic_dipole] updates. *)
Record loop_state : Type := mkLoop {
  l_atomic_dipole : list (vec num);
  l_wannier_spread : list (list num);
  l_mlwc_ids : list (list nat);
  l_extended_coords : list (vec num);
}.

(** The loop (dplr.py:132-147) over the rows of [dist_mat] still to be
    visited; [ii] is the index of the first of them. *)
Fixpoint dipole_loop (wannier_cutoff : num) (box : cellpar)
    (ref_coords e_coords : list (vec num))
    (full_wannier_spread : option (list num))
    (ii : nat) (dist_mat : list (list num)) (st : loop_state)
    : res loop_state :=
  match dist_mat with
  | [] => mret st
  | dist_vec :: dist_mat' =>
      let mask := map (λ d, nlt d wannier_cutoff) dist_vec in
      let cn := length (filter (λ b, b = true) mask) in
      if negb (bool_decide (cn = 4))
      then raise (ValueError (cutoff_range ii cn))
      else
        let mlwc_ids := l_mlwc_ids st ++ [np_where mask] in
        e_sel ← np_getitem_mask e_coords mask;
        ref_ii ← py_getitem ref_coords (Z.of_nat ii);
        let wc_coord_rel := map (λ e, vsub e ref_ii) e_sel in
        wannier_spread ←
          match full_wannier_spread with
          | Some s =>
              row ← np_getitem_mask s mask;
              mret (l_wannier_spread st ++ [row])
          | None => mret (l_wannier_spread st)
          end;
        let wc_coord_rel := minimize_vectors wc_coord_rel box in
        let _atomic_dipole := mean_axis0 wc_coord_rel in
        let atomic_dipole := l_atomic_dipole st ++ [_atomic_dipole] in
        let wc_coord := vadd _atomic_dipole ref_ii in
        let extended_coords := l_extended_coords st ++ [wc_coord] in
        dipole_loop wannier_cutoff box ref_coords e_coords
          full_wannier_spread (S ii) dist_mat'
          (mkLoop atomic_dipole wannier_spread mlwc_ids extended_coords)
  end.

(** Lines 121-124: the last column of the spread file, if one was given. *)
Definition load_full_wannier_spread (wannier_spread_file : option string)
    : res (option (list num)) :=
  match truthy wannier_spread_file with
  | Some f => Some <$> (read_wannier_spread f ≫= last_column)
  | None => mret None
  end.

Definition get_atomic_dipole (dp_sys : LabeledSystem num)
    (sel_ids : list nat) (wannier_atoms : Atoms num)
    (wannier_cutoff : num) (wannier_spread_file : option string)
    : res (list (vec num) * list (vec num) * list (list num)) :=
  let coords := concat (coords dp_sys) in
  cellpar ← cell_to_cellpar <$> reshape_3_3 (cells dp_sys);
  let extended_coords := coords in
  full_wannier_spread ← load_full_wannier_spread wannier_spread_file;
  ref_coords ← np_take_nat coords sel_ids;
  let e_coords := position <$> wannier_atoms in
  let dist_mat := distance_array ref_coords e_coords cellpar in
  st ← dipole_loop wannier_cutoff cellpar ref_coords e_coords
         full_wannier_spread 0 dist_mat
         (mkLoop [] [] [] extended_coords);
  let mlwc_ids := concat (l_mlwc_ids st) in
  (* exclude double counting *)
  _ ← py_assert (bool_decide (count_distinct mlwc_ids = length sel_ids * 4));
  let atomic_dipole := l_atomic_dipole st in
  _ ← py_assert (bool_decide (length atomic_dipole = length sel_ids));
  mret (atomic_dipole, l_extended_coords st, l_wannier_spread st).
End get_atomic_dipole.

(** ** [set_dplr_ext_from_cp2k_output] (dplr.py:62-102) *)

(** [a[ids] = rows] on one frame: row [k] of the value goes to index
    [ids[k]].  An index out of range raises [IndexError]; a value with
    another number of rows does not fit (a value of one row, which NumPy
    would repeat, is never passed by the module). *)
Definition np_setitem_rows {A} (a : list A) (ids : list nat) (rows : list A)
    : res (list A) :=
  if negb (bool_decide (Forall (λ i, i < length a) ids))
  then raise IndexError
  else if negb (bool_decide (length rows = length ids))
  then raise (ValueError shape_mismatch)
  else mret (foldl (λ acc '(i, row), <[i := row]> acc) a (zip ids rows)).

(** [a[:, ids] = rows] on every frame. *)
Definition np_setitem_frames {A} (a : list (list A)) (ids : list nat)
    (rows : list A) : res (list (list A)) :=
  mapM (λ frame, np_setitem_rows frame ids rows) a.

Section set_dplr_ext_from_cp2k_output.
Context `{Num num} `{!Geometry num} `{!FileSystem num}.

Definition set_dplr_ext_from_cp2k_output (dp_sys : LabeledSystem num)
    (wannier_file : string) (type_map : list string) (sel_type : list Z)
    (wannier_cutoff : num) (wannier_spread_file : option string)
    : res (LabeledSystem num) :=
  wannier_atoms ← ase_io_read wannier_file;
  let mask := symbols_eq wannier_atoms "X" in
  wannier_atoms ← np_getitem_mask wannier_atoms mask;
  let natoms := get_natoms dp_sys in
  let nframes := get_nframes dp_sys in
  _ ← py_assert (bool_decide (nframes = 1));
  sel_ids ← get_sel_ids dp_sys type_map sel_type;
  '(atomic_dipole, extended_coords, wannier_spread) ←
    get_atomic_dipole dp_sys sel_ids wannier_atoms wannier_cutoff
      wannier_spread_file;
  let atomic_dipole_reformat := replicate nframes (replicate natoms vzero) in
  atomic_dipole ← np_setitem_frames atomic_dipole_reformat sel_ids
                    atomic_dipole;
  let wannier_spread_reformat :=
    replicate nframes (replicate natoms (replicate 4 nzero)) in
  wannier_spread' ←
    (if bool_decide (0 < length wannier_spread)
     then Some <$> np_setitem_frames wannier_spread_reformat sel_ids
                     wannier_spread
     else mret None);
  mret (mkLabeledSystem (atom_names dp_sys) (atom_types dp_sys)
          (coords dp_sys) (cells dp_sys)
          (Some atomic_dipole)
          (match wannier_spread' with
           | Some w =>
               if bool_decide (0 < length w) then Some w
               else data_wannier_spread dp_sys
           | None => data_wannier_spread dp_sys
           end)).
End set_dplr_ext_from_cp2k_output.

(** ** [dpdata_read_cp2k_dplr_data] (dplr.py:18-59) *)

Section dpdata_read_cp2k_dplr_data.
Context `{Num num} `{!Geometry num} `{!FileSystem num}.

(** The result is [None] where the Python function returns [None]. *)
Definition dpdata_read_cp2k_dplr_data (cp2k_dir cp2k_output : string)
    (wannier_file : string) (type_map : list string) (sel_type : list Z)
    (wannier_cutoff : num) (wannier_spread_file : option string)
    : res (option (LabeledSystem num)) :=
  let cp2k_output := os_path_join cp2k_dir cp2k_output in
  let wannier_file := os_path_join cp2k_dir wannier_file in
  let wannier_spread_file :=
    match truthy wannier_spread_file with
    | Some f => Some (os_path_join cp2k_dir f)
    | None => None
    end in
  dp_sys ← LabeledSystem_load cp2k_output;
  match set_dplr_ext_from_cp2k_output dp_sys wannier_file type_map
          sel_type wannier_cutoff wannier_spread_file with
  | inr dp_sys => mret (Some dp_sys)
  | inl (ValueError _) => mret None               (* except ValueError *)
  | inl e => raise e
  end.
End dpdata_read_cp2k_dplr_data.

(** ** [dplr_v2_to_v3] and [dplr_v3_to_v2] (dplr.py:289-347) *)

(** The first [n] consecutive pieces of [len] elements of a flat array. *)
Fixpoint chunks {A} (n len : nat) (l : list A) : list (list A) :=
  match n with
  | 0 => []
  | S n' => take len l :: chunks n' len (drop len l)
  end.

(** [a.reshape([n, k, -1])] on the elements of [a] in storage order: the
    missing dimension is [size / (n * k)], which must be exact. *)
Definition reshape_3d {A} (a : list A) (n k : nat)
    : res (list (list (list A))) :=
  if bool_decide (n * k = 0 ∨ length a `mod` (n * k) ≠ 0)
  then raise (ValueError cannot_reshape)
  else
    let dim := length a `div` (n * k) in
    mret (chunks k dim <$> chunks n (k * dim) a).

(** [a.reshape([n_frames, -1])] on a 3-d array with [n_frames] frames. *)
Definition reshape_2d {A} (a : list (list (list A))) : res (list (list A)) :=
  match a with
  | [] => raise (ValueError cannot_reshape)
  | _ => mret ((λ frame, concat frame) <$> a)
  end.

(** The [.npy] files under the data root, each a 2-d array of one row per
    frame. *)
Abbreviation npy_files num := (gmap string (list (list num))).

Section reshapers.
Context `{Num num} `{!FileSystem num}.

Definition np_load (fname : string) : ST (npy_files num) (list (list num)) :=
  λ fs, match fs !! fname with
        | Some a => (inr a, fs)
        | None => (inl (OSError fname), fs)
        end.

Definition np_save (fname : string) (a : list (list num))
    : ST (npy_files num) unit :=
  λ fs, (inr (), <[fname := a]> fs).

(** [type_map[i]] for one index [i] of [atype], as the list of its
    elements: one symbol of a 1-d [type_map], one row of a 2-d one.  A 0-d
    array cannot be indexed. *)
Definition nd_entry (type_map : ndarray string) (i : Z) : res (list string) :=
  match type_map with
  | Array0 _ => raise IndexError
  | Array1 l => x ← py_getitem l i; mret [x]
  | Array2 rows => py_getitem rows i
  end.

(** [np.array(type_map)[atype]] for an [atype] of one or two dimensions,
    as the list of its sub-arrays along the first axis, each in storage
    order. *)
Definition nd_take (type_map : ndarray string) (atype : list (list Z))
    : res (list (list string)) :=
  match type_map with
  | Array0 _ => raise IndexError
  | _ => mapM (λ row, items ← mapM (nd_entry type_map) row;
                      mret (concat items)) atype
  end.

(** [np.where(mask)[0]] for a mask of two or three dimensions, given by
    its sub-arrays along the first axis: the first index of every [True]
    entry, in storage order. *)
Definition np_where_first (mask : list (list bool)) : list nat :=
  concat (imap (λ i row, replicate (length (np_where row)) i) mask).

(** The sibling files [../type_map.raw] and [../type.raw], and the
    indices of the atoms whose symbol is selected (the first lines of
    both loop bodies).  Both files are one-dimensional when they hold one
    entry per line or all entries on one line.  With a 0-d [type_map] the
    indexing raises.  With a 0-d [atype] the indexing is checked, the
    selected symbols are a 0-d array when [type_map] is 1-d, and
    [len(atype)] raises. *)
Definition load_sel_ids (fname : string) (sel_symbol : list string)
    : res (list nat * nat) :=
  type_map ← loadtxt_str
               (os_path_join (os_path_dirname fname) "../type_map.raw");
  atype ← loadtxt_int
            (os_path_join (os_path_dirname fname) "../type.raw");
  match type_map, atype with
  | Array1 type_map, Array1 atype =>
      symbols ← np_take type_map atype;
      let sel_ids := np_where (np_isin symbols sel_symbol) in
      let n_atoms := length atype in
      mret (sel_ids, n_atoms)
  | Array0 _, _ => raise IndexError
  | _, Array0 i =>
      _ ← nd_entry type_map i;
      _ ← match type_map with
          | Array1 _ => np_where_0d
          | _ => mret ()
          end;
      raise TypeError
  | _, Array1 atype =>
      symbols ← nd_take type_map ((λ i, [i]) <$> atype);
      let sel_ids :=
        np_where_first ((λ row, np_isin row sel_symbol) <$> symbols) in
      let n_atoms := length atype in
      mret (sel_ids, n_atoms)
  | _, Array2 atype =>
      symbols ← nd_take type_map atype;
      let sel_ids :=
        np_where_first ((λ row, np_isin row sel_symbol) <$> symbols) in
      let n_atoms := length atype in
      mret (sel_ids, n_atoms)
  end.

(** The body of the inner loop of [dplr_v2_to_v3].  [n_frames] is the
    local variable of that name: [None] while nothing has been assigned
    to it.  The body returns the variable as it leaves it. *)
Definition v2_to_v3_file (sel_symbol : list string) (fname : string)
    (n_frames : option nat) : ST (npy_files num) (option nat) :=
  '(sel_ids, n_atoms) ← ST_lift (load_sel_ids fname sel_symbol);
  loaded ← np_load fname;
  n ← match n_frames with
      | Some n => mret n
      | None => ST_raise (UnboundLocalError "n_frames")
      end;
  raw_data ← ST_lift (reshape_3d (concat loaded) n (length sel_ids));
  let n_frames := length raw_data in
  let n_dim := length (concat loaded) `div` (n * length sel_ids) in
  let full_data :=
    replicate n_frames (replicate n_atoms (replicate n_dim nzero)) in
  full_data ← ST_lift
    (mapM (λ '(frame, rows), np_setitem_rows frame sel_ids rows)
          (zip full_data raw_data));
  out ← ST_lift (reshape_2d full_data);
  _ ← np_save fname out;
  mret (Some n_frames).

(** The body of the inner loop of [dplr_v3_to_v2]. *)
Definition v3_to_v2_file (sel_symbol : list string) (fname : string)
    : ST (npy_files num) unit :=
  '(sel_ids, n_atoms) ← ST_lift (load_sel_ids fname sel_symbol);
  raw_data ← np_load fname;
  let n_frames := length raw_data in
  raw_data_reshape ← ST_lift (reshape_3d (concat raw_data) n_frames n_atoms);
  selected ← ST_lift
    (mapM (λ frame, np_take_nat frame sel_ids) raw_data_reshape);
  out ← ST_lift (reshape_2d selected);
  np_save fname out.

Definition atomic_data_fnames : list string :=
  ["atomic_dipole.npy"; "atomic_polarizability.npy"; "wannier_spread.npy"].

(** [for x in xs: body], with a variable the body updates. *)
Fixpoint for_each {S X V} (body : X → V → ST S V) (xs : list X) (v : V)
    : ST S V :=
  match xs with
  | [] => mret v
  | x :: xs' => v' ← body x v; for_each body xs' v'
  end.

Definition dplr_v2_to_v3 (data_path : string) (sel_symbol : list string)
    : ST (npy_files num) unit :=
  _ ← for_each
        (λ atomic_data_fname n_frames,
           for_each (v2_to_v3_file sel_symbol)
             (glob_recursive data_path atomic_data_fname) n_frames)
        atomic_data_fnames None;
  mret ().

Definition dplr_v3_to_v2 (data_path : string) (sel_symbol : list string)
    : ST (npy_files num) unit :=
  for_each
    (λ atomic_data_fname _,
       for_each (λ fname _, v3_to_v2_file sel_symbol fname)
         (glob_recursive data_path atomic_data_fname) ())
    atomic_data_fnames ().
End reshapers.
(** An instance for worked examples: integer coordinates and charges, the
    mean rounded down. *)
#[export] Instance Z_num : Num Z := {|
  nzero := 0%Z;
  nadd := Z.add;
  nsub := Z.sub;
  ndiv := λ x n, (x / Z.of_nat n)%Z;
  nlt := Z.ltb;
|}.


(** ** A worked example: an integer lattice and a small disk *)

Module Example.

(** The minimum image of a coordinate difference on a cubic cell of edge
    [L], and the taxicab distance of the minimum image. *)
Definition wrap (L x : Z) : Z :=
  if (L =? 0)%Z then x else ((x + L / 2) `mod` L - L / 2)%Z.

#[export] Instance Z_geometry : Geometry Z := {|
  cellpar := Z;
  cell_to_cellpar := λ '((a, _, _), _, _), a;
  minimize_vector := λ L '(x, y, z), (wrap L x, wrap L y, wrap L z);
  distance := λ L '(a, b, c) '(x, y, z),
    (Z.abs (wrap L (x - a)) + Z.abs (wrap L (y - b))
     + Z.abs (wrap L (z - c)))%Z;
|}.

(** A disk: what each path holds. *)
Record disk : Type := mkDisk {
  d_systems : list (string * LabeledSystem Z);
  d_structures : list (string * Atoms Z);
  d_text : list (string * list string);
  d_type_map : list (string * ndarray string);
  d_type : list (string * ndarray Z);
  d_npy : list string;
}.

Fixpoint find_file {A} (tbl : list (string * A)) (path : string) : res A :=
  match tbl with
  | [] => raise (OSError path)
  | (p, x) :: tbl' => if bool_decide (p = path) then mret x
                      else find_file tbl' path
  end.

Definition digit (c : ascii) : option Z :=
  let n := nat_of_ascii c in
  if bool_decide (48 ≤ n ∧ n ≤ 57) then Some (Z.of_nat (n - 48)) else None.

Fixpoint digits (acc : Z) (s : list ascii) : option Z :=
  match s with
  | [] => Some acc
  | c :: s' => d ← digit c; digits (10 * acc + d)%Z s'
  end.

(** [float(s)] restricted to decimal integers. *)
Definition parse_int (s : string) : res Z :=
  let bad := raise (ValueError (could_not_convert s)) in
  match String.list_ascii_of_string s with
  | [] => bad
  | c :: cs =>
      if bool_decide (c = "-"%char)
      then match cs, digits 0 cs with
           | _ :: _, Some n => mret (- n)%Z
           | _, _ => bad
           end
      else match digits 0 (c :: cs) with
           | Some n => mret n
           | None => bad
           end
  end.

(** [str.split] and [str.strip] on lines of ASCII characters. *)
Definition is_space (c : ascii) : bool :=
  let n := nat_of_ascii c in
  bool_decide (n = 32 ∨ (9 ≤ n ∧ n ≤ 13) ∨ (28 ≤ n ∧ n ≤ 31))%nat.

(** The maximal runs of characters that are not white space; [cur] is the
    run being read, in reverse. *)
Fixpoint split_from (cur : list ascii) (s : list ascii) : list string :=
  let flush (rest : list string) :=
    match cur with
    | [] => rest
    | _ => String.string_of_list_ascii (reverse cur) :: rest
    end in
  match s with
  | [] => flush []
  | c :: s' =>
      if is_space c then flush (split_from [] s')
      else split_from (c :: cur) s'
  end.
Definition ascii_split (line : string) : list string :=
  split_from [] (String.list_ascii_of_string line).

Fixpoint lstrip (s : list ascii) : list ascii :=
  match s with
  | [] => []
  | c :: s' => if is_space c then lstrip s' else s
  end.
Definition ascii_strip (line : string) : string :=
  String.string_of_list_ascii
    (reverse (lstrip (reverse (lstrip (String.list_ascii_of_string line))))).

Fixpoint after_slash (s : list ascii) : list ascii :=
  match s with
  | [] => []
  | c :: s' => if bool_decide (c = "/"%char) then s' else after_slash s'
  end.

Definition dirname (path : string) : string :=
  String.string_of_list_ascii
    (reverse (after_slash (reverse (String.list_ascii_of_string path)))).

Definition glob (d : disk) (root name : string) : list string :=
  filter (λ p,
            String.list_ascii_of_string (String.append root "/")
              `prefix_of` String.list_ascii_of_string p
            ∧ String.list_ascii_of_string (String.append "/" name)
              `suffix_of` String.list_ascii_of_string p)
         (d_npy d).

Definition disk_fs (d : disk) : FileSystem Z := {|
  os_path_join := λ a b, String.append a (String.append "/" b);
  os_path_dirname := dirname;
  LabeledSystem_load := find_file (d_systems d);
  ase_io_read := find_file (d_structures d);
  readlines := find_file (d_text d);
  py_strip := ascii_strip;
  py_split := ascii_split;
  py_float := parse_int;
  loadtxt_str := find_file (d_type_map d);
  loadtxt_int := find_file (d_type d);
  np_where_0d := mret ();
  glob_recursive := glob d;
|}.

Definition box100 : cell Z := ((100, 0, 0), (0, 100, 0), (0, 0, 100))%Z.

(** One water molecule. *)
Definition water : LabeledSystem Z :=
  mkLabeledSystem ["O"; "H"] [0; 1; 1]%Z
    [[(0, 0, 0); (10, 0, 0); (0, 10, 0)]]%Z [box100] None None.

(** Its structure file with four Wannier centres around the oxygen, one of
    them across the cell boundary. *)
Definition water_wannier : Atoms Z :=
  [mkAtom "O" (0, 0, 0); mkAtom "H" (10, 0, 0); mkAtom "H" (0, 10, 0);
   mkAtom "X" (4, 0, 0); mkAtom "X" (96, 0, 0); mkAtom "X" (0, 4, 0);
   mkAtom "X" (0, 0, 8)]%Z.

Definition water_spread : list string :=
  ["  WANNIER SPREADS"; "  #  centre  spread";
   "  1  11  21"; "  2  12  22"; "  3  13  23"; "  4  14  24";
   "  sum  50  90"].

(** Two oxygens that are so close that each has the same four centres
    within a cutoff of 10. *)
Definition pair : LabeledSystem Z :=
  mkLabeledSystem ["O"; "H"] [0; 0]%Z
    [[(0, 0, 0); (2, 0, 0)]]%Z [box100] None None.

Definition pair_wannier : Atoms Z :=
  [mkAtom "X" (1, 0, 0); mkAtom "X" (1, 1, 0); mkAtom "X" (1, 0, 1);
   mkAtom "X" (1, 99, 0)]%Z.



Definition the_disk : disk := {|
  d_systems := [("run/out", water); ("dup/out", pair)];
  d_structures := [("run/wannier.xyz", water_wannier);
                   ("dup/wannier.xyz", pair_wannier)];
  d_text := [("run/spread.out", water_spread)];
  d_type_map := [("data/set.000/../type_map.raw", Array1 ["O"; "H"])];
  d_type := [("data/set.000/../type.raw", Array1 [0; 1; 1]%Z)];
  d_npy := ["data/set.000/atomic_dipole.npy"];
|}.

#[export] Instance the_fs : FileSystem Z := disk_fs the_disk.

(** The dipole file of the water molecule in the full layout: one frame,
    three atoms, zero at the two hydrogens. *)
Definition full_dipole : list (list Z) := [[1; 2; 3; 0; 0; 0; 0; 0; 0]%Z].

Definition the_npy : npy_files Z :=
  {[ "data/set.000/atomic_dipole.npy" := full_dipole ]}.

(** A serializer that writes one line and leaves the structure alone. *)
Definition write_stub (f : string) (a : Atoms Z) (charges : list Z)
    (bonds : list bond) (specorder : list string)
    : res unit * string * Atoms Z :=
  (inr (), String.append f "LAMMPS data file", a).

Definition two_waters : Atoms Z :=
  [mkAtom "O" (0, 0, 0); mkAtom "O" (50, 50, 50); mkAtom "H" (10, 0, 0);
   mkAtom "H" (0, 10, 0); mkAtom "H" (60, 50, 50); mkAtom "H" (50, 60, 50)]%Z.

Definition the_world : world Z :=
  World {[ 0 := two_waters ]} {[ 0 := "" ]}.
End Example.

(** ** Vocabulary of the statements *)

(** [post c w Q E]: run from [w], the computation [c] either returns a
    value and a state that satisfy [Q], or raises and leaves a state that
    satisfies [E]. *)
Definition post {S A} (c : ST S A) (w : S) (Q : A → S → Prop)
    (E : S → Prop) : Prop :=
  match c w with
  | (inr x, w') => Q x w'
  | (inl _, w') => E w'
  end.

(** The object at [a0] is where and what it was: it holds [v0]. *)
Definition kept {num} (a0 : loc) (v0 : Atoms num) (w : world num) : Prop :=
  heap w !! a0 = Some v0.

Section vocabulary.
Context `{Num num} `{!Geometry num}.

(** The mask of the Wannier centres whose distance to the point [r] under
    the box is below the cutoff (dplr.py:133), their number (dplr.py:134)
    and their indices (dplr.py:137). *)
Definition within_cutoff (box : cellpar) (cutoff : num)
    (e_coords : list (vec num)) (r : vec num) : list bool :=
  map (λ e, nlt (distance box r e) cutoff) e_coords.

Definition count_true (mask : list bool) : nat :=
  length (filter (λ b, b = true) mask).

Definition centres_of (box : cellpar) (cutoff : num)
    (e_coords : list (vec num)) (r : vec num) : list nat :=
  np_where (within_cutoff box cutoff e_coords r).

(** The value the loop appends to [atomic_dipole] for the point [r]
    (dplr.py:138-143). *)
Definition dipole_of (box : cellpar) (cutoff : num)
    (e_coords : list (vec num)) (r : vec num) : vec num :=
  mean_axis0
    (minimize_vectors
       (map (λ e, vsub e r)
            (mask_select e_coords (within_cutoff box cutoff e_coords r)))
       box).

(** The spread data, when a file was given, has one entry per centre. *)
Definition spread_aligned (full_wannier_spread : option (list num))
    (e_coords : list (vec num)) : Prop :=
  match full_wannier_spread with
  | Some s => length s = length e_coords
  | None => True
  end.
(** A tensor in the full layout: [n_atoms] rows of [dim] numbers per frame,
    zero at the atoms that are not selected. *)
Definition zero_padded (sel_ids : list nat) (n_atoms dim : nat)
    (full : list (list (list num))) : Prop :=
  Forall (λ frame,
            length frame = n_atoms
            ∧ Forall (λ row, length row = dim) frame
            ∧ ∀ i row, frame !! i = Some row → i ∉ sel_ids →
                       row = replicate dim nzero) full.
End vocabulary.

(** ** Vocabulary of the further properties *)

(** An index that Python accepts for a sequence of length [n]. *)
Definition valid_index (n : nat) (i : Z) : Prop :=
  (- Z.of_nat n ≤ i < Z.of_nat n)%Z.

(** A [type_map] of element symbols: every entry is in the table of ASE
    ([X] included).  For such a string [s], [atoms.symbols == s] compares
    atom by atom. *)
Definition element_symbols (type_map : list string) : Prop :=
  Forall (λ s, s ∈ chemical_symbols) type_map.

(** The virtual partners that one pass of the loop of
    [dump_dplr_lammps_data] builds (dplr.py:201-202): the atoms of symbol
    [sym], in their order, renamed to [vtype]. *)
Definition virtual_atoms {num} (a : Atoms num) (sym vtype : string)
    : Atoms num :=
  (λ x, mkAtom vtype (position x)) <$> mask_select a (symbols_eq a sym).

(** What all passes append to [new_atoms] (dplr.py:208) and to
    [r_atom_ids] (dplr.py:205), and the charges that the second loop
    assigns (dplr.py:211-213); a pair is a selected symbol with its virtual
    symbol, or a symbol with its charge. *)
Definition all_virtual_atoms {num} (a : Atoms num)
    (pairs : list (string * string)) : Atoms num :=
  concat ((λ p, virtual_atoms a p.1 p.2) <$> pairs).

Definition real_atom_ids {num} (a : Atoms num)
    (pairs : list (string * string)) : list nat :=
  concat ((λ p, np_where (symbols_eq a p.1)) <$> pairs).

Definition charges_of `{Num num} (b : Atoms num) (pairs : list (string * num))
    : list num :=
  foldl (λ charges p, mask_assign charges (symbols_eq b p.1) p.2)
    (replicate (length b) nzero) pairs.

(** ** Faulty inputs for the worked example *)

Module Faulty.

(** The water molecule of the example in two frames. *)
Definition two_frames : LabeledSystem Z :=
  mkLabeledSystem ["O"; "H"] [0; 1; 1]%Z
    [[(0, 0, 0); (10, 0, 0); (0, 10, 0)];
     [(0, 0, 0); (10, 0, 0); (0, 10, 0)]]%Z
    [Example.box100; Example.box100] None None.

(** A spread file without a data line, and one with a field that is not a
    number. *)
Definition empty_spread : list string :=
  ["  WANNIER SPREADS"; "  #  centre  spread"; "  sum  0  0"].

Definition garbled_spread : list string :=
  ["  WANNIER SPREADS"; "  #  centre  spread";
   "  1  11  ****"; "  sum  11  0"].

Definition faulty_disk : Example.disk := {|
  Example.d_systems := [("run/out", Example.water); ("traj/out", two_frames)];
  Example.d_structures := [("run/wannier.xyz", Example.water_wannier);
                           ("traj/wannier.xyz", Example.water_wannier)];
  Example.d_text := [("run/empty.out", empty_spread);
                     ("run/garbled.out", garbled_spread)];
  Example.d_type_map := [];
  Example.d_type := [];
  Example.d_npy := [];
|}.

Definition faulty_fs : FileSystem Z := Example.disk_fs faulty_disk.
End Faulty.

(** * Properties *)

(** ** Properties of [get_unused_symbols] *)

Section scan_unused.
Context (used : list string) (size : Z).

Lemma scan_unused_prefix scan acc :
  ∃ k, scan_unused used size scan acc
       = acc ++ take k (filter (λ s, s ∉ used) scan).
Proof.
  revert acc. induction scan as [|s scan IH]; intros acc; simpl.
  - exists 0. by rewrite app_nil_r.
  - unfold not_in. rewrite filter_cons.
    destruct (decide (s ∉ used)) as [Hs|Hs].
    + rewrite bool_decide_eq_true_2 by done.
      destruct (Z.of_nat (length (acc ++ [s])) =? size)%Z.
      * by exists 1.
      * destruct (IH (acc ++ [s])) as [k ->].
        exists (S k). by rewrite <- app_assoc.
    + rewrite bool_decide_eq_false_2 by done.
      destruct (Z.of_nat (length acc) =? size)%Z.
      * exists 0. by rewrite app_nil_r.
      * apply IH.
Qed.
End scan_unused.

Lemma chemical_symbols_NoDup : NoDup chemical_symbols.
Proof. apply (bool_decide_unpack _). by vm_compute. Qed.

Lemma get_unused_symbols_take used size :
  ∃ k, get_unused_symbols used size
       = take k (filter (λ s, s ∉ used) (reverse chemical_symbols)).
Proof. apply (scan_unused_prefix used size _ []). Qed.

(** C9. The symbols returned by [get_unused_symbols] are an initial segment
    of the canonical element list read in reverse order with the used
    symbols left out (so the choice is a function of the inputs alone); none
    of them occurs in the used-symbol list; they are pairwise distinct. *)
Theorem C9_get_unused_symbols_fresh (used_symbols : list string) (size : Z) :
  get_unused_symbols used_symbols size
    `prefix_of` filter (λ s, s ∉ used_symbols) (reverse chemical_symbols)
  ∧ (∀ s, s ∈ get_unused_symbols used_symbols size → s ∉ used_symbols)
  ∧ NoDup (get_unused_symbols used_symbols size).
Proof.
  destruct (get_unused_symbols_take used_symbols size) as [k Hk].
  assert (Hpre : get_unused_symbols used_symbols size
    `prefix_of` filter (λ s, s ∉ used_symbols) (reverse chemical_symbols)).
  { rewrite Hk. apply prefix_take. }
  split; [done|]. split.
  - intros s Hs. eapply elem_of_prefix in Hs; [|exact Hpre].
    by apply list_elem_of_filter in Hs as [? _].
  - destruct Hpre as [rest Hrest].
    assert (Hnd : NoDup (filter (λ s, s ∉ used_symbols)
                           (reverse chemical_symbols))).
    { apply NoDup_filter. rewrite reverse_Permutation.
      apply chemical_symbols_NoDup. }
    rewrite Hrest in Hnd. by apply NoDup_app in Hnd as [? _].
Qed.


(** ** Running a computation: postconditions *)

Lemma post_bind {S A B} (c : ST S A) (f : A → ST S B) w Q E :
  post c w (λ x w', post (f x) w' Q E) E → post (c ≫= f) w Q E.
Proof.
  unfold post, mbind, ST_bind. by destruct (c w) as [[e|x] w'].
Qed.

Lemma post_ret {S A} (x : A) (w : S) (Q : A → S → Prop) E :
  Q x w → post (mret x) w Q E.
Proof. done. Qed.

Lemma post_raise {S A} e (w : S) (Q : A → S → Prop) (E : S → Prop) :
  E w → post (ST_raise e) w Q E.
Proof. done. Qed.

Lemma post_lift {S A} (c : res A) (w : S) (Q : A → S → Prop) (E : S → Prop) :
  E w → (∀ x, c = inr x → Q x w) → post (ST_lift c) w Q E.
Proof. unfold post, ST_lift. destruct c; auto. Qed.

Lemma post_state {S A} (c : ST S A) (w : S) (Q : A → S → Prop) E :
  post c w Q E → (∀ x w', Q x w' → E w') → E (c w).2.
Proof. unfold post. destruct (c w) as [[e|x] w']; simpl; eauto. Qed.

(** ** The caller's object under the store primitives *)

Section frame.
Context {num : Type} (a0 : loc) (v0 : Atoms num).
Abbreviation keeps := (kept a0 v0).

Lemma post_deref a w (Q : Atoms num → world num → Prop) :
  keeps w → (∀ v, heap w !! a = Some v → Q v w) → post (deref a) w Q keeps.
Proof.
  intros Hk HQ. unfold post, deref. destruct (heap w !! a) eqn:Ha; auto.
Qed.

Lemma post_alloc v w (Q : loc → world num → Prop) :
  keeps w →
  (∀ l w', l ≠ a0 → keeps w' → heap w' !! l = Some v → Q l w') →
  post (alloc v) w Q keeps.
Proof.
  intros Hk HQ. unfold post, alloc.
  assert (Hne : fresh (dom (heap w)) ≠ a0).
  { intros Heq. apply (is_fresh (dom (heap w))). rewrite Heq.
    apply elem_of_dom. by exists v0. }
  apply HQ; [done| |]; unfold kept; simpl.
  - by rewrite lookup_insert_ne.
  - by rewrite lookup_insert_eq.
Qed.

Lemma post_store a v w (Q : unit → world num → Prop) :
  a ≠ a0 → keeps w →
  (∀ w', keeps w' → heap w' !! a = Some v → Q () w') →
  post (store a v) w Q keeps.
Proof.
  intros Hne Hk HQ. unfold post, store. apply HQ; unfold kept; simpl.
  - by rewrite lookup_insert_ne.
  - by rewrite lookup_insert_eq.
Qed.

Lemma post_frame_weaken {A} (c : M num A) w (Q Q' : A → world num → Prop) :
  post c w Q keeps → (∀ x w', Q x w' → Q' x w') → post c w Q' keeps.
Proof. unfold post. destruct (c w) as [[e|x] w']; auto. Qed.

Lemma atoms_copy_kept a w :
  keeps w → post (atoms_copy a) w (λ l w', l ≠ a0 ∧ keeps w') keeps.
Proof.
  intros Hk. apply post_bind, post_deref; [done|]. intros v _.
  apply post_alloc; [done|]. auto.
Qed.

Lemma atoms_getitem_mask_kept a mask w :
  keeps w →
  post (atoms_getitem_mask a mask) w (λ l w', l ≠ a0 ∧ keeps w') keeps.
Proof.
  intros Hk. apply post_bind, post_deref; [done|]. intros v _.
  apply post_bind, post_lift; [done|]. intros v' _.
  apply post_alloc; [done|]. auto.
Qed.

Lemma set_chemical_symbols_kept a symbols w :
  a ≠ a0 → keeps w →
  post (set_chemical_symbols a symbols) w (λ _ w', keeps w') keeps.
Proof.
  intros Hne Hk. apply post_bind, post_deref; [done|]. intros v _.
  case_decide.
  - apply post_store; auto.
  - by apply post_raise.
Qed.

Lemma atoms_iadd_kept a other w :
  a ≠ a0 → keeps w → post (atoms_iadd a other) w (λ _ w', keeps w') keeps.
Proof.
  intros Hne Hk. apply post_bind, post_deref; [done|]. intros v _.
  apply post_bind, post_deref; [done|]. intros v' _.
  apply post_store; auto.
Qed.

Lemma atoms_len_kept a w :
  keeps w → post (atoms_len a) w (λ _ w', keeps w') keeps.
Proof.
  intros Hk. apply post_bind, post_deref; [done|]. intros v _.
  by apply post_ret.
Qed.

Lemma atoms_symbols_eq_kept a s w :
  keeps w → post (atoms_symbols_eq a s) w (λ _ w', keeps w') keeps.
Proof.
  intros Hk. apply post_bind, post_deref; [done|]. intros v _.
  by apply post_ret.
Qed.
End frame.

(** ** [dump_dplr_lammps_data] leaves the caller's structure alone *)

Section dump_frame.
Context `{Num num} (a0 : loc) (v0 : Atoms num).
Abbreviation keeps := (kept a0 v0).

Lemma add_virtual_atoms_kept atoms new_atoms type_map pairs r v w :
  new_atoms ≠ a0 → keeps w →
  post (add_virtual_atoms atoms new_atoms type_map pairs r v) w
    (λ _ w', keeps w') keeps.
Proof.
  intros Hne. revert r v w.
  induction pairs as [|[atype vtype] pairs IH]; intros r v w Hk; simpl.
  { by apply post_ret. }
  apply post_bind, post_lift; [done|]. intros sym _.
  apply post_bind. eapply post_frame_weaken;
    [by apply atoms_symbols_eq_kept|]. simpl. intros mask w1 Hk1.
  apply post_bind. eapply post_frame_weaken;
    [by apply atoms_getitem_mask_kept|]. simpl. intros v_atoms w2 [Hv Hk2].
  apply post_bind. eapply post_frame_weaken;
    [by apply atoms_len_kept|]. simpl. intros n_v w3 Hk3.
  apply post_bind. eapply post_frame_weaken;
    [by apply set_chemical_symbols_kept|]. simpl. intros _ w4 Hk4.
  apply post_bind. eapply post_frame_weaken;
    [by apply atoms_symbols_eq_kept|]. simpl. intros mask' w5 Hk5.
  apply post_bind. eapply post_frame_weaken;
    [by apply atoms_len_kept|]. simpl. intros n_v' w6 Hk6.
  apply post_bind. eapply post_frame_weaken;
    [by apply atoms_len_kept|]. simpl. intros n_new w7 Hk7.
  apply post_bind. eapply post_frame_weaken;
    [by apply atoms_iadd_kept|]. simpl. intros _ w8 Hk8.
  by apply IH.
Qed.

Lemma build_charges_kept new_atoms pairs charges w :
  keeps w →
  post (build_charges new_atoms pairs charges) w (λ _ w', keeps w') keeps.
Proof.
  revert charges w.
  induction pairs as [|[atype charge] pairs IH]; intros charges w Hk; simpl.
  { by apply post_ret. }
  apply post_bind. eapply post_frame_weaken;
    [by apply atoms_symbols_eq_kept|]. simpl. intros mask w1 Hk1.
  by apply IH.
Qed.

Lemma dplr_lammps_build_kept atoms type_map sel_type sys model w :
  keeps w →
  post (dplr_lammps_build atoms type_map sel_type sys model) w
    (λ '(new_atoms, _, _, _) w', new_atoms ≠ a0 ∧ keeps w') keeps.
Proof.
  intros Hk. unfold dplr_lammps_build.
  destruct (negb _); [by apply post_raise|].
  destruct (negb _); [by apply post_raise|].
  apply post_bind. eapply post_frame_weaken;
    [by apply atoms_copy_kept|]. simpl. intros new_atoms w1 [Hne Hk1].
  apply post_bind. eapply post_frame_weaken;
    [by apply add_virtual_atoms_kept|]. simpl. intros [r v] w2 Hk2.
  apply post_bind. eapply post_frame_weaken;
    [by apply atoms_len_kept|]. simpl. intros n w3 Hk3.
  apply post_bind. eapply post_frame_weaken;
    [by apply build_charges_kept|]. simpl. intros charges w4 Hk4.
  by apply post_ret.
Qed.

Lemma lammps_write_kept W fp new_atoms charges bonds specorder w :
  new_atoms ≠ a0 → keeps w →
  post (lammps_write W fp new_atoms charges bonds specorder) w
    (λ _ w', keeps w') keeps.
Proof.
  intros Hne Hk. unfold post, lammps_write.
  destruct (files w !! fp) as [f|]; [|done].
  destruct (heap w !! new_atoms) as [v|]; [|done].
  destruct (W f v charges bonds specorder) as [[[e|[]] f'] v'];
    unfold kept; simpl; by rewrite lookup_insert_ne.
Qed.

Lemma dump_dplr_lammps_data_kept W fp atoms type_map sel_type sys model w :
  keeps w →
  post (dump_dplr_lammps_data W fp atoms type_map sel_type sys model) w
    (λ _ w', keeps w') keeps.
Proof.
  intros Hk. unfold dump_dplr_lammps_data.
  apply post_bind. eapply post_frame_weaken;
    [by apply dplr_lammps_build_kept|]. simpl.
  intros [[[new_atoms charges] bonds] specorder] w1 [Hne Hk1].
  by apply lammps_write_kept.
Qed.
End dump_frame.

(** C10. [dump_dplr_lammps_data] never changes the structure it is given:
    whatever the arguments and whether the call returns or raises, the
    [Atoms] object the caller passed holds after the call the atoms (symbols
    and positions, hence their number) it held before. *)
Theorem C10_dump_keeps_input_atoms `{Num num}
    (LammpsData_write : string → Atoms num → list num → list bond →
                        list string → res unit * string * Atoms num)
    (fp atoms : loc) (type_map : list string) (sel_type : list Z)
    (sys_charge_map model_charge_map : list num)
    (w : world num) (v : Atoms num) :
  heap w !! atoms = Some v →
  heap (dump_dplr_lammps_data LammpsData_write fp atoms type_map sel_type
          sys_charge_map model_charge_map w).2 !! atoms = Some v.
Proof.
  intros Hv.
  apply (post_state _ w (λ _ w', kept atoms v w') (kept atoms v)); [|done].
  by apply dump_dplr_lammps_data_kept.
Qed.

(** C8. A charge map whose length differs from that of its type list makes
    [dump_dplr_lammps_data] raise the length-mismatch [ValueError] at once:
    the store and the files are exactly as before the call, so nothing was
    copied, no atom was visited and nothing was written. *)
Theorem C8_length_mismatch_raised_first `{Num num}
    (LammpsData_write : string → Atoms num → list num → list bond →
                        list string → res unit * string * Atoms num)
    (fp atoms : loc) (type_map : list string) (sel_type : list Z)
    (sys_charge_map model_charge_map : list num) (w : world num) :
  length type_map ≠ length sys_charge_map
  ∨ length sel_type ≠ length model_charge_map →
  ∃ e, (e = sys_charge_map_length ∨ e = model_charge_map_length)
       ∧ dump_dplr_lammps_data LammpsData_write fp atoms type_map sel_type
           sys_charge_map model_charge_map w = (inl (ValueError e), w).
Proof.
  intros Hlen. unfold dump_dplr_lammps_data, dplr_lammps_build.
  destruct (decide (length type_map = length sys_charge_map)) as [Heq|Hne].
  - destruct Hlen as [?|Hne]; [done|].
    exists model_charge_map_length. split; [by right|].
    rewrite (bool_decide_eq_true_2 _ Heq), (bool_decide_eq_false_2 _ Hne).
    done.
  - exists sys_charge_map_length. split; [by left|].
    by rewrite (bool_decide_eq_false_2 _ Hne).
Qed.

(** ** Running the store primitives *)

Lemma run_bind {S A B} (c : ST S A) (f : A → ST S B) w x w1 :
  c w = (inr x, w1) → (c ≫= f) w = f x w1.
Proof. intros Hc. unfold mbind, ST_bind. by rewrite Hc. Qed.

Section run.
Context {num : Type}.
Implicit Types (w : world num) (v : Atoms num).

Lemma deref_run a w v : heap w !! a = Some v → deref a w = (inr v, w).
Proof. intros Hv. unfold deref. by rewrite Hv. Qed.

Lemma atoms_copy_run a w v :
  heap w !! a = Some v →
  atoms_copy a w
  = (inr (fresh (dom (heap w))),
     World (<[fresh (dom (heap w)) := v]> (heap w)) (files w)).
Proof. intros Hv. unfold atoms_copy. by erewrite run_bind by by apply deref_run. Qed.

Lemma atoms_getitem_mask_run a mask w v :
  heap w !! a = Some v → length mask = length v →
  atoms_getitem_mask a mask w
  = (inr (fresh (dom (heap w))),
     World (<[fresh (dom (heap w)) := mask_select v mask]> (heap w))
       (files w)).
Proof.
  intros Hv Hlen. unfold atoms_getitem_mask.
  erewrite run_bind by by apply deref_run.
  unfold np_getitem_mask. by rewrite decide_True by done.
Qed.

Lemma atoms_len_run a w v :
  heap w !! a = Some v → atoms_len a w = (inr (length v), w).
Proof. intros Hv. unfold atoms_len. by erewrite run_bind by by apply deref_run. Qed.

Lemma atoms_symbols_eq_run a s w v :
  heap w !! a = Some v → atoms_symbols_eq a s w = (inr (symbols_eq v s), w).
Proof.
  intros Hv. unfold atoms_symbols_eq.
  by erewrite run_bind by by apply deref_run.
Qed.

Lemma set_chemical_symbols_run a symbols w v :
  heap w !! a = Some v → length symbols = length v →
  set_chemical_symbols a symbols w
  = (inr (),
     World (<[a := zip_with (λ s x, mkAtom s (position x)) symbols v]> (heap w))
       (files w)).
Proof.
  intros Hv Hlen. unfold set_chemical_symbols.
  erewrite run_bind by by apply deref_run. by rewrite decide_True by done.
Qed.

Lemma atoms_iadd_run a other w v v' :
  heap w !! a = Some v → heap w !! other = Some v' →
  atoms_iadd a other w
  = (inr (), World (<[a := v ++ v']> (heap w)) (files w)).
Proof.
  intros Hv Hv'. unfold atoms_iadd.
  erewrite run_bind by by apply deref_run.
  by erewrite run_bind by by apply deref_run.
Qed.
End run.

Lemma fresh_loc_ne {num} (h : gmap loc (Atoms num)) a v :
  h !! a = Some v → fresh (dom h) ≠ a.
Proof.
  intros Hv Heq. apply (is_fresh (dom h)). rewrite Heq.
  apply elem_of_dom. by exists v.
Qed.

(** ** The virtual-atom builder on two oxygens and four hydrogens *)

(** C7. For [type_map = ["O"; "H"]], [sel_type = [0]], the system charges
    [[6; 1]], the model charge [[-8]] and a structure of two oxygen atoms
    followed by four hydrogen atoms, the builder hands to the serializer a new
    structure of 8 atoms (the input followed by one virtual atom [Og] at the
    place of each oxygen), the charges [[6;6;1;1;1;1;-8;-8]] in atom order,
    and the two bonds (1, 1, 1, 7) and (2, 1, 2, 8): bond ids from 1 on, bond
    type 1, each oxygen paired with its virtual atom by 1-based index. *)
Theorem C7_builder_on_two_waters
    (LammpsData_write : string → Atoms Z → list Z → list bond →
                        list string → res unit * string * Atoms Z)
    (fp atoms : loc) (w : world Z) (p1 p2 p3 p4 p5 p6 : vec Z) :
  heap w !! atoms
    = Some [mkAtom "O" p1; mkAtom "O" p2; mkAtom "H" p3; mkAtom "H" p4;
            mkAtom "H" p5; mkAtom "H" p6] →
  ∃ new_atoms w',
    dplr_lammps_build atoms ["O"; "H"] [0%Z] [6; 1]%Z [-8]%Z w
    = (inr (new_atoms, [6; 6; 1; 1; 1; 1; -8; -8]%Z,
            [(1, 1, 1, 7); (2, 1, 2, 8)], ["O"; "H"; "Og"]), w')
    ∧ heap w' !! new_atoms
      = Some [mkAtom "O" p1; mkAtom "O" p2; mkAtom "H" p3; mkAtom "H" p4;
              mkAtom "H" p5; mkAtom "H" p6; mkAtom "Og" p1; mkAtom "Og" p2]
    ∧ dump_dplr_lammps_data LammpsData_write fp atoms
        ["O"; "H"] [0%Z] [6; 1]%Z [-8]%Z w
      = lammps_write LammpsData_write fp new_atoms
          [6; 6; 1; 1; 1; 1; -8; -8]%Z [(1, 1, 1, 7); (2, 1, 2, 8)]
          ["O"; "H"; "Og"] w'.
Proof.
  intros Hv.
  set (water := [mkAtom "O" p1; mkAtom "O" p2; mkAtom "H" p3; mkAtom "H" p4;
                 mkAtom "H" p5; mkAtom "H" p6]) in *.
  set (virt := [mkAtom "Og" p1; mkAtom "Og" p2]).
  assert (Hbuild : ∃ new_atoms w',
    dplr_lammps_build atoms ["O"; "H"] [0%Z] [6; 1]%Z [-8]%Z w
    = (inr (new_atoms, [6; 6; 1; 1; 1; 1; -8; -8]%Z,
            [(1, 1, 1, 7); (2, 1, 2, 8)], ["O"; "H"; "Og"]), w')
    ∧ heap w' !! new_atoms = Some (water ++ virt)).
  { unfold dplr_lammps_build.
    change (get_unused_symbols ["O"; "H"] (Z.of_nat (length [0%Z])))
      with ["Og"].
    rewrite !bool_decide_eq_true_2 by done. cbn [negb].
    erewrite run_bind by (by apply atoms_copy_run).
    set (l1 := fresh (dom (heap w))).
    assert (Hl1 : l1 ≠ atoms) by (by eapply fresh_loc_ne).
    set (w1 := World _ _).
    assert (Hw1a : heap w1 !! atoms = Some water).
    { subst w1; simpl. by rewrite lookup_insert_ne. }
    assert (Hw1n : heap w1 !! l1 = Some water).
    { subst w1; simpl. by rewrite lookup_insert_eq. }
    clearbody w1 l1.
    assert (Hadd : ∃ w2,
      add_virtual_atoms atoms l1 ["O"; "H"] (zip [0%Z] ["Og"]) [] [] w1
      = (inr ([0; 1], [6; 7]), w2) ∧ heap w2 !! l1 = Some (water ++ virt)).
    { cbn [zip zip_with add_virtual_atoms].
      erewrite run_bind by reflexivity.
      erewrite run_bind by (by eapply atoms_symbols_eq_run).
      erewrite run_bind by (by eapply atoms_getitem_mask_run).
      set (l2 := fresh (dom (heap w1))).
      assert (Hl2a : l2 ≠ atoms) by (by eapply fresh_loc_ne).
      assert (Hl2n : l2 ≠ l1) by (by eapply fresh_loc_ne).
      clearbody l2.
      erewrite run_bind
        by (eapply atoms_len_run; simpl; apply lookup_insert_eq).
      erewrite run_bind
        by (eapply set_chemical_symbols_run;
            [simpl; apply lookup_insert_eq|done]).
      erewrite run_bind
        by (eapply atoms_symbols_eq_run; simpl;
            by rewrite !lookup_insert_ne by done).
      erewrite run_bind
        by (eapply atoms_len_run; simpl; apply lookup_insert_eq).
      erewrite run_bind
        by (eapply atoms_len_run; simpl;
            by rewrite !lookup_insert_ne by done).
      erewrite run_bind
        by (eapply atoms_iadd_run; simpl;
            [by rewrite !lookup_insert_ne by done|apply lookup_insert_eq]).
      eexists. split; [reflexivity|]. simpl. by rewrite lookup_insert_eq. }
    destruct Hadd as (w2 & Hadd & Hw2).
    erewrite run_bind by exact Hadd. cbv beta iota.
    erewrite run_bind by (by eapply atoms_len_run).
    assert (Hch : build_charges l1
                    (zip (["O"; "H"] ++ ["Og"]) ([6; 1] ++ [-8])%Z)
                    (replicate 8 0%Z) w2
                  = (inr [6; 6; 1; 1; 1; 1; -8; -8]%Z, w2)).
    { cbn [zip zip_with app build_charges].
      erewrite run_bind by (by eapply atoms_symbols_eq_run).
      erewrite run_bind by (by eapply atoms_symbols_eq_run).
      erewrite run_bind by (by eapply atoms_symbols_eq_run).
      reflexivity. }
    erewrite run_bind by exact Hch.
    exists l1, w2. split; [reflexivity|done]. }
  destruct Hbuild as (new_atoms & w' & Hbuild & Hnew).
  exists new_atoms, w'. split; [done|]. split; [done|].
  unfold dump_dplr_lammps_data. by erewrite run_bind by exact Hbuild.
Qed.

(** ** NumPy primitives *)

Lemma mapM_res_cons {A B} (f : A → res B) (x : A) (l : list A) :
  mapM f (x :: l)
  = match f x with
    | inl e => inl e
    | inr y => match mapM f l with
               | inl e => inl e
               | inr k => inr (y :: k)
               end
    end.
Proof. done. Qed.

Lemma mapM_res_inr {A B} (f : A → res B) (l : list A) (k : list B) :
  mapM f l = inr k ↔ Forall2 (λ x y, f x = inr y) l k.
Proof.
  revert k. induction l as [|x l IH]; intros k.
  - split.
    + intros [= <-]. constructor.
    + by inversion 1.
  - rewrite mapM_res_cons. split.
    + destruct (f x) as [e|y] eqn:Hx; [done|].
      destruct (mapM f l) as [e|k'] eqn:Hl; [done|].
      intros [= <-]. constructor; [done|]. by apply IH.
    + inversion 1 as [|? y ? k' Hx Hl]; subst.
      rewrite Hx. apply IH in Hl. by rewrite Hl.
Qed.

Lemma mapM_res_length {A B} (f : A → res B) (l : list A) (k : list B) :
  mapM f l = inr k → length k = length l.
Proof. intros Hm%mapM_res_inr. symmetry. by eapply Forall2_length. Qed.

Lemma mapM_res_total {A B} (f : A → res B) (l : list A) :
  Forall (λ x, ∃ y, f x = inr y) l → ∃ k, mapM f l = inr k.
Proof.
  induction 1 as [|x l [y Hy] _ [k Hk]].
  - by eexists.
  - rewrite mapM_res_cons, Hy, Hk. by eexists.
Qed.

Lemma py_getitem_nat {A} (a : list A) (i : nat) (x : A) :
  a !! i = Some x → py_getitem a (Z.of_nat i) = inr x.
Proof.
  intros Hx. unfold py_getitem.
  assert (i < length a) by by eapply lookup_lt_Some.
  rewrite (proj2 (Z.ltb_ge _ _)) by lia.
  rewrite (proj2 (Z.leb_le _ _)), (proj2 (Z.ltb_lt _ _)) by lia. simpl.
  by rewrite Nat2Z.id, Hx.
Qed.

Lemma py_getitem_inr {A} (a : list A) (i : Z) (x : A) :
  py_getitem a i = inr x → x ∈ a.
Proof.
  unfold py_getitem.
  destruct (_ && _); [|done].
  destruct (a !! _) eqn:Hl; [|done]. intros [= <-].
  by eapply list_elem_of_lookup_2.
Qed.

Lemma py_getitem_in_range {A} (a : list A) (i : Z) :
  (- Z.of_nat (length a) ≤ i < Z.of_nat (length a))%Z →
  ∃ x, py_getitem a i = inr x.
Proof.
  intros Hi. unfold py_getitem.
  destruct (i <? 0)%Z eqn:Hneg.
  - apply Z.ltb_lt in Hneg.
    rewrite (proj2 (Z.leb_le _ _)), (proj2 (Z.ltb_lt _ _)) by lia. simpl.
    destruct (lookup_lt_is_Some_2 a (Z.to_nat (i + Z.of_nat (length a))%Z))
      as [x ->];
      [lia|by eexists].
  - apply Z.ltb_ge in Hneg.
    rewrite (proj2 (Z.leb_le _ _)), (proj2 (Z.ltb_lt _ _)) by lia. simpl.
    destruct (lookup_lt_is_Some_2 a (Z.to_nat i)) as [x ->];
      [lia|by eexists].
Qed.

(** [np.where]: the positions of the [True] entries, in increasing order. *)
Lemma np_where_from_elem i mask j :
  j ∈ np_where_from i mask ↔ i ≤ j ∧ mask !! (j - i) = Some true.
Proof.
  revert i. induction mask as [|b mask IH]; intros i; simpl.
  - rewrite elem_of_nil, lookup_nil. split; [done|by intros [_ ?]].
  - assert (Hstep : j ∈ np_where_from (S i) mask
                    ↔ i < j ∧ (b :: mask) !! (j - i) = Some true).
    { rewrite IH. split; intros [Hle Hl]; (split; [lia|]).
      - replace (j - i) with (S (j - S i)) by lia. done.
      - replace (j - i) with (S (j - S i)) in Hl by lia. done. }
    destruct b.
    + rewrite elem_of_cons, Hstep. split.
      * intros [->|[? ?]]; [|split; [lia|done]].
        split; [lia|]. by rewrite Nat.sub_diag.
      * intros [Hle Hl]. destruct (decide (j = i)) as [->|]; [by left|].
        right. split; [lia|done].
    + rewrite Hstep. split.
      * intros [? ?]. split; [lia|done].
      * intros [Hle Hl]. destruct (decide (j = i)) as [->|].
        -- by rewrite Nat.sub_diag in Hl.
        -- split; [lia|done].
Qed.

Lemma np_where_elem mask j : j ∈ np_where mask ↔ mask !! j = Some true.
Proof.
  unfold np_where. rewrite np_where_from_elem, Nat.sub_0_r.
  split; [by intros [_ ?]|]. split; [lia|done].
Qed.

Lemma np_where_from_sorted i mask :
  StronglySorted lt (np_where_from i mask).
Proof.
  revert i. induction mask as [|b mask IH]; intros i; simpl.
  - constructor.
  - destruct b; [|apply IH]. constructor; [apply IH|].
    apply Forall_forall. intros j Hj%np_where_from_elem. lia.
Qed.

Lemma StronglySorted_lt_NoDup (l : list nat) : StronglySorted lt l → NoDup l.
Proof.
  induction 1 as [|x l _ IH Hx]; constructor; [|done].
  intros Hin. rewrite Forall_forall in Hx. specialize (Hx _ Hin). lia.
Qed.

Lemma np_where_NoDup mask : NoDup (np_where mask).
Proof. apply StronglySorted_lt_NoDup, np_where_from_sorted. Qed.

Lemma np_where_from_length i mask :
  length (np_where_from i mask) = length (filter (λ b, b = true) mask).
Proof.
  revert i. induction mask as [|b mask IH]; intros i; simpl; [done|].
  rewrite filter_cons. destruct b; case_decide; simplify_eq/=; auto.
Qed.

Lemma np_where_lt mask j : j ∈ np_where mask → j < length mask.
Proof. intros Hj%np_where_elem. by eapply lookup_lt_Some. Qed.

(** [a[mask]] holds the entries of [a] at the positions [np.where(mask)]. *)
Lemma mask_select_where_from {A} (a : list A) mask i :
  length mask = length a →
  Forall2 (λ x j, i ≤ j ∧ a !! (j - i) = Some x)
    (mask_select a mask) (np_where_from i mask).
Proof.
  revert mask i. induction a as [|x a IH]; intros [|b mask] i Hlen;
    simplify_eq/=; [constructor|].
  assert (Htl : Forall2 (λ y j, i ≤ j ∧ (x :: a) !! (j - i) = Some y)
                  (mask_select a mask) (np_where_from (S i) mask)).
  { eapply Forall2_impl; [by apply IH|]. simpl. intros y j [Hle Hl].
    split; [lia|]. replace (j - i) with (S (j - S i)) by lia. done. }
  destruct b; [|done]. constructor; [|done].
  split; [lia|]. by rewrite Nat.sub_diag.
Qed.

Lemma mask_select_where {A} (a : list A) mask :
  length mask = length a →
  Forall2 (λ x j, a !! j = Some x) (mask_select a mask) (np_where mask).
Proof.
  intros Hlen. eapply Forall2_impl; [by apply (mask_select_where_from a mask 0)|].
  simpl. intros x j [_ Hl]. by rewrite Nat.sub_0_r in Hl.
Qed.

Lemma np_getitem_mask_ok {A} (a : list A) mask :
  length mask = length a → np_getitem_mask a mask = inr (mask_select a mask).
Proof. intros Hlen. unfold np_getitem_mask. by rewrite decide_True. Qed.

Lemma np_getitem_mask_fail {A} (a : list A) mask :
  length mask ≠ length a → np_getitem_mask a mask = inl IndexError.
Proof. intros Hlen. unfold np_getitem_mask. by rewrite decide_False. Qed.

(** ** The loop of [get_atomic_dipole] *)

Section dipole_loop.
Context `{Num num} `{!Geometry num}.
Context (cutoff : num) (box : cellpar) (ref_coords e_coords : list (vec num))
  (spread : option (list num)).

Abbreviation mask_of := (within_cutoff box cutoff e_coords).
Abbreviation spread_rows refs :=
  (match spread with
   | Some s => map (λ r, mask_select s (mask_of r)) refs
   | None => []
   end).

Lemma within_cutoff_length r : length (mask_of r) = length e_coords.
Proof. unfold within_cutoff. by rewrite length_map. Qed.

(** What the loop does on the rows of the distance matrix of the points
    [refs], which are the reference points from index [ii] on: it returns
    exactly when every point has four centres within the cutoff, and then it
    has appended one entry per point to each of its lists; it raises the
    cardinality [ValueError] at the first point that has another number, and
    [IndexError] only for spread data of the wrong length. *)
Lemma dipole_loop_spec refs ii st :
  (∀ k r, refs !! k = Some r → ref_coords !! (ii + k) = Some r) →
  match dipole_loop cutoff box ref_coords e_coords spread ii
          (distance_array refs e_coords box) st with
  | inr st' =>
      Forall (λ r, count_true (mask_of r) = 4) refs
      ∧ (refs ≠ [] → spread_aligned spread e_coords)
      ∧ l_atomic_dipole st'
        = l_atomic_dipole st ++ map (dipole_of box cutoff e_coords) refs
      ∧ l_mlwc_ids st'
        = l_mlwc_ids st ++ map (centres_of box cutoff e_coords) refs
      ∧ l_extended_coords st'
        = l_extended_coords st
          ++ map (λ r, vadd (dipole_of box cutoff e_coords r) r) refs
      ∧ l_wannier_spread st' = l_wannier_spread st ++ spread_rows refs
  | inl e =>
      (∃ k r, refs !! k = Some r
              ∧ count_true (mask_of r) ≠ 4
              ∧ e = ValueError (cutoff_range (ii + k) (count_true (mask_of r)))
              ∧ ∀ k' r', k' < k → refs !! k' = Some r' →
                         count_true (mask_of r') = 4)
      ∨ (e = IndexError ∧ ¬ spread_aligned spread e_coords)
  end.
Proof.
  revert ii st. induction refs as [|r refs IH]; intros ii st Href.
  { simpl. rewrite !app_nil_r. destruct spread; by rewrite ?app_nil_r. }
  cbn [distance_array map dipole_loop].
  replace (map (λ d, nlt d cutoff) (map (distance box r) e_coords))
    with (mask_of r) by (unfold within_cutoff; by rewrite map_map).
  fold (count_true (mask_of r)).
  destruct (decide (count_true (mask_of r) = 4)) as [Hcn|Hcn].
  2:{ rewrite bool_decide_eq_false_2 by done. simpl. left.
      exists 0, r. rewrite Nat.add_0_r. repeat split; [done|]. lia. }
  rewrite bool_decide_eq_true_2 by done. cbn [negb].
  rewrite np_getitem_mask_ok by apply within_cutoff_length.
  cbn [mbind res_bind mret res_ret].
  rewrite (py_getitem_nat ref_coords ii r)
    by (rewrite <- (Nat.add_0_r ii); by apply Href).
  assert (Hrefs : ∀ k r', refs !! k = Some r' →
                          ref_coords !! (S ii + k) = Some r').
  { intros k r' Hk. replace (S ii + k) with (ii + S k) by lia.
    by apply Href. }
  assert (Hshift : ∀ e,
    ((∃ k r', refs !! k = Some r' ∧ count_true (mask_of r') ≠ 4
        ∧ e = ValueError (cutoff_range (S ii + k) (count_true (mask_of r')))
        ∧ ∀ k' r'', k' < k → refs !! k' = Some r'' →
                    count_true (mask_of r'') = 4)
     ∨ (e = IndexError ∧ ¬ spread_aligned spread e_coords)) →
    (∃ k r', (r :: refs) !! k = Some r' ∧ count_true (mask_of r') ≠ 4
        ∧ e = ValueError (cutoff_range (ii + k) (count_true (mask_of r')))
        ∧ ∀ k' r'', k' < k → (r :: refs) !! k' = Some r'' →
                    count_true (mask_of r'') = 4)
    ∨ (e = IndexError ∧ ¬ spread_aligned spread e_coords)).
  { intros e [(k & r' & Hk & Hne & -> & Hfirst)|?]; [left|by right].
    exists (S k), r'. split; [done|]. split; [done|].
    split; [by replace (ii + S k) with (S ii + k) by lia|].
    intros [|k'] r'' Hlt Hk'; simplify_eq/=; [done|].
    eapply Hfirst; [|done]. lia. }
  destruct spread as [s|] eqn:Hspread.
  - destruct (decide (length (mask_of r) = length s)) as [Hlen|Hlen].
    2:{ rewrite np_getitem_mask_fail by done. simpl. right.
        split; [done|]. rewrite within_cutoff_length in Hlen. simpl.
        congruence. }
    rewrite np_getitem_mask_ok by done.
    cbn [mbind res_bind mret res_ret].
    specialize (IH (S ii)
      (mkLoop (l_atomic_dipole st ++ [dipole_of box cutoff e_coords r])
         (l_wannier_spread st ++ [mask_select s (mask_of r)])
         (l_mlwc_ids st ++ [centres_of box cutoff e_coords r])
         (l_extended_coords st
            ++ [vadd (dipole_of box cutoff e_coords r) r])) Hrefs).
    unfold dipole_of, centres_of in IH |- *.
    destruct (dipole_loop _ _ _ _ _ _ _ _) as [e|st']; [by apply Hshift|].
    destruct IH as (Hall & _ & Hd & Hm & He & Hs). simpl in *.
    rewrite Hd, Hm, He, Hs, <- !app_assoc. simpl.
    split; [by constructor|]. split; [|done].
    intros _. simpl. by rewrite <- Hlen, within_cutoff_length.
  - cbn [mbind res_bind mret res_ret].
    specialize (IH (S ii)
      (mkLoop (l_atomic_dipole st ++ [dipole_of box cutoff e_coords r])
         (l_wannier_spread st)
         (l_mlwc_ids st ++ [centres_of box cutoff e_coords r])
         (l_extended_coords st
            ++ [vadd (dipole_of box cutoff e_coords r) r])) Hrefs).
    unfold dipole_of, centres_of in IH |- *.
    destruct (dipole_loop _ _ _ _ _ _ _ _) as [e|st']; [by apply Hshift|].
    destruct IH as (Hall & _ & Hd & Hm & He & Hs). simpl in *.
    rewrite Hd, Hm, He, Hs, <- !app_assoc. simpl.
    split; [by constructor|]. done.
Qed.
End dipole_loop.

(** ** Counting distinct indices *)

Lemma remove_dups_length_le (l : list nat) :
  length (remove_dups l) ≤ length l.
Proof.
  induction l as [|x l IH]; simpl; [done|].
  destruct (decide_rel _ _ _); simpl; lia.
Qed.

Lemma count_distinct_le (l : list nat) : count_distinct l ≤ length l.
Proof. apply remove_dups_length_le. Qed.

Lemma count_distinct_NoDup (l : list nat) :
  count_distinct l = length l ↔ NoDup l.
Proof.
  unfold count_distinct. induction l as [|x l IH]; simpl.
  { split; [constructor|done]. }
  pose proof (remove_dups_length_le l) as Hle.
  destruct (decide_rel _ _ _) as [Hin|Hin]; simpl.
  - split; [lia|]. intros [Hx _]%NoDup_cons.
    by destruct Hx.
  - split.
    + intros Hlen. constructor; [done|]. apply IH. lia.
    + intros [_ Hnd]%NoDup_cons. apply IH in Hnd. lia.
Qed.

Lemma concat_length_const {A} (ls : list (list A)) n :
  Forall (λ l, length l = n) ls → length (concat ls) = length ls * n.
Proof.
  induction 1 as [|l ls Hl _ IH]; simpl; [done|].
  rewrite length_app, IH, Hl. lia.
Qed.

Lemma elem_of_concat_lookup {A} (ls : list (list A)) j l x :
  ls !! j = Some l → x ∈ l → x ∈ concat ls.
Proof.
  revert j. induction ls as [|l' ls IH]; intros [|j] Hj Hx; simplify_eq/=.
  - apply elem_of_app. by left.
  - apply elem_of_app. right. by eapply IH.
Qed.

Lemma elem_of_concat_inv {A} (ls : list (list A)) x :
  x ∈ concat ls → ∃ j l, ls !! j = Some l ∧ x ∈ l.
Proof.
  induction ls as [|l' ls IH]; simpl; [by intros ?%elem_of_nil|].
  intros [Hx|Hx]%elem_of_app.
  - by exists 0, l'.
  - destruct (IH Hx) as (j & l & Hj & Hl). by exists (S j), l.
Qed.

(** A list of duplicate-free lists concatenates to a duplicate-free list
    exactly when no element occurs in two of them. *)
Lemma concat_shared_not_NoDup {A} (ls : list (list A)) i j li lj x :
  i ≠ j → ls !! i = Some li → ls !! j = Some lj → x ∈ li → x ∈ lj →
  ¬ NoDup (concat ls).
Proof.
  revert i j. induction ls as [|l ls IH]; intros i j Hne Hi Hj Hxi Hxj;
    [done|]. simpl. intros (Hl & Hdisj & Hrest)%NoDup_app.
  destruct i as [|i], j as [|j]; simplify_eq/=.
  - eapply Hdisj; [done|]. by eapply elem_of_concat_lookup.
  - eapply Hdisj; [done|]. by eapply elem_of_concat_lookup.
  - eapply (IH i j); eauto.
Qed.

Lemma concat_disjoint_NoDup {A} (ls : list (list A)) :
  Forall NoDup ls →
  (∀ i j li lj x, i ≠ j → ls !! i = Some li → ls !! j = Some lj →
                  x ∈ li → x ∉ lj) →
  NoDup (concat ls).
Proof.
  induction 1 as [|l ls Hl _ IH]; intros Hdisj; simpl; [constructor|].
  apply NoDup_app. split; [done|]. split.
  - intros x Hx (j & lj & Hj & Hxj)%elem_of_concat_inv.
    by eapply (Hdisj 0 (S j) l lj x).
  - apply IH. intros i j li lj x Hne Hi Hj.
    apply (Hdisj (S i) (S j)); [lia|done..].
Qed.

(** ** [get_atomic_dipole] *)

Section get_atomic_dipole_spec.
Context `{Num num} `{!Geometry num} `{!FileSystem num}.
Context (dp_sys : LabeledSystem num) (sel_ids : list nat)
  (wannier_atoms : Atoms num) (cutoff : num) (file : option string).
Context (c : cell num) (spread : option (list num))
  (ref_coords : list (vec num)).

Abbreviation box := (cell_to_cellpar c).
Abbreviation e_coords := (position <$> wannier_atoms).
Abbreviation cn r := (count_true (within_cutoff box cutoff e_coords r)).
Abbreviation ids :=
  (concat (map (centres_of box cutoff e_coords) ref_coords)).

Hypothesis Hcell : cells dp_sys = [c].
Hypothesis Hspread : load_full_wannier_spread file = inr spread.
Hypothesis Href : np_take_nat (concat (coords dp_sys)) sel_ids = inr ref_coords.

Lemma ref_coords_length : length ref_coords = length sel_ids.
Proof. by eapply mapM_res_length. Qed.

Lemma ref_coords_lookup ii i :
  sel_ids !! ii = Some i → ref_coords !! ii = concat (coords dp_sys) !! i.
Proof.
  intros Hi. apply mapM_res_inr in Href.
  destruct (Forall2_lookup_l _ _ _ _ _ Href Hi) as (r & Hr & Hf).
  rewrite Hr. unfold mret, res_ret, raise in Hf.
  destruct (concat (coords dp_sys) !! i); congruence.
Qed.

Lemma centres_length r :
  length (centres_of box cutoff e_coords r) = cn r.
Proof. unfold centres_of, np_where, count_true. apply np_where_from_length. Qed.

Lemma ids_length :
  Forall (λ r, cn r = 4) ref_coords → length ids = length sel_ids * 4.
Proof.
  intros Hall. rewrite (concat_length_const _ 4).
  - by rewrite length_map, ref_coords_length.
  - apply Forall_map. eapply Forall_impl; [exact Hall|]. simpl.
    intros r Hr. by rewrite centres_length.
Qed.

(** The outcome of [get_atomic_dipole] once the cell, the spread file and
    the selected coordinates have been read: a result exactly when every
    selected atom has four centres within the cutoff and no centre is matched
    twice; otherwise one of three exceptions, each with its cause. *)
Lemma get_atomic_dipole_spec :
  match get_atomic_dipole dp_sys sel_ids wannier_atoms cutoff file with
  | inr (d, ext, sp) =>
      Forall (λ r, cn r = 4) ref_coords
      ∧ (ref_coords ≠ [] → spread_aligned spread e_coords)
      ∧ NoDup ids
      ∧ d = map (dipole_of box cutoff e_coords) ref_coords
      ∧ ext = concat (coords dp_sys)
              ++ map (λ r, vadd (dipole_of box cutoff e_coords r) r) ref_coords
      ∧ sp = match spread with
             | Some s =>
                 map (λ r, mask_select s (within_cutoff box cutoff e_coords r))
                   ref_coords
             | None => []
             end
  | inl e =>
      (∃ k r, ref_coords !! k = Some r ∧ cn r ≠ 4
              ∧ e = ValueError (cutoff_range k (cn r))
              ∧ ∀ k' r', k' < k → ref_coords !! k' = Some r' → cn r' = 4)
      ∨ (e = IndexError ∧ ¬ spread_aligned spread e_coords)
      ∨ (e = AssertionError ∧ Forall (λ r, cn r = 4) ref_coords
         ∧ ¬ NoDup ids ∧ count_distinct ids < length sel_ids * 4)
  end.
Proof.
  unfold get_atomic_dipole. rewrite Hcell. cbn [reshape_3_3].
  cbn [fmap res_fmap mret res_ret mbind res_bind].
  rewrite Hspread, Href. cbn [mbind res_bind].
  pose proof (dipole_loop_spec cutoff box ref_coords e_coords spread
                ref_coords 0 (mkLoop [] [] [] (concat (coords dp_sys)))
                (λ k r Hk, Hk)) as Hloop.
  destruct (dipole_loop _ _ _ _ _ _ _ _) as [e|st'].
  { cbv beta iota in Hloop.
    destruct Hloop as [Hcard|Hidx]; [left|right; by left]. done. }
  cbv beta iota in Hloop.
  destruct Hloop as (Hall & Hal & Hd & Hm & He & Hs). simpl in Hd, Hm, He, Hs.
  cbn [mbind res_bind].
  rewrite Hm. pose proof (ids_length Hall) as Hlen.
  destruct (decide (count_distinct ids = length sel_ids * 4)) as [Hcnt|Hcnt].
  - rewrite (bool_decide_eq_true_2 _ Hcnt). simpl.
    rewrite bool_decide_eq_true_2
      by (by rewrite Hd, length_map, ref_coords_length). simpl.
    split; [done|]. split; [done|]. split.
    { apply count_distinct_NoDup. by rewrite Hlen. }
    by rewrite Hd, He, Hs.
  - rewrite (bool_decide_eq_false_2 _ Hcnt). simpl. right. right.
    split; [done|]. split; [done|]. split.
    + intros Hnd%count_distinct_NoDup. by rewrite Hlen in Hnd.
    + pose proof (count_distinct_le ids). lia.
Qed.
End get_atomic_dipole_spec.

Section get_atomic_dipole_claims.
Context `{Num num} `{!Geometry num} `{!FileSystem num}.
Implicit Types (dp_sys : LabeledSystem num) (wannier_atoms : Atoms num).

(** A call that returns has read one cell, the spread data and the
    coordinates of the selected atoms. *)
Lemma get_atomic_dipole_inr_pre dp_sys sel_ids wannier_atoms cutoff file res :
  get_atomic_dipole dp_sys sel_ids wannier_atoms cutoff file = inr res →
  ∃ c spread ref_coords,
    cells dp_sys = [c]
    ∧ load_full_wannier_spread file = inr spread
    ∧ np_take_nat (concat (coords dp_sys)) sel_ids = inr ref_coords.
Proof.
  unfold get_atomic_dipole.
  destruct (cells dp_sys) as [|c [|c' cs]]; [done| |done].
  cbn [reshape_3_3 fmap res_fmap mret res_ret mbind res_bind].
  destruct (load_full_wannier_spread file) as [e|spread]; [done|].
  cbn [mbind res_bind].
  destruct (np_take_nat _ _) as [e|ref_coords]; [done|].
  intros _. by exists c, spread, ref_coords.
Qed.

(** A mask with four [True] entries selects four entries, in increasing
    order of their index. *)
Lemma four_selected {A} (a : list A) (mask : list bool) :
  length mask = length a → count_true mask = 4 →
  ∃ j1 j2 j3 j4 x1 x2 x3 x4,
    np_where mask = [j1; j2; j3; j4]
    ∧ mask_select a mask = [x1; x2; x3; x4]
    ∧ j1 < j2 ∧ j2 < j3 ∧ j3 < j4
    ∧ a !! j1 = Some x1 ∧ a !! j2 = Some x2
    ∧ a !! j3 = Some x3 ∧ a !! j4 = Some x4.
Proof.
  intros Hlen Hcn.
  pose proof (mask_select_where a mask Hlen) as Hsel.
  pose proof (np_where_from_sorted 0 mask) as Hsort.
  pose proof (np_where_from_length 0 mask) as Hw.
  fold (np_where mask) in Hsort, Hw. fold (count_true mask) in Hw.
  rewrite Hcn in Hw.
  destruct (np_where mask) as [|j1 [|j2 [|j3 [|j4 [|j5 js]]]]];
    simplify_eq/=.
  apply Forall2_cons_inv_r in Hsel as (x1 & l1 & H1 & Hsel & ->).
  apply Forall2_cons_inv_r in Hsel as (x2 & l2 & H2 & Hsel & ->).
  apply Forall2_cons_inv_r in Hsel as (x3 & l3 & H3 & Hsel & ->).
  apply Forall2_cons_inv_r in Hsel as (x4 & l4 & H4 & Hsel & ->).
  apply Forall2_nil_inv_r in Hsel as ->.
  exists j1, j2, j3, j4, x1, x2, x3, x4.
  apply StronglySorted_inv in Hsort as [Hsort H12].
  apply StronglySorted_inv in Hsort as [Hsort H23].
  apply StronglySorted_inv in Hsort as [Hsort H34].
  apply Forall_cons in H12 as [H12 _].
  apply Forall_cons in H23 as [H23 _].
  apply Forall_cons in H34 as [H34 _].
  done.
Qed.

(** C1. When [get_atomic_dipole] returns, it returns one dipole per
    selected atom, and the dipole of the selected atom at position [r] is the
    arithmetic mean of four vectors: the displacements [e - r] to the four
    Wannier centres [e] whose periodic distance to [r] is below the cutoff
    (and to no other centre), each reduced to its minimum image. *)
Theorem C1_dipole_is_mean_of_four dp_sys sel_ids wannier_atoms cutoff file
    atomic_dipole extended_coords wannier_spread :
  get_atomic_dipole dp_sys sel_ids wannier_atoms cutoff file
    = inr (atomic_dipole, extended_coords, wannier_spread) →
  ∃ c, cells dp_sys = [c]
  ∧ length atomic_dipole = length sel_ids
  ∧ ∀ ii i, sel_ids !! ii = Some i →
      ∃ r j1 j2 j3 j4 e1 e2 e3 e4,
        let box := cell_to_cellpar c in
        let d e := minimize_vector box (vsub e r) in
        concat (coords dp_sys) !! i = Some r
        ∧ j1 < j2 ∧ j2 < j3 ∧ j3 < j4
        ∧ (position <$> wannier_atoms) !! j1 = Some e1
        ∧ (position <$> wannier_atoms) !! j2 = Some e2
        ∧ (position <$> wannier_atoms) !! j3 = Some e3
        ∧ (position <$> wannier_atoms) !! j4 = Some e4
        ∧ (∀ j e, (position <$> wannier_atoms) !! j = Some e →
                  nlt (distance box r e) cutoff = true
                  ↔ j ∈ [j1; j2; j3; j4])
        ∧ atomic_dipole !! ii
          = Some (vdiv (vadd (vadd (vadd (d e1) (d e2)) (d e3)) (d e4)) 4).
Proof.
  intros Hget.
  destruct (get_atomic_dipole_inr_pre _ _ _ _ _ _ Hget)
    as (c & spread & ref_coords & Hcell & Hspread & Href).
  pose proof (get_atomic_dipole_spec dp_sys sel_ids wannier_atoms cutoff file
                c spread ref_coords Hcell Hspread Href) as Hspec.
  rewrite Hget in Hspec. destruct Hspec as (Hall & _ & _ & -> & _ & _).
  exists c. split; [done|]. split.
  { rewrite length_map. by eapply ref_coords_length. }
  intros ii i Hi.
  pose proof (ref_coords_lookup dp_sys sel_ids ref_coords Href ii i Hi) as Hr.
  destruct (lookup_lt_is_Some_2 ref_coords ii) as [r Hii].
  { rewrite (ref_coords_length dp_sys sel_ids ref_coords Href).
    by eapply lookup_lt_Some. }
  rewrite Hii in Hr.
  pose proof (proj1 (Forall_lookup _ _) Hall ii r Hii) as Hcn.
  simpl in Hcn.
  set (box := cell_to_cellpar c) in *.
  set (e_coords := position <$> wannier_atoms) in *.
  destruct (four_selected e_coords (within_cutoff box cutoff e_coords r))
    as (j1 & j2 & j3 & j4 & e1 & e2 & e3 & e4 & Hw & Hsel & H12 & H23 & H34
        & He1 & He2 & He3 & He4); [by rewrite within_cutoff_length|done|].
  exists r, j1, j2, j3, j4, e1, e2, e3, e4. simpl.
  split; [done|]. do 7 (split; [done|]). split.
  - intros j e Hj. rewrite <- Hw, np_where_elem.
    unfold within_cutoff. rewrite list_lookup_fmap, Hj. simpl.
    split; [by intros ->|by intros [= ->]].
  - rewrite list_lookup_fmap, Hii. simpl. f_equal.
    unfold dipole_of. by rewrite Hsel.
Qed.
End get_atomic_dipole_claims.

Section get_atomic_dipole_errors.
Context `{Num num} `{!Geometry num} `{!FileSystem num}.
Context (dp_sys : LabeledSystem num) (sel_ids : list nat)
  (wannier_atoms : Atoms num) (cutoff : num) (file : option string).
Context (c : cell num) (spread : option (list num))
  (ref_coords : list (vec num)).

Abbreviation centres r :=
  (centres_of (cell_to_cellpar c) cutoff (position <$> wannier_atoms) r).
Abbreviation count r :=
  (count_true
     (within_cutoff (cell_to_cellpar c) cutoff (position <$> wannier_atoms) r)).


(** C3. Let every selected atom have exactly four centres within the
    cutoff (and the spread data fit).  Then the check after the loop decides:
    if the matched indices of all atoms together hold fewer than
    [4 * len(sel_ids)] distinct values, which is the case when two atoms
    share a centre, the assertion fails ([AssertionError]); otherwise, which
    is the case when no centre is shared, [get_atomic_dipole] returns. *)
Theorem C3_duplicate_assignment_check :
  cells dp_sys = [c] →
  load_full_wannier_spread file = inr spread →
  np_take_nat (concat (coords dp_sys)) sel_ids = inr ref_coords →
  spread_aligned spread (position <$> wannier_atoms) →
  Forall (λ r, count r = 4) ref_coords →
  let ids := concat (map (λ r, centres r) ref_coords) in
  let shared := ∃ ii jj ri rj j,
    ii ≠ jj ∧ ref_coords !! ii = Some ri ∧ ref_coords !! jj = Some rj
    ∧ j ∈ centres ri ∧ j ∈ centres rj in
  let disjoint := ∀ ii jj ri rj j,
    ii ≠ jj → ref_coords !! ii = Some ri → ref_coords !! jj = Some rj
    → j ∈ centres ri → j ∉ centres rj in
  (shared → count_distinct ids < 4 * length sel_ids)
  ∧ (disjoint → count_distinct ids = 4 * length sel_ids)
  ∧ (count_distinct ids < 4 * length sel_ids →
     get_atomic_dipole dp_sys sel_ids wannier_atoms cutoff file
     = inl AssertionError)
  ∧ (¬ count_distinct ids < 4 * length sel_ids →
     ∃ res, get_atomic_dipole dp_sys sel_ids wannier_atoms cutoff file
            = inr res).
Proof.
  intros Hcell Hspread Href Hal Hall ids shared disjoint.
  assert (Hlen : length ids = length sel_ids * 4)
    by exact (ids_length dp_sys sel_ids wannier_atoms cutoff c ref_coords
                Href Hall).
  pose proof (count_distinct_le ids) as Hle.
  pose proof (count_distinct_NoDup ids) as Hnd.
  pose proof (get_atomic_dipole_spec dp_sys sel_ids wannier_atoms cutoff file
                c spread ref_coords Hcell Hspread Href) as Hspec.
  change (concat (map (centres_of (cell_to_cellpar c) cutoff
                         (position <$> wannier_atoms)) ref_coords))
    with ids in Hspec.
  assert (Hshared : shared → ¬ NoDup ids).
  { intros (ii & jj & ri & rj & j & Hne & Hi & Hj & Hji & Hjj).
    eapply (concat_shared_not_NoDup _ ii jj); [done| | |exact Hji|exact Hjj];
      by rewrite list_lookup_fmap, ?Hi, ?Hj. }
  assert (Hdisjoint : disjoint → NoDup ids).
  { intros Hdisj. apply concat_disjoint_NoDup.
    - apply Forall_map, Forall_forall. intros r _. apply np_where_NoDup.
    - intros ii jj li lj j Hne Hi Hj.
      rewrite list_lookup_fmap in Hi, Hj.
      destruct (ref_coords !! ii) as [ri|] eqn:Hri; simplify_eq/=.
      destruct (ref_coords !! jj) as [rj|] eqn:Hrj; simplify_eq/=.
      by eapply Hdisj. }
  clearbody ids shared disjoint.
  split; [|split; [|split]].
  - intros Hno%Hshared.
    destruct (decide (count_distinct ids = length ids)) as [Heq|Hneq].
    + by apply Hnd in Heq.
    + lia.
  - intros Hyes%Hdisjoint. apply Hnd in Hyes. lia.
  - intros Hlt.
    destruct (get_atomic_dipole _ _ _ _ _) as [e|[[d ext] sp]].
    + destruct Hspec as [(k & r' & Hk & Hne & _)|[[_ Hna]|[-> _]]];
        [|done..].
      by pose proof (proj1 (Forall_lookup _ _) Hall k r' Hk).
    + destruct Hspec as (_ & _ & Hno & _). apply Hnd in Hno. lia.
  - intros Hge.
    destruct (get_atomic_dipole _ _ _ _ _) as [e|res]; [|by exists res].
    destruct Hspec as [(k & r' & Hk & Hne & _)|[[_ Hna]|(_ & _ & _ & Hlt)]].
    + by pose proof (proj1 (Forall_lookup _ _) Hall k r' Hk).
    + done.
    + lia.
Qed.
End get_atomic_dipole_errors.

(** ** Scattering rows into a zero array *)

Lemma foldl_insert_length {A} (a : list A) (ps : list (nat * A)) :
  length (foldl (λ acc '(i, row), <[i := row]> acc) a ps) = length a.
Proof.
  revert a. induction ps as [|[i row] ps IH]; intros a; simpl; [done|].
  by rewrite IH, length_insert.
Qed.

Lemma foldl_insert_other {A} (a : list A) (ps : list (nat * A)) i :
  i ∉ ps.*1 →
  foldl (λ acc '(i, row), <[i := row]> acc) a ps !! i = a !! i.
Proof.
  revert a. induction ps as [|[j row] ps IH]; intros a Hi; simpl; [done|].
  apply not_elem_of_cons in Hi as [Hne Hi]. simpl in Hne.
  rewrite IH by done. by rewrite list_lookup_insert_ne.
Qed.

Lemma foldl_insert_at {A} (a : list A) (ps : list (nat * A)) k i row :
  NoDup ps.*1 → Forall (λ i, i < length a) ps.*1 →
  ps !! k = Some (i, row) →
  foldl (λ acc '(i, row), <[i := row]> acc) a ps !! i = Some row.
Proof.
  revert a k. induction ps as [|[j row'] ps IH]; intros a k Hnd Hlt Hk;
    [done|]. simpl in *.
  apply NoDup_cons in Hnd as [Hj Hnd]. apply Forall_cons in Hlt as [Hjlt Hlt].
  destruct k as [|k]; simplify_eq/=.
  - rewrite foldl_insert_other by done. by apply list_lookup_insert_eq.
  - eapply IH; [done| |done]. by rewrite length_insert.
Qed.

(** [a[ids] = rows] with distinct indices in range and one row per index:
    the result has the length of [a], keeps [a] outside [ids] and holds row
    [k] at index [ids[k]]. *)
Lemma np_setitem_rows_spec {A} (a : list A) (ids : list nat) (rows : list A) :
  Forall (λ i, i < length a) ids → length rows = length ids → NoDup ids →
  ∃ a', np_setitem_rows a ids rows = inr a'
        ∧ length a' = length a
        ∧ (∀ i, i ∉ ids → a' !! i = a !! i)
        ∧ (∀ k i, ids !! k = Some i → a' !! i = rows !! k).
Proof.
  intros Hlt Hlen Hnd. unfold np_setitem_rows.
  rewrite (bool_decide_eq_true_2 _ Hlt), (bool_decide_eq_true_2 _ Hlen).
  simpl. eexists. split; [done|].
  assert (Hfst : (zip ids rows).*1 = ids) by (apply fst_zip; lia).
  split; [apply foldl_insert_length|]. split.
  - intros i Hi. apply foldl_insert_other. by rewrite Hfst.
  - intros k i Hk.
    destruct (lookup_lt_is_Some_2 rows k) as [row Hrow].
    { rewrite Hlen. by eapply lookup_lt_Some. }
    rewrite Hrow. eapply (foldl_insert_at _ _ k); rewrite ?Hfst; [done..|].
    by apply lookup_zip_with_Some; exists i, row.
Qed.

Lemma mask_select_length {A} (a : list A) (mask : list bool) :
  length mask = length a → length (mask_select a mask) = count_true mask.
Proof.
  intros Hlen. pose proof (mask_select_where a mask Hlen) as Hsel.
  apply Forall2_length in Hsel. rewrite Hsel.
  unfold np_where, count_true. apply np_where_from_length.
Qed.

(** ** [get_sel_ids] *)

Lemma np_isin_length xs ys : length (np_isin xs ys) = length xs.
Proof. unfold np_isin. by rewrite length_map. Qed.

(** The selected indices are distinct atom indices. *)
Lemma get_sel_ids_spec {num} (dp_sys : LabeledSystem num) type_map sel_type
    sel_ids :
  get_sel_ids dp_sys type_map sel_type = inr sel_ids →
  NoDup sel_ids ∧ Forall (λ i, i < get_natoms dp_sys) sel_ids.
Proof.
  unfold get_sel_ids, get_natoms.
  destruct (np_take (atom_names dp_sys) (atom_types dp_sys))
    as [e|symbols] eqn:Hsym; [done|].
  cbn [mbind res_bind].
  destruct (np_take type_map sel_type) as [e|sel_symbols]; [done|].
  cbn [mbind res_bind mret res_ret]. intros [= <-].
  split; [apply np_where_NoDup|].
  apply Forall_forall. intros i Hi%np_where_lt.
  rewrite np_isin_length in Hi.
  by rewrite <- (mapM_res_length _ _ _ Hsym).
Qed.

Lemma np_setitem_frames_one {A} (a : list A) ids rows :
  np_setitem_frames [a] ids rows
  = match np_setitem_rows a ids rows with
    | inl e => inl e
    | inr a' => inr [a']
    end.
Proof.
  unfold np_setitem_frames. rewrite mapM_res_cons.
  by destruct (np_setitem_rows a ids rows).
Qed.

(** ** [set_dplr_ext_from_cp2k_output] *)

Section set_dplr_ext_spec.
Context `{Num num} `{!Geometry num} `{!FileSystem num}.
Context (dp_sys : LabeledSystem num) (wannier_file : string)
  (type_map : list string) (sel_type : list Z) (cutoff : num)
  (file : option string).
Context (wa_all : Atoms num) (c : cell num) (frame0 : list (vec num))
  (spread : option (list num)) (sel_ids : list nat).

Abbreviation wannier_X := (mask_select wa_all (symbols_eq wa_all "X")).
Abbreviation centres_X r :=
  (centres_of (cell_to_cellpar c) cutoff (position <$> wannier_X) r).
Abbreviation count_X r :=
  (count_true
     (within_cutoff (cell_to_cellpar c) cutoff (position <$> wannier_X) r)).

Hypothesis Hread : ase_io_read wannier_file = inr wa_all.
Hypothesis Hcell : cells dp_sys = [c].
Hypothesis Hcoords : coords dp_sys = [frame0].
Hypothesis Hnatoms : length frame0 = get_natoms dp_sys.
Hypothesis Hsel : get_sel_ids dp_sys type_map sel_type = inr sel_ids.
Hypothesis Hspread : load_full_wannier_spread file = inr spread.
Hypothesis Haligned : spread_aligned spread (position <$> wannier_X).
Hypothesis Hfour : ∀ i r,
  i ∈ sel_ids → frame0 !! i = Some r → count_X r = 4.
Hypothesis Hdisjoint : ∀ i i' r r' j,
  i ∈ sel_ids → i' ∈ sel_ids → i ≠ i' →
  frame0 !! i = Some r → frame0 !! i' = Some r' →
  j ∈ centres_X r → j ∉ centres_X r'.

Lemma valid_ref_coords :
  ∃ ref_coords,
    np_take_nat (concat (coords dp_sys)) sel_ids = inr ref_coords
    ∧ ∀ k r, ref_coords !! k = Some r →
             ∃ i, sel_ids !! k = Some i ∧ frame0 !! i = Some r.
Proof.
  destruct (get_sel_ids_spec _ _ _ _ Hsel) as [_ Hlt].
  rewrite Hcoords. simpl. rewrite app_nil_r.
  destruct (mapM_res_total
              (λ i, match frame0 !! i with
                    | Some x => mret x
                    | None => raise IndexError
                    end) sel_ids) as [ref_coords Href].
  { eapply Forall_impl; [exact Hlt|]. simpl. intros i Hi.
    destruct (lookup_lt_is_Some_2 frame0 i) as [x ->]; [lia|by eexists]. }
  exists ref_coords. split; [exact Href|].
  intros k r Hk. apply mapM_res_inr in Href.
  destruct (Forall2_lookup_r _ _ _ _ _ Href Hk) as (i & Hi & Hf).
  exists i. split; [done|].
  unfold mret, res_ret, raise in Hf. destruct (frame0 !! i); congruence.
Qed.

Lemma valid_get_atomic_dipole :
  ∃ ref_coords,
    np_take_nat (concat (coords dp_sys)) sel_ids = inr ref_coords
    ∧ get_atomic_dipole dp_sys sel_ids wannier_X cutoff file
      = inr (map (dipole_of (cell_to_cellpar c) cutoff (position <$> wannier_X))
               ref_coords,
             concat (coords dp_sys)
             ++ map (λ r, vadd (dipole_of (cell_to_cellpar c) cutoff
                                  (position <$> wannier_X) r) r) ref_coords,
             match spread with
             | Some s =>
                 map (λ r, mask_select s
                             (within_cutoff (cell_to_cellpar c) cutoff
                                (position <$> wannier_X) r)) ref_coords
             | None => []
             end)
    ∧ Forall (λ r, count_X r = 4) ref_coords.
Proof.
  destruct valid_ref_coords as (ref_coords & Href & Hback).
  destruct (get_sel_ids_spec _ _ _ _ Hsel) as [Hnd _].
  exists ref_coords. split; [done|].
  assert (Hall : Forall (λ r, count_X r = 4) ref_coords).
  { apply Forall_lookup. intros k r Hk.
    destruct (Hback k r Hk) as (i & Hi & Hr).
    eapply Hfour; [|done]. by eapply list_elem_of_lookup_2. }
  split; [|done].
  pose proof (get_atomic_dipole_spec dp_sys sel_ids wannier_X cutoff file
                c spread ref_coords Hcell Hspread Href) as Hspec.
  destruct (get_atomic_dipole _ _ _ _ _) as [e|[[d ext] sp]].
  - exfalso.
    destruct Hspec as [(k & r & Hk & Hne & _)|[[_ Hna]|(_ & _ & Hno & _)]].
    + by pose proof (proj1 (Forall_lookup _ _) Hall k r Hk).
    + done.
    + apply Hno. apply concat_disjoint_NoDup.
      * apply Forall_map, Forall_forall. intros r _. apply np_where_NoDup.
      * intros ii jj li lj j Hne Hi Hj.
        rewrite list_lookup_fmap in Hi, Hj.
        destruct (ref_coords !! ii) as [ri|] eqn:Hri; simplify_eq/=.
        destruct (ref_coords !! jj) as [rj|] eqn:Hrj; simplify_eq/=.
        destruct (Hback ii ri Hri) as (i & Hi & Hfi).
        destruct (Hback jj rj Hrj) as (i' & Hi' & Hfi').
        eapply (Hdisjoint i i'); [by eapply list_elem_of_lookup_2..| |done|done].
        intros <-. apply Hne. by eapply NoDup_lookup.
  - destruct Hspec as (_ & _ & _ & -> & -> & ->). done.
Qed.
End set_dplr_ext_spec.

(** C5. On a valid input (one frame, the Wannier file and the spread data
    read, every selected atom with exactly four centres within the cutoff and
    no centre shared by two atoms) [get_atomic_dipole] returns one 3-vector
    per selected atom, and [set_dplr_ext_from_cp2k_output] returns the system
    with a dipole array of one frame and [natoms] rows that is zero at every
    atom that is not selected and holds the k-th computed dipole at the k-th
    selected index.  The spread array, which is attached when spread data
    was collected, has [natoms] rows of four entries with the same
    property. *)
Theorem C5_full_arrays_zero_outside_selection
    `{Num num} `{!Geometry num} `{!FileSystem num}
    (dp_sys : LabeledSystem num) (wannier_file : string)
    (type_map : list string) (sel_type : list Z) (cutoff : num)
    (file : option string)
    (wa_all : Atoms num) (c : cell num) (frame0 : list (vec num))
    (spread : option (list num)) (sel_ids : list nat) :
  let wannier_atoms := mask_select wa_all (symbols_eq wa_all "X") in
  let e_coords := position <$> wannier_atoms in
  let box := cell_to_cellpar c in
  let natoms := get_natoms dp_sys in
  ase_io_read wannier_file = inr wa_all →
  cells dp_sys = [c] →
  coords dp_sys = [frame0] →
  length frame0 = natoms →
  get_sel_ids dp_sys type_map sel_type = inr sel_ids →
  load_full_wannier_spread file = inr spread →
  spread_aligned spread e_coords →
  (∀ i r, i ∈ sel_ids → frame0 !! i = Some r →
          count_true (within_cutoff box cutoff e_coords r) = 4) →
  (∀ i i' r r' j, i ∈ sel_ids → i' ∈ sel_ids → i ≠ i' →
     frame0 !! i = Some r → frame0 !! i' = Some r' →
     j ∈ centres_of box cutoff e_coords r →
     j ∉ centres_of box cutoff e_coords r') →
  ∃ atomic_dipole extended_coords wannier_spread dp_sys' dframe,
    get_atomic_dipole dp_sys sel_ids wannier_atoms cutoff file
      = inr (atomic_dipole, extended_coords, wannier_spread)
    ∧ length atomic_dipole = length sel_ids
    ∧ set_dplr_ext_from_cp2k_output dp_sys wannier_file type_map sel_type
        cutoff file = inr dp_sys'
    ∧ data_atomic_dipole dp_sys' = Some [dframe]
    ∧ length dframe = natoms
    ∧ (∀ i, i < natoms → i ∉ sel_ids → dframe !! i = Some vzero)
    ∧ (∀ k i, sel_ids !! k = Some i → dframe !! i = atomic_dipole !! k)
    ∧ (wannier_spread = [] →
       data_wannier_spread dp_sys' = data_wannier_spread dp_sys)
    ∧ (wannier_spread ≠ [] →
       ∃ sframe,
         data_wannier_spread dp_sys' = Some [sframe]
         ∧ length sframe = natoms
         ∧ Forall (λ row, length row = 4) sframe
         ∧ (∀ i, i < natoms → i ∉ sel_ids →
                 sframe !! i = Some (replicate 4 nzero))
         ∧ (∀ k i, sel_ids !! k = Some i →
                   sframe !! i = wannier_spread !! k)).
Proof.
  intros wannier_atoms e_coords box natoms Hread Hcell Hcoords Hnatoms Hsel
    Hspread Haligned Hfour Hdisjoint.
  destruct (valid_get_atomic_dipole dp_sys type_map sel_type cutoff file
              wa_all c frame0 spread sel_ids Hcell Hcoords Hnatoms Hsel
              Hspread Haligned Hfour Hdisjoint)
    as (ref_coords & Href & Hget & Hall).
  fold wannier_atoms e_coords box in Hget, Hall.
  destruct (get_sel_ids_spec _ _ _ _ Hsel) as [Hnd Hlt].
  pose proof (ref_coords_length dp_sys sel_ids ref_coords Href) as Hlen.
  set (atomic_dipole := map (dipole_of box cutoff e_coords) ref_coords) in *.
  set (extended_coords := concat (coords dp_sys) ++ _) in *.
  set (wannier_spread := match spread with Some _ => _ | None => _ end) in *.
  assert (Hdlen : length atomic_dipole = length sel_ids).
  { subst atomic_dipole. by rewrite length_map. }
  (* the dipole array *)
  destruct (np_setitem_rows_spec (replicate natoms (@vzero num _)) sel_ids
              atomic_dipole) as (dframe & Hdset & Hdl & Hdout & Hdin);
    [by rewrite length_replicate|done|done|].
  rewrite length_replicate in Hdl.
  (* the spread array *)
  assert (Hslen : length wannier_spread = length sel_ids
                  ∨ wannier_spread = []).
  { subst wannier_spread. destruct spread; [left|by right].
    by rewrite length_map. }
  assert (Hsrow : Forall (λ row : list num, length row = 4) wannier_spread).
  { subst wannier_spread. destruct spread as [s|]; [|constructor].
    apply Forall_map. eapply Forall_impl; [exact Hall|]. simpl.
    intros r Hr. rewrite mask_select_length; [done|].
    simpl in Haligned. by rewrite within_cutoff_length. }
  exists atomic_dipole, extended_coords, wannier_spread.
  unfold set_dplr_ext_from_cp2k_output.
  rewrite Hread. cbn [mbind res_bind].
  rewrite np_getitem_mask_ok by (unfold symbols_eq; by rewrite length_map).
  cbn [mbind res_bind].
  unfold get_nframes. rewrite Hcell.
  rewrite bool_decide_eq_true_2 by done.
  cbn [py_assert mbind res_bind mret res_ret].
  rewrite Hsel. cbn [mbind res_bind].
  fold wannier_atoms. rewrite Hget. cbn [mbind res_bind].
  cbn [length replicate]. fold natoms.
  rewrite !np_setitem_frames_one, Hdset. cbn [mbind res_bind].
  destruct (decide (wannier_spread = [])) as [Hnil|Hnonnil].
  - rewrite Hnil. rewrite bool_decide_eq_false_2 by (simpl; lia).
    cbn [mbind res_bind mret res_ret].
    eexists _, dframe. split; [done|]. split; [done|]. split; [done|].
    simpl. split; [done|]. split; [done|]. split.
    { intros i Hi Hni. rewrite Hdout by done.
      by apply lookup_replicate_2. }
    split; [done|]. split; [done|]. done.
  - destruct Hslen as [Hslen|?]; [|done].
    destruct (np_setitem_rows_spec (replicate natoms (replicate 4 (@nzero num _)))
                sel_ids wannier_spread) as (sframe & Hsset & Hsl & Hsout & Hsin);
      [by rewrite length_replicate|done|done|].
    rewrite length_replicate in Hsl.
    rewrite bool_decide_eq_true_2
      by (destruct wannier_spread; [done|simpl; lia]).
    change [nzero; nzero; nzero; nzero] with (replicate 4 (@nzero num _)).
    rewrite Hsset.
    cbn [fmap res_fmap mbind res_bind mret res_ret].
    rewrite bool_decide_eq_true_2 by (simpl; lia).
    eexists _, dframe. split; [done|]. split; [done|]. split; [done|].
    simpl. split; [done|]. split; [done|]. split.
    { intros i Hi Hni. rewrite Hdout by done.
      by apply lookup_replicate_2. }
    split; [done|]. split; [done|]. intros _.
    exists sframe. split; [done|]. split; [done|]. split; [|split]; [|
      intros i Hi Hni; rewrite Hsout by done; by apply lookup_replicate_2|done].
    apply Forall_lookup. intros i row Hrow.
    destruct (decide (i ∈ sel_ids)) as [Hin|Hni].
    + apply list_elem_of_lookup in Hin as [k Hk].
      rewrite (Hsin k i Hk) in Hrow.
      by eapply (proj1 (Forall_lookup _ _) Hsrow).
    + rewrite Hsout in Hrow by done.
      apply lookup_replicate in Hrow as [-> _]. by rewrite length_replicate.
Qed.

(** ** [dpdata_read_cp2k_dplr_data] *)

Section loader.
Context `{Num num} `{!Geometry num} `{!FileSystem num}.

(** What the loader does with the outcome of
    [set_dplr_ext_from_cp2k_output]. *)
Lemma loader_outcome cp2k_dir cp2k_output wannier_file type_map sel_type
    cutoff file dp_sys :
  LabeledSystem_load (os_path_join cp2k_dir cp2k_output) = inr dp_sys →
  dpdata_read_cp2k_dplr_data cp2k_dir cp2k_output wannier_file type_map
    sel_type cutoff file
  = match set_dplr_ext_from_cp2k_output dp_sys
            (os_path_join cp2k_dir wannier_file) type_map sel_type cutoff
            (match truthy file with
             | Some f => Some (os_path_join cp2k_dir f)
             | None => None
             end) with
    | inr dp_sys' => inr (Some dp_sys')
    | inl (ValueError _) => inr None
    | inl e => inl e
    end.
Proof.
  intros Hload. unfold dpdata_read_cp2k_dplr_data. rewrite Hload.
  cbn [mbind res_bind].
  by destruct (set_dplr_ext_from_cp2k_output _ _ _ _ _ _) as [[]|].
Qed.

(** An exception of [get_atomic_dipole] leaves
    [set_dplr_ext_from_cp2k_output] as it is. *)
Lemma set_dplr_ext_raises dp_sys wannier_file type_map sel_type cutoff file
    wa_all sel_ids e :
  ase_io_read wannier_file = inr wa_all →
  get_nframes dp_sys = 1 →
  get_sel_ids dp_sys type_map sel_type = inr sel_ids →
  get_atomic_dipole dp_sys sel_ids
    (mask_select wa_all (symbols_eq wa_all "X")) cutoff file = inl e →
  set_dplr_ext_from_cp2k_output dp_sys wannier_file type_map sel_type
    cutoff file = inl e.
Proof.
  intros Hread Hframes Hsel Hget. unfold set_dplr_ext_from_cp2k_output.
  rewrite Hread. cbn [mbind res_bind].
  rewrite np_getitem_mask_ok by (unfold symbols_eq; by rewrite length_map).
  cbn [mbind res_bind].
  rewrite (bool_decide_eq_true_2 _ Hframes).
  cbn [py_assert mbind res_bind mret res_ret].
  rewrite Hsel. cbn [mbind res_bind]. by rewrite Hget.
Qed.

(** C4 (amended). When the system and the Wannier file are read, the system
    has one frame and the selection resolves, a failure of the dipole
    assignment reaches the caller of the loader as follows: a [ValueError],
    which is what a wrong number of centres raises, becomes the result
    [None]; any other exception, among them the [AssertionError] of the
    duplicate check, is raised by the loader itself. *)
Theorem C4_loader_catches_ValueError_only cp2k_dir cp2k_output wannier_file
    type_map sel_type cutoff file dp_sys wa_all sel_ids e :
  let spread_file := match truthy file with
                     | Some f => Some (os_path_join cp2k_dir f)
                     | None => None
                     end in
  LabeledSystem_load (os_path_join cp2k_dir cp2k_output) = inr dp_sys →
  ase_io_read (os_path_join cp2k_dir wannier_file) = inr wa_all →
  get_nframes dp_sys = 1 →
  get_sel_ids dp_sys type_map sel_type = inr sel_ids →
  get_atomic_dipole dp_sys sel_ids
    (mask_select wa_all (symbols_eq wa_all "X")) cutoff spread_file = inl e →
  dpdata_read_cp2k_dplr_data cp2k_dir cp2k_output wannier_file type_map
    sel_type cutoff file
  = match e with
    | ValueError _ => inr None
    | _ => inl e
    end
  ∧ (∀ ii cn, e = ValueError (cutoff_range ii cn) →
       dpdata_read_cp2k_dplr_data cp2k_dir cp2k_output wannier_file type_map
         sel_type cutoff file = inr None)
  ∧ (e = AssertionError →
       dpdata_read_cp2k_dplr_data cp2k_dir cp2k_output wannier_file type_map
         sel_type cutoff file = inl AssertionError).
Proof.
  intros spread_file Hload Hread Hframes Hsel Hget.
  rewrite (loader_outcome _ _ _ _ _ _ _ _ Hload).
  fold spread_file.
  rewrite (set_dplr_ext_raises _ _ _ _ _ _ _ _ _ Hread Hframes Hsel Hget).
  split; [done|]. split; [by intros ii cn ->|by intros ->].
Qed.
End loader.

(** ** The layout migration *)

Section reshapers_spec.
Context `{Num num} `{!FileSystem num}.

Lemma v2_to_v3_file_unbound sel_symbol fname fs sel_ids n_atoms a :
  load_sel_ids fname sel_symbol = inr (sel_ids, n_atoms) →
  fs !! fname = Some a →
  v2_to_v3_file sel_symbol fname None fs
  = (inl (UnboundLocalError "n_frames"), fs).
Proof.
  intros Hmeta Hfile. unfold v2_to_v3_file.
  erewrite run_bind by (unfold ST_lift; by rewrite Hmeta).
  cbv beta iota.
  erewrite run_bind by (unfold np_load; by rewrite Hfile).
  done.
Qed.

(** C6 (the code at the failing input).  As soon as the data root holds a
    tensor file of one of the three names whose sibling metadata can be read,
    [dplr_v2_to_v3] stops at the first such file with [UnboundLocalError]:
    [n_frames] is read (dplr.py:312) before it is assigned (dplr.py:313).
    No file is rewritten, so the compact tensor is not scattered back. *)
Theorem C6_v2_to_v3_reads_unbound_n_frames data_path sel_symbol fs fname rest
    sel_ids n_atoms a :
  glob_recursive data_path "atomic_dipole.npy"
    ++ glob_recursive data_path "atomic_polarizability.npy"
    ++ glob_recursive data_path "wannier_spread.npy" = fname :: rest →
  load_sel_ids fname sel_symbol = inr (sel_ids, n_atoms) →
  fs !! fname = Some a →
  dplr_v2_to_v3 data_path sel_symbol fs
  = (inl (UnboundLocalError "n_frames"), fs).
Proof.
  intros Hglob Hmeta Hfile. unfold dplr_v2_to_v3, atomic_data_fnames.
  pose proof (v2_to_v3_file_unbound _ _ _ _ _ _ Hmeta Hfile) as Hfirst.
  cbn [for_each].
  destruct (glob_recursive data_path "atomic_dipole.npy") as [|f1 g1];
    [|simplify_eq/=; unfold mbind, ST_bind; by rewrite Hfirst].
  destruct (glob_recursive data_path "atomic_polarizability.npy")
    as [|f2 g2];
    [|simplify_eq/=; unfold mbind, ST_bind; simpl; by rewrite Hfirst].
  destruct (glob_recursive data_path "wannier_spread.npy") as [|f3 g3];
    [done|].
  simplify_eq/=. unfold mbind, ST_bind. simpl. by rewrite Hfirst.
Qed.
End reshapers_spec.

(** ** The round trip the two reshapers are meant to make *)

Lemma chunks_concat {A} (ls : list (list A)) len :
  Forall (λ l, length l = len) ls → chunks (length ls) len (concat ls) = ls.
Proof.
  induction 1 as [|l ls Hl _ IH]; simpl; [done|].
  rewrite take_app_length', drop_app_length' by done. by rewrite IH.
Qed.

Lemma reshape_3d_concat {A} (frames : list (list (list A))) k dim :
  frames ≠ [] → k ≠ 0 →
  Forall (λ frame, length frame = k
                   ∧ Forall (λ row, length row = dim) frame) frames →
  reshape_3d (concat ((λ frame, concat frame) <$> frames)) (length frames) k
  = inr frames.
Proof.
  intros Hne Hk Hall.
  assert (Hflat : Forall (λ l : list A, length l = k * dim)
                    ((λ frame, concat frame) <$> frames)).
  { apply Forall_fmap. eapply Forall_impl; [exact Hall|]. simpl.
    intros frame [Hlen Hrows]. by rewrite (concat_length_const _ dim), Hlen. }
  assert (Hn : length frames ≠ 0) by (by destruct frames).
  assert (Htotal : length (concat ((λ frame, concat frame) <$> frames))
                   = dim * (length frames * k)).
  { rewrite (concat_length_const _ (k * dim)) by done.
    rewrite length_fmap. lia. }
  unfold reshape_3d. rewrite Htotal.
  rewrite bool_decide_eq_false_2.
  2:{ rewrite Nat.Div0.mod_mul. intros [?|?]; [|done]. nia. }
  rewrite Nat.div_mul by nia.
  cbn [mret res_ret]. f_equal.
  rewrite <- (length_fmap (λ frame, concat frame) frames) at 1.
  rewrite chunks_concat by done.
  rewrite <- list_fmap_compose.
  rewrite <- (list_fmap_id frames) at 2.
  apply Forall_fmap_ext. eapply Forall_impl; [exact Hall|]. simpl.
  intros frame [Hlen Hrows]. rewrite <- Hlen. by apply chunks_concat.
Qed.

Lemma np_take_nat_lookup {A} (a : list A) (ids : list nat) rows :
  np_take_nat a ids = inr rows →
  length rows = length ids
  ∧ ∀ k i, ids !! k = Some i → rows !! k = a !! i ∧ i < length a.
Proof.
  intros Htake. split; [by eapply mapM_res_length|].
  intros k i Hk. apply mapM_res_inr in Htake.
  destruct (Forall2_lookup_l _ _ _ _ _ Htake Hk) as (x & Hx & Hf).
  unfold mret, res_ret, raise in Hf.
  destruct (a !! i) eqn:Hi; simplify_eq. split; [done|].
  by eapply lookup_lt_Some.
Qed.

Lemma np_take_nat_total {A} (a : list A) (ids : list nat) :
  Forall (λ i, i < length a) ids → ∃ rows, np_take_nat a ids = inr rows.
Proof.
  intros Hlt. apply mapM_res_total. eapply Forall_impl; [exact Hlt|].
  simpl. intros i Hi.
  destruct (lookup_lt_is_Some_2 a i Hi) as [x ->]. by eexists.
Qed.

(** Scattering into zeros the rows gathered from a frame that is zero
    outside the selection gives the frame back. *)
Lemma scatter_gather {A} (zero : A) (frame : list A) (ids : list nat) rows :
  NoDup ids →
  (∀ i x, frame !! i = Some x → i ∉ ids → x = zero) →
  np_take_nat frame ids = inr rows →
  np_setitem_rows (replicate (length frame) zero) ids rows = inr frame.
Proof.
  intros Hnd Hzero Htake.
  destruct (np_take_nat_lookup _ _ _ Htake) as [Hlen Hrows].
  destruct (np_setitem_rows_spec (replicate (length frame) zero) ids rows)
    as (a' & -> & Hl & Hout & Hin); [|done|done|].
  { rewrite length_replicate. apply Forall_lookup. intros k i Hk.
    by destruct (Hrows k i Hk). }
  f_equal. rewrite length_replicate in Hl. apply list_eq. intros i.
  destruct (decide (i ∈ ids)) as [Hi|Hi].
  - apply list_elem_of_lookup in Hi as [k Hk].
    rewrite (Hin k i Hk). by destruct (Hrows k i Hk).
  - rewrite Hout by done. destruct (frame !! i) as [x|] eqn:Hx.
    + rewrite (Hzero i x Hx Hi). apply lookup_replicate_2.
      by eapply lookup_lt_Some.
    + apply lookup_replicate_None. by apply lookup_ge_None.
Qed.

Lemma np_where_first_lt (mask : list (list bool)) :
  Forall (λ i, i < length mask) (np_where_first mask).
Proof.
  apply Forall_forall. intros i Hi. unfold np_where_first in Hi.
  apply elem_of_concat_inv in Hi as (j & l & Hj & Hl).
  rewrite list_lookup_imap in Hj.
  destruct (mask !! j) as [row|] eqn:Hrow; [|done]. simpl in Hj.
  injection Hj as <-. apply elem_of_replicate_inv in Hl as ->.
  by eapply lookup_lt_Some.
Qed.

Section round_trip.
Context `{Num num} `{!FileSystem num}.

(** The indices that [load_sel_ids] returns are indices of atoms; with
    one-dimensional metadata none of them comes twice. *)
Lemma load_sel_ids_spec fname sel_symbol sel_ids n_atoms :
  load_sel_ids fname sel_symbol = inr (sel_ids, n_atoms) →
  Forall (λ i, i < n_atoms) sel_ids.
Proof.
  unfold load_sel_ids.
  destruct (loadtxt_str _) as [e|type_map]; [done|]. cbn [mbind res_bind].
  destruct (loadtxt_int _) as [e|atype]; [done|]. cbn [mbind res_bind].
  assert (Hfirst : ∀ (rows : list (list Z)) n,
    length rows = n →
    (symbols ← nd_take type_map rows;
     mret (np_where_first ((λ row, np_isin row sel_symbol) <$> symbols), n))
    = inr (sel_ids, n_atoms) →
    Forall (λ i, i < n_atoms) sel_ids).
  { intros rows n Hn.
    destruct (nd_take type_map rows) as [e|symbols] eqn:Hsym; [done|].
    cbn [mbind res_bind mret res_ret]. intros [= <- <-].
    assert (Hlen : length symbols = length rows).
    { unfold nd_take in Hsym.
      destruct type_map; [done|..]; by eapply mapM_res_length. }
    rewrite <- Hn, <- Hlen, <- (length_fmap (λ row, np_isin row sel_symbol)).
    apply np_where_first_lt. }
  destruct type_map as [x|type_map|type_map], atype as [i|atype|atype];
    try done.
  - destruct (nd_entry _ _); [done|]. cbn [mbind res_bind].
    by destruct np_where_0d.
  - destruct (np_take type_map atype) as [e|symbols] eqn:Hsym; [done|].
    cbn [mbind res_bind mret res_ret]. intros [= <- <-].
    apply Forall_forall. intros i Hi%np_where_lt.
    rewrite np_isin_length in Hi.
    by rewrite <- (mapM_res_length _ _ _ Hsym).
  - by apply Hfirst.
  - cbn [mbind res_bind]. by destruct (nd_entry _ _).
  - apply Hfirst. by rewrite length_fmap.
  - by apply Hfirst.
Qed.

Lemma load_sel_ids_NoDup fname sel_symbol sel_ids n_atoms type_map atype :
  loadtxt_str (os_path_join (os_path_dirname fname) "../type_map.raw")
    = inr (Array1 type_map) →
  loadtxt_int (os_path_join (os_path_dirname fname) "../type.raw")
    = inr (Array1 atype) →
  load_sel_ids fname sel_symbol = inr (sel_ids, n_atoms) →
  NoDup sel_ids.
Proof.
  unfold load_sel_ids. intros -> ->. cbn [mbind res_bind].
  destruct (np_take type_map atype) as [e|symbols]; [done|].
  cbn [mbind res_bind mret res_ret]. intros [= <- <-].
  apply np_where_NoDup.
Qed.

(** With [n_frames] bound to the number of frames when the scatter starts,
    gather followed by scatter would leave every zero-padded tensor as it
    was: the round trip holds for the bodies of the two loops, on metadata
    files that are one-dimensional. *)
Lemma round_trip_with_n_frames_bound fname sel_symbol sel_ids n_atoms dim
    full fs type_map atype :
  loadtxt_str (os_path_join (os_path_dirname fname) "../type_map.raw")
    = inr (Array1 type_map) →
  loadtxt_int (os_path_join (os_path_dirname fname) "../type.raw")
    = inr (Array1 atype) →
  load_sel_ids fname sel_symbol = inr (sel_ids, n_atoms) →
  sel_ids ≠ [] → full ≠ [] →
  zero_padded sel_ids n_atoms dim full →
  fs !! fname = Some ((λ frame, concat frame) <$> full) →
  ∃ fs1,
    v3_to_v2_file sel_symbol fname fs = (inr (), fs1)
    ∧ v2_to_v3_file sel_symbol fname (Some (length full)) fs1
      = (inr (Some (length full)), fs).
Proof.
  intros Hmap Htype Hmeta Hsel Hfull Hpad Hfile.
  pose proof (load_sel_ids_NoDup _ _ _ _ _ _ Hmap Htype Hmeta) as Hnd.
  pose proof (load_sel_ids_spec _ _ _ _ Hmeta) as Hlt.
  clear Hmap Htype.
  assert (Hatoms : n_atoms ≠ 0).
  { destruct sel_ids as [|i ?]; [done|].
    apply Forall_cons in Hlt as [? _]. lia. }
  (* the gathered rows of every frame *)
  assert (Hgather : ∃ selected,
    mapM (λ frame, np_take_nat frame sel_ids) full = inr selected
    ∧ Forall2 (λ frame rows, np_take_nat frame sel_ids = inr rows)
        full selected).
  { destruct (mapM_res_total (λ frame, np_take_nat frame sel_ids) full)
      as [selected Hs].
    - eapply Forall_impl; [exact Hpad|]. simpl. intros frame (Hl & _ & _).
      apply np_take_nat_total. by rewrite Hl.
    - exists selected. split; [done|]. by apply mapM_res_inr. }
  destruct Hgather as (selected & Hmap & Hsel2).
  assert (Hselshape : Forall (λ rows, length rows = length sel_ids
                              ∧ Forall (λ row : list num, length row = dim) rows)
                        selected).
  { apply Forall_forall. intros rows Hin.
    apply list_elem_of_lookup in Hin as [f Hf].
    destruct (Forall2_lookup_r _ _ _ _ _ Hsel2 Hf) as (frame & Hframe & Htake).
    destruct (np_take_nat_lookup _ _ _ Htake) as [Hl Hrows].
    split; [done|]. apply Forall_lookup. intros k row Hk.
    destruct (lookup_lt_is_Some_2 sel_ids k) as [i Hi].
    { rewrite <- Hl. by eapply lookup_lt_Some. }
    destruct (Hrows k i Hi) as [Heq _]. rewrite Hk in Heq.
    pose proof (proj1 (Forall_lookup _ _) Hpad f frame Hframe)
      as (_ & Hrow & _).
    by eapply (proj1 (Forall_lookup _ _) Hrow i). }
  assert (Hlensel : length selected = length full).
  { symmetry. by eapply Forall2_length. }
  assert (Hselne : selected ≠ []).
  { intros ->. by destruct full. }
  set (compact := (λ rows : list (list num), concat rows) <$> selected).
  exists (<[fname := compact]> fs). split.
  - unfold v3_to_v2_file.
    erewrite run_bind by (unfold ST_lift; by rewrite Hmeta). cbv beta iota.
    erewrite run_bind by (unfold np_load; by rewrite Hfile).
    erewrite run_bind.
    2:{ unfold ST_lift. rewrite length_fmap.
        rewrite (reshape_3d_concat full n_atoms dim); [done..|].
        eapply Forall_impl; [exact Hpad|]. simpl. by intros ? (? & ? & _). }
    erewrite run_bind by (unfold ST_lift; by rewrite Hmap).
    erewrite run_bind.
    2:{ unfold ST_lift, reshape_2d. by destruct selected. }
    done.
  - unfold v2_to_v3_file.
    erewrite run_bind by (unfold ST_lift; by rewrite Hmeta). cbv beta iota.
    erewrite run_bind by (unfold np_load; by rewrite lookup_insert_eq).
    erewrite run_bind by done.
    assert (Hre : reshape_3d (concat compact) (length full) (length sel_ids)
                  = inr selected).
    { rewrite <- Hlensel. apply (reshape_3d_concat selected _ dim);
        [done|by destruct sel_ids|done]. }
    erewrite run_bind by (unfold ST_lift; by rewrite Hre).
    assert (Hdim : length (concat compact)
                     `div` (length full * length sel_ids) = dim).
    { subst compact.
      rewrite (concat_length_const _ (length sel_ids * dim)).
      - rewrite length_fmap, Hlensel.
        replace (length full * (length sel_ids * dim))
          with (dim * (length full * length sel_ids)) by lia.
        apply Nat.div_mul. destruct full, sel_ids; simpl; try done; lia.
      - apply Forall_fmap. eapply Forall_impl; [exact Hselshape|]. simpl.
        intros rows [Hl Hr]. by rewrite (concat_length_const _ dim), Hl. }
    rewrite Hdim.
    assert (Hscatter :
      mapM (λ '(frame, rows), np_setitem_rows frame sel_ids rows)
        (zip (replicate (length selected)
                (replicate n_atoms (replicate dim nzero))) selected)
      = inr full).
    { apply mapM_res_inr. clear -Hsel2 Hpad Hnd.
      induction Hsel2 as [|frame rows full selected Htake _ IH]; simpl;
        [constructor|].
      apply Forall_cons in Hpad as [(Hl & _ & Hz) Hpad].
      constructor; [|by apply IH].
      rewrite <- Hl. by apply scatter_gather. }
    erewrite run_bind by (unfold ST_lift; by rewrite Hscatter).
    erewrite run_bind.
    2:{ unfold ST_lift, reshape_2d. by destruct full. }
    unfold mbind, ST_bind, np_save, mret, ST_ret.
    rewrite Hlensel, insert_insert_eq. by rewrite insert_id.
Qed.
End round_trip.

(** * Further properties of the module *)

(** ** [get_unused_symbols]: how many symbols come back *)

Section scan_unused_size.
Context (used : list string) (size : Z).

(** While fewer than [size] symbols have been collected, the scan goes on
    until [size] are there or the table ends. *)
Lemma scan_unused_below scan acc :
  (Z.of_nat (length acc) < size)%Z →
  scan_unused used size scan acc
  = acc ++ take (Z.to_nat size - length acc) (filter (λ s, s ∉ used) scan).
Proof.
  revert acc. induction scan as [|s scan IH]; intros acc Hlt; simpl.
  { by rewrite filter_nil, take_nil, app_nil_r. }
  unfold not_in. rewrite filter_cons.
  destruct (decide (s ∉ used)) as [Hs|Hs].
  - rewrite bool_decide_eq_true_2 by done.
    replace (Z.to_nat size - length acc) with (S (Z.to_nat size - S (length acc)))
      by lia. simpl.
    destruct (Z.of_nat (length (acc ++ [s])) =? size)%Z eqn:Heq.
    + apply Z.eqb_eq in Heq. rewrite length_app in Heq. simpl in Heq.
      replace (Z.to_nat size - S (length acc)) with 0 by lia.
      by rewrite take_0.
    + apply Z.eqb_neq in Heq. rewrite length_app in Heq. simpl in Heq.
      rewrite IH by (rewrite length_app; simpl; lia).
      rewrite length_app, <- app_assoc. simpl.
      by replace (length acc + 1) with (S (length acc)) by lia.
  - rewrite bool_decide_eq_false_2 by done.
    rewrite (proj2 (Z.eqb_neq _ _)) by lia. by apply IH.
Qed.

(** Once more than [size] symbols have been collected, the [break] is never
    taken: every unused symbol of the rest is appended. *)
Lemma scan_unused_above scan acc :
  (size < Z.of_nat (length acc))%Z →
  scan_unused used size scan acc = acc ++ filter (λ s, s ∉ used) scan.
Proof.
  revert acc. induction scan as [|s scan IH]; intros acc Hlt; simpl.
  { by rewrite filter_nil, app_nil_r. }
  unfold not_in. rewrite filter_cons.
  destruct (decide (s ∉ used)) as [Hs|Hs].
  - rewrite bool_decide_eq_true_2 by done.
    rewrite (proj2 (Z.eqb_neq _ _)) by (rewrite length_app; simpl; lia).
    rewrite IH by (rewrite length_app; simpl; lia).
    by rewrite <- app_assoc.
  - rewrite bool_decide_eq_false_2 by done.
    rewrite (proj2 (Z.eqb_neq _ _)) by lia. by apply IH.
Qed.
End scan_unused_size.

(** X1. For a positive [size], [get_unused_symbols] returns the first
    [size] symbols of the element table, read backwards, that are not used:
    exactly [size] of them when that many exist, all of them otherwise. *)
Theorem get_unused_symbols_positive_size (used_symbols : list string)
    (size : Z) :
  (0 < size)%Z →
  let unused := filter (λ s, s ∉ used_symbols) (reverse chemical_symbols) in
  get_unused_symbols used_symbols size = take (Z.to_nat size) unused
  ∧ length (get_unused_symbols used_symbols size)
    = Z.to_nat size `min` length unused.
Proof.
  intros Hpos unused.
  assert (Heq : get_unused_symbols used_symbols size
                = take (Z.to_nat size) unused).
  { unfold get_unused_symbols.
    rewrite scan_unused_below by (simpl; lia). simpl.
    by rewrite Nat.sub_0_r. }
  split; [done|]. by rewrite Heq, length_take.
Qed.

(** With [size = 0] the test [len(unused_symbols) == size] can hold before
    the first symbol is appended only. *)
Lemma get_unused_symbols_zero (used_symbols : list string) :
  get_unused_symbols used_symbols 0
  = if bool_decide ("Og" ∈ used_symbols) then []
    else filter (λ s, s ∉ used_symbols) (reverse chemical_symbols).
Proof.
  unfold get_unused_symbols.
  change (reverse chemical_symbols)
    with ("Og" :: reverse (take 118 chemical_symbols)).
  generalize (reverse (take 118 chemical_symbols)). intros rest.
  cbn [scan_unused]. unfold not_in. rewrite filter_cons.
  destruct (decide ("Og" ∈ used_symbols)) as [Hog|Hog].
  - rewrite bool_decide_eq_false_2 by (by intros []).
    rewrite decide_False by (by intros []).
    by rewrite bool_decide_eq_true_2.
  - rewrite bool_decide_eq_true_2 by done.
    rewrite decide_True by done. simpl.
    rewrite bool_decide_eq_false_2 by done.
    by rewrite scan_unused_above by (simpl; lia).
Qed.

(** X2. For [size = 0] the loop can only stop at its first test: the result
    is empty when the last symbol of the table, [Og], is used, and holds
    every unused symbol of the table otherwise.  For a negative [size] it
    always holds every unused symbol. *)
Theorem get_unused_symbols_nonpositive_size (used_symbols : list string)
    (size : Z) :
  (size ≤ 0)%Z →
  get_unused_symbols used_symbols size
  = if bool_decide (size = 0%Z ∧ "Og" ∈ used_symbols) then []
    else filter (λ s, s ∉ used_symbols) (reverse chemical_symbols).
Proof.
  intros Hle. destruct (decide (size = 0%Z)) as [->|Hne].
  - rewrite get_unused_symbols_zero.
    destruct (decide ("Og" ∈ used_symbols)) as [Hog|Hog].
    + by rewrite !bool_decide_eq_true_2.
    + rewrite bool_decide_eq_false_2 by done.
      by rewrite bool_decide_eq_false_2 by (by intros [_ ?]).
  - rewrite bool_decide_eq_false_2 by (by intros [? _]).
    unfold get_unused_symbols.
    by rewrite scan_unused_above by (simpl; lia).
Qed.

(** ** [get_sel_ids]: which atoms are selected *)

Lemma py_getitem_inl {A} (a : list A) (i : Z) e :
  py_getitem a i = inl e → e = IndexError ∧ ¬ valid_index (length a) i.
Proof.
  unfold py_getitem, valid_index.
  destruct (i <? 0)%Z eqn:Hneg;
    [apply Z.ltb_lt in Hneg|apply Z.ltb_ge in Hneg].
  - destruct (_ && _) eqn:Hin.
    + apply andb_true_iff in Hin as [H1%Z.leb_le H2%Z.ltb_lt].
      destruct (lookup_lt_is_Some_2 a (Z.to_nat (i + Z.of_nat (length a))))
        as [x ->]; [lia|done].
    + intros [= <-]. split; [done|]. intros [H1 H2].
      apply andb_false_iff in Hin as [Hin%Z.leb_gt|Hin%Z.ltb_ge]; lia.
  - destruct (_ && _) eqn:Hin.
    + apply andb_true_iff in Hin as [H1%Z.leb_le H2%Z.ltb_lt].
      destruct (lookup_lt_is_Some_2 a (Z.to_nat i)) as [x ->]; [lia|done].
    + intros [= <-]. split; [done|]. intros [H1 H2].
      apply andb_false_iff in Hin as [Hin%Z.leb_gt|Hin%Z.ltb_ge]; lia.
Qed.

Lemma mapM_res_inl {A B} (f : A → res B) (l : list A) e :
  mapM f l = inl e → ∃ x, x ∈ l ∧ f x = inl e.
Proof.
  induction l as [|x l IH]; [done|]. rewrite mapM_res_cons.
  destruct (f x) as [e'|y] eqn:Hx.
  - intros [= ->]. exists x. split; [apply list_elem_of_here|done].
  - destruct (mapM f l) as [e'|k]; [|done]. intros [= ->].
    destruct IH as (x' & Hin & Hx'); [done|].
    exists x'. split; [by apply list_elem_of_further|done].
Qed.

Lemma np_take_total {A} (a : list A) (idx : list Z) :
  Forall (valid_index (length a)) idx → ∃ xs, np_take a idx = inr xs.
Proof.
  intros Hall. apply mapM_res_total. eapply Forall_impl; [exact Hall|].
  intros i Hi. by apply py_getitem_in_range.
Qed.

Lemma np_take_inl {A} (a : list A) (idx : list Z) e :
  np_take a idx = inl e →
  e = IndexError ∧ Exists (λ i, ¬ valid_index (length a) i) idx.
Proof.
  intros (i & Hin & Hi)%mapM_res_inl.
  destruct (py_getitem_inl _ _ _ Hi) as [-> Hbad].
  split; [done|]. apply Exists_exists. by exists i.
Qed.

(** X3. The indices that [get_sel_ids] returns are in increasing order, and
    an atom index is among them exactly when the symbol of the atom, looked
    up through its type in [atom_names], is the symbol of one of the selected
    types in [type_map]. *)
Theorem get_sel_ids_selects {num} (dp_sys : LabeledSystem num)
    (type_map : list string) (sel_type : list Z) (sel_ids : list nat) :
  get_sel_ids dp_sys type_map sel_type = inr sel_ids →
  StronglySorted lt sel_ids
  ∧ ∀ i, i ∈ sel_ids ↔
      ∃ t s k st,
        atom_types dp_sys !! i = Some t
        ∧ py_getitem (atom_names dp_sys) t = inr s
        ∧ sel_type !! k = Some st
        ∧ py_getitem type_map st = inr s.
Proof.
  unfold get_sel_ids.
  destruct (np_take (atom_names dp_sys) (atom_types dp_sys))
    as [e|symbols] eqn:Hsym; [done|].
  cbn [mbind res_bind].
  destruct (np_take type_map sel_type) as [e|sel_symbols] eqn:Hsel; [done|].
  cbn [mbind res_bind mret res_ret]. intros [= <-].
  apply mapM_res_inr in Hsym, Hsel.
  split; [apply np_where_from_sorted|].
  intros i. rewrite np_where_elem. unfold np_isin.
  rewrite list_lookup_fmap. split.
  - destruct (symbols !! i) as [s|] eqn:Hs; [|done]. simpl.
    intros [= Hin%bool_decide_eq_true_1].
    destruct (Forall2_lookup_r _ _ _ _ _ Hsym Hs) as (t & Ht & Hts).
    apply list_elem_of_lookup in Hin as [k Hk].
    destruct (Forall2_lookup_r _ _ _ _ _ Hsel Hk) as (st & Hst & Hsts).
    by exists t, s, k, st.
  - intros (t & s & k & st & Ht & Hts & Hst & Hsts).
    destruct (Forall2_lookup_l _ _ _ _ _ Hsym Ht) as (s' & Hs' & Hts').
    destruct (Forall2_lookup_l _ _ _ _ _ Hsel Hst) as (s'' & Hs'' & Hsts').
    rewrite Hs'. simpl. f_equal. apply bool_decide_eq_true_2.
    rewrite Hts in Hts'. injection Hts' as <-.
    rewrite Hsts in Hsts'. injection Hsts' as <-.
    by eapply list_elem_of_lookup_2.
Qed.

(** X4. [get_sel_ids] returns when every atom type is a valid index of
    [atom_names] and every selected type a valid index of [type_map]
    (negative indices count from the end).  The only exception it raises is
    [IndexError], and it raises it exactly for an index out of range. *)
Theorem get_sel_ids_bounds {num} (dp_sys : LabeledSystem num)
    (type_map : list string) (sel_type : list Z) :
  (Forall (valid_index (length (atom_names dp_sys))) (atom_types dp_sys)
   ∧ Forall (valid_index (length type_map)) sel_type →
   ∃ sel_ids, get_sel_ids dp_sys type_map sel_type = inr sel_ids)
  ∧ (∀ e, get_sel_ids dp_sys type_map sel_type = inl e →
       e = IndexError
       ∧ (Exists (λ t, ¬ valid_index (length (atom_names dp_sys)) t)
            (atom_types dp_sys)
          ∨ Exists (λ t, ¬ valid_index (length type_map) t) sel_type)).
Proof.
  unfold get_sel_ids. split.
  - intros [Htypes Hsel].
    destruct (np_take_total _ _ Htypes) as [symbols ->].
    destruct (np_take_total _ _ Hsel) as [sel_symbols ->].
    by eexists.
  - intros e.
    destruct (np_take (atom_names dp_sys) (atom_types dp_sys))
      as [e'|symbols] eqn:Hsym.
    { intros [= ->]. destruct (np_take_inl _ _ _ Hsym). auto. }
    cbn [mbind res_bind].
    destruct (np_take type_map sel_type) as [e'|sel_symbols] eqn:Hsel; [|done].
    intros [= ->]. destruct (np_take_inl _ _ _ Hsel). auto.
Qed.

(** ** [read_wannier_spread] and the spread file in the loader *)

Lemma py_getitem_nonneg {A} (a : list A) (i : nat) (x : A) :
  py_getitem a (Z.of_nat i) = inr x → a !! i = Some x.
Proof.
  unfold py_getitem. rewrite (proj2 (Z.ltb_ge _ _)) by lia.
  destruct (_ && _); [|done]. rewrite Nat2Z.id.
  by destruct (a !! i); [intros [= ->]|].
Qed.

Lemma slice_2_m1_length {A} (lines : list A) :
  length (slice_2_m1 lines) = length lines - 3.
Proof. unfold slice_2_m1. rewrite length_take, length_drop. lia. Qed.

Lemma slice_2_m1_lookup {A} (lines : list A) k line :
  slice_2_m1 lines !! k = Some line →
  lines !! (k + 2) = Some line ∧ k + 2 < length lines - 1.
Proof.
  unfold slice_2_m1. intros Hk.
  apply lookup_take_Some in Hk as [Hk Hlt]. rewrite lookup_drop in Hk.
  split; [by rewrite Nat.add_comm|lia].
Qed.

Section spread_file.
Context `{Num num} `{!Geometry num} `{!FileSystem num}.

(** X5. [read_wannier_spread] skips the first two lines and the last one:
    it returns one row per line in between, and row [k] holds the second
    and third fields of [line.strip().split()] for line [k + 2], converted
    by [float]. *)
Theorem read_wannier_spread_rows (fname : string) (lines : list string)
    (rows : list (num * num)) :
  readlines fname = inr lines →
  read_wannier_spread fname = inr rows →
  length rows = length lines - 3
  ∧ ∀ k x1 x2, rows !! k = Some (x1, x2) →
      ∃ line f1 f2,
        lines !! (k + 2) = Some line
        ∧ k + 2 < length lines - 1
        ∧ py_split (py_strip line) !! 1 = Some f1 ∧ py_float f1 = inr x1
        ∧ py_split (py_strip line) !! 2 = Some f2 ∧ py_float f2 = inr x2.
Proof.
  intros Hlines. unfold read_wannier_spread. rewrite Hlines.
  cbn [mbind res_bind]. intros Hrows. split.
  { by rewrite (mapM_res_length _ _ _ Hrows), slice_2_m1_length. }
  intros k x1 x2 Hk. apply mapM_res_inr in Hrows.
  destruct (Forall2_lookup_r _ _ _ _ _ Hrows Hk) as (line & Hline & Hparse).
  destruct (slice_2_m1_lookup _ _ _ Hline) as [Hl Hlt].
  cbn [mbind res_bind] in Hparse.
  destruct (py_getitem (py_split (py_strip line)) 1) as [e|f1] eqn:H1; [done|].
  cbn [mbind res_bind] in Hparse.
  destruct (py_float f1) as [e|y1] eqn:Hf1; [done|].
  cbn [mbind res_bind] in Hparse.
  destruct (py_getitem (py_split (py_strip line)) 2) as [e|f2] eqn:H2; [done|].
  cbn [mbind res_bind] in Hparse.
  destruct (py_float f2) as [e|y2] eqn:Hf2; [done|].
  cbn [mbind res_bind mret res_ret] in Hparse.
  injection Hparse as <- <-.
  exists line, f1, f2.
  apply (py_getitem_nonneg _ 1) in H1. apply (py_getitem_nonneg _ 2) in H2.
  done.
Qed.

(** X6. A spread file of at most three lines has no data line.
    [read_wannier_spread] then returns an empty array, and the column
    selection [[:, -1]] in [get_atomic_dipole] raises [IndexError], whatever
    the atoms and the centres are. *)
Theorem spread_file_without_data_raises_IndexError
    (dp_sys : LabeledSystem num) (sel_ids : list nat)
    (wannier_atoms : Atoms num) (cutoff : num) (file : option string)
    (c : cell num) (f : string) (lines : list string) :
  cells dp_sys = [c] →
  truthy file = Some f →
  readlines f = inr lines →
  length lines ≤ 3 →
  read_wannier_spread f = inr []
  ∧ get_atomic_dipole dp_sys sel_ids wannier_atoms cutoff file
    = inl IndexError.
Proof.
  intros Hcell Hfile Hlines Hshort.
  assert (Hread : read_wannier_spread f = inr []).
  { unfold read_wannier_spread. rewrite Hlines. cbn [mbind res_bind].
    pose proof (slice_2_m1_length lines) as Hlen.
    destruct (slice_2_m1 lines); [done|simpl in Hlen; lia]. }
  split; [done|].
  unfold get_atomic_dipole. rewrite Hcell.
  cbn [reshape_3_3 fmap res_fmap mret res_ret mbind res_bind].
  unfold load_full_wannier_spread. rewrite Hfile, Hread. done.
Qed.

(** X7. What the loader makes of a spread file that cannot be read: a
    [ValueError] (a field that [float] rejects) is swallowed and the loader
    returns [None]; any other exception (a missing file, a line with fewer
    than three fields) is raised to the caller. *)
Theorem loader_spread_file_failure (cp2k_dir cp2k_output wannier_file : string)
    (type_map : list string) (sel_type : list Z) (cutoff : num)
    (file : option string) (dp_sys : LabeledSystem num)
    (wa_all : Atoms num) (sel_ids : list nat) (f : string) (e : exn) :
  LabeledSystem_load (os_path_join cp2k_dir cp2k_output) = inr dp_sys →
  ase_io_read (os_path_join cp2k_dir wannier_file) = inr wa_all →
  get_nframes dp_sys = 1 →
  get_sel_ids dp_sys type_map sel_type = inr sel_ids →
  truthy file = Some f →
  truthy (Some (os_path_join cp2k_dir f)) = Some (os_path_join cp2k_dir f) →
  read_wannier_spread (os_path_join cp2k_dir f) = inl e →
  dpdata_read_cp2k_dplr_data cp2k_dir cp2k_output wannier_file type_map
    sel_type cutoff file
  = match e with
    | ValueError _ => inr None
    | _ => inl e
    end.
Proof.
  intros Hload Hread Hframes Hsel Hfile Hjoined Hspread.
  rewrite (loader_outcome _ _ _ _ _ _ _ _ Hload). rewrite Hfile.
  assert (Hget : get_atomic_dipole dp_sys sel_ids
                   (mask_select wa_all (symbols_eq wa_all "X")) cutoff
                   (Some (os_path_join cp2k_dir f)) = inl e).
  { unfold get_atomic_dipole, load_full_wannier_spread.
    unfold get_nframes in Hframes.
    destruct (cells dp_sys) as [|c [|c' cs]];
      [by simplify_eq/=| |by simplify_eq/=].
    cbn [reshape_3_3 fmap res_fmap mret res_ret mbind res_bind].
    rewrite Hjoined. cbn [fmap res_fmap mbind res_bind].
    by rewrite Hspread. }
  rewrite (set_dplr_ext_raises _ _ _ _ _ _ _ _ _ Hread Hframes Hsel Hget).
  done.
Qed.

(** X8. A system that does not hold exactly one frame is refused by the
    assertion of [set_dplr_ext_from_cp2k_output] once the Wannier file is
    read, before the selection is resolved, and the loader raises that
    [AssertionError] to its caller. *)
Theorem multi_frame_system_fails_assertion
    (cp2k_dir cp2k_output wannier_file : string)
    (type_map : list string) (sel_type : list Z) (cutoff : num)
    (file : option string) (dp_sys : LabeledSystem num)
    (wa_all : Atoms num) :
  LabeledSystem_load (os_path_join cp2k_dir cp2k_output) = inr dp_sys →
  ase_io_read (os_path_join cp2k_dir wannier_file) = inr wa_all →
  get_nframes dp_sys ≠ 1 →
  (∀ spread_file,
     set_dplr_ext_from_cp2k_output dp_sys
       (os_path_join cp2k_dir wannier_file) type_map sel_type cutoff
       spread_file = inl AssertionError)
  ∧ dpdata_read_cp2k_dplr_data cp2k_dir cp2k_output wannier_file type_map
      sel_type cutoff file = inl AssertionError.
Proof.
  intros Hload Hread Hframes.
  assert (Hset : ∀ spread_file,
    set_dplr_ext_from_cp2k_output dp_sys
      (os_path_join cp2k_dir wannier_file) type_map sel_type cutoff
      spread_file = inl AssertionError).
  { intros spread_file. unfold set_dplr_ext_from_cp2k_output.
    rewrite Hread. cbn [mbind res_bind].
    rewrite np_getitem_mask_ok by (unfold symbols_eq; by rewrite length_map).
    cbn [mbind res_bind].
    by rewrite (bool_decide_eq_false_2 _ Hframes). }
  split; [done|].
  by rewrite (loader_outcome _ _ _ _ _ _ _ _ Hload), Hset.
Qed.
End spread_file.

(** ** [get_atomic_dipole]: the other two results *)

Section get_atomic_dipole_results.
Context `{Num num} `{!Geometry num} `{!FileSystem num}.

(** X9. The second result of [get_atomic_dipole] is the coordinate array
    of the system with one point appended per selected atom, in the order of
    [sel_ids]: the atom's position shifted by its dipole, the centroid of
    its four Wannier centres. *)
Theorem extended_coords_appends_centroids (dp_sys : LabeledSystem num)
    (sel_ids : list nat) (wannier_atoms : Atoms num) (cutoff : num)
    (file : option string) (atomic_dipole extended_coords : list (vec num))
    (wannier_spread : list (list num)) :
  get_atomic_dipole dp_sys sel_ids wannier_atoms cutoff file
    = inr (atomic_dipole, extended_coords, wannier_spread) →
  let coords := concat (coords dp_sys) in
  length extended_coords = length coords + length sel_ids
  ∧ take (length coords) extended_coords = coords
  ∧ ∀ k i, sel_ids !! k = Some i →
      ∃ r d, coords !! i = Some r
             ∧ atomic_dipole !! k = Some d
             ∧ extended_coords !! (length coords + k) = Some (vadd d r).
Proof.
  intros Hget coords0.
  destruct (get_atomic_dipole_inr_pre _ _ _ _ _ _ Hget)
    as (c & spread & ref_coords & Hcell & Hspread & Href).
  pose proof (get_atomic_dipole_spec dp_sys sel_ids wannier_atoms cutoff file
                c spread ref_coords Hcell Hspread Href) as Hspec.
  rewrite Hget in Hspec. destruct Hspec as (_ & _ & _ & -> & -> & _).
  pose proof (ref_coords_length dp_sys sel_ids ref_coords Href) as Hlen.
  fold coords0. split; [by rewrite length_app, length_map, Hlen|].
  split; [by rewrite take_app_length|].
  intros k i Hi.
  pose proof (ref_coords_lookup dp_sys sel_ids ref_coords Href k i Hi) as Hr.
  destruct (lookup_lt_is_Some_2 ref_coords k) as [r Hk].
  { rewrite Hlen. by eapply lookup_lt_Some. }
  rewrite Hk in Hr. fold coords0 in Hr.
  exists r, (dipole_of (cell_to_cellpar c) cutoff (position <$> wannier_atoms) r).
  split; [done|]. split; [by rewrite list_lookup_fmap, Hk|].
  rewrite lookup_app_r by lia.
  replace (length coords0 + k - length coords0) with k by lia.
  by rewrite list_lookup_fmap, Hk.
Qed.

(** X10. The third result of [get_atomic_dipole] is empty when no spread
    file was given.  With a spread file it has one row per selected atom:
    the spread values of the atom's four centres, in the order of the centre
    indices. *)
Theorem wannier_spread_rows_follow_centres (dp_sys : LabeledSystem num)
    (sel_ids : list nat) (wannier_atoms : Atoms num) (cutoff : num)
    (file : option string) (atomic_dipole extended_coords : list (vec num))
    (wannier_spread : list (list num)) :
  get_atomic_dipole dp_sys sel_ids wannier_atoms cutoff file
    = inr (atomic_dipole, extended_coords, wannier_spread) →
  ∃ c spread,
    cells dp_sys = [c]
    ∧ load_full_wannier_spread file = inr spread
    ∧ match spread with
      | None => wannier_spread = []
      | Some s =>
          length wannier_spread = length sel_ids
          ∧ ∀ k i, sel_ids !! k = Some i →
              ∃ r j1 j2 j3 j4 s1 s2 s3 s4,
                concat (coords dp_sys) !! i = Some r
                ∧ centres_of (cell_to_cellpar c) cutoff
                    (position <$> wannier_atoms) r = [j1; j2; j3; j4]
                ∧ s !! j1 = Some s1 ∧ s !! j2 = Some s2
                ∧ s !! j3 = Some s3 ∧ s !! j4 = Some s4
                ∧ wannier_spread !! k = Some [s1; s2; s3; s4]
      end.
Proof.
  intros Hget.
  destruct (get_atomic_dipole_inr_pre _ _ _ _ _ _ Hget)
    as (c & spread & ref_coords & Hcell & Hspread & Href).
  pose proof (get_atomic_dipole_spec dp_sys sel_ids wannier_atoms cutoff file
                c spread ref_coords Hcell Hspread Href) as Hspec.
  rewrite Hget in Hspec. destruct Hspec as (Hall & Hal & _ & _ & _ & ->).
  pose proof (ref_coords_length dp_sys sel_ids ref_coords Href) as Hlen.
  exists c, spread. split; [done|]. split; [done|].
  destruct spread as [s|]; [|done].
  split; [by rewrite length_map|].
  intros k i Hi.
  pose proof (ref_coords_lookup dp_sys sel_ids ref_coords Href k i Hi) as Hr.
  destruct (lookup_lt_is_Some_2 ref_coords k) as [r Hk].
  { rewrite Hlen. by eapply lookup_lt_Some. }
  rewrite Hk in Hr.
  assert (Hne : ref_coords ≠ []) by (intros ->; done).
  specialize (Hal Hne). simpl in Hal.
  pose proof (proj1 (Forall_lookup _ _) Hall k r Hk) as Hcn. simpl in Hcn.
  destruct (four_selected s
              (within_cutoff (cell_to_cellpar c) cutoff
                 (position <$> wannier_atoms) r))
    as (j1 & j2 & j3 & j4 & s1 & s2 & s3 & s4 & Hw & Hsel & _ & _ & _
        & H1 & H2 & H3 & H4); [by rewrite within_cutoff_length|done|].
  exists r, j1, j2, j3, j4, s1, s2, s3, s4.
  split; [done|]. split; [done|]. do 4 (split; [done|]).
  by rewrite list_lookup_fmap, Hk, <- Hsel.
Qed.

(** X11. With no selected atom nothing is matched: [get_atomic_dipole]
    returns no dipole, the coordinates as they are and no spread row,
    whatever the centres and the cutoff.  [set_dplr_ext_from_cp2k_output]
    then attaches an all-zero dipole array and, also when a spread file was
    read, no spread array. *)
Theorem empty_selection_gives_zero_dipoles (dp_sys : LabeledSystem num)
    (wannier_file : string) (type_map : list string) (sel_type : list Z)
    (cutoff : num) (file : option string) (wa_all : Atoms num)
    (c : cell num) (spread : option (list num)) :
  ase_io_read wannier_file = inr wa_all →
  cells dp_sys = [c] →
  get_sel_ids dp_sys type_map sel_type = inr [] →
  load_full_wannier_spread file = inr spread →
  (∀ wannier_atoms,
     get_atomic_dipole dp_sys [] wannier_atoms cutoff file
     = inr ([], concat (coords dp_sys), []))
  ∧ set_dplr_ext_from_cp2k_output dp_sys wannier_file type_map sel_type
      cutoff file
    = inr (mkLabeledSystem (atom_names dp_sys) (atom_types dp_sys)
             (coords dp_sys) (cells dp_sys)
             (Some [replicate (get_natoms dp_sys) vzero])
             (data_wannier_spread dp_sys)).
Proof.
  intros Hread Hcell Hsel Hspread.
  assert (Hget : ∀ wannier_atoms,
    get_atomic_dipole dp_sys [] wannier_atoms cutoff file
    = inr ([], concat (coords dp_sys), [])).
  { intros wannier_atoms. unfold get_atomic_dipole. rewrite Hcell.
    cbn [reshape_3_3 fmap res_fmap mret res_ret mbind res_bind].
    rewrite Hspread. done. }
  split; [done|].
  unfold set_dplr_ext_from_cp2k_output.
  rewrite Hread. cbn [mbind res_bind].
  rewrite np_getitem_mask_ok by (unfold symbols_eq; by rewrite length_map).
  cbn [mbind res_bind].
  unfold get_nframes. rewrite Hcell.
  rewrite bool_decide_eq_true_2 by done.
  cbn [py_assert mbind res_bind mret res_ret].
  rewrite Hsel. cbn [mbind res_bind]. rewrite Hget. done.
Qed.
End get_atomic_dipole_results.

(** ** The layout migration: what is written and what is not *)

Lemma for_each_state {S X V} (I : S → Prop) (body : X → V → ST S V)
    (xs : list X) (v : V) (s : S) :
  I s → (∀ x v s, x ∈ xs → I s → I (body x v s).2) →
  I (for_each body xs v s).2.
Proof.
  revert v s. induction xs as [|x xs IH]; intros v s Hs Hbody; simpl; [done|].
  unfold mbind, ST_bind.
  pose proof (Hbody x v s (list_elem_of_here _ _) Hs) as Hx.
  destruct (body x v s) as [[e|v'] s']; simpl in *; [done|].
  apply IH; [done|]. intros x' v'' s'' Hin. apply Hbody.
  by apply list_elem_of_further.
Qed.

Section reshapers_effects.
Context `{Num num} `{!FileSystem num}.

(** The body of [dplr_v2_to_v3], entered with [n_frames] unbound, raises
    before it writes. *)
Lemma v2_to_v3_file_never_returns sel_symbol fname fs :
  ∃ e, v2_to_v3_file sel_symbol fname None fs = (inl e, fs).
Proof.
  unfold v2_to_v3_file, mbind, ST_bind, ST_lift, np_load.
  destruct (load_sel_ids fname sel_symbol) as [e|[sel_ids n_atoms]];
    [by eexists|].
  destruct (fs !! fname); by eexists.
Qed.

Lemma v2_to_v3_files_unbound sel_symbol files fs :
  (files = [] ∧ for_each (v2_to_v3_file sel_symbol) files None fs
                = (inr None, fs))
  ∨ (files ≠ [] ∧ ∃ e, for_each (v2_to_v3_file sel_symbol) files None fs
                       = (inl e, fs)).
Proof.
  destruct files as [|fname files]; [by left|right]. split; [done|].
  destruct (v2_to_v3_file_never_returns sel_symbol fname fs) as [e He].
  exists e. simpl. unfold mbind, ST_bind. by rewrite He.
Qed.

Lemma v2_to_v3_names_unbound sel_symbol data_path names fs :
  let found := concat (glob_recursive data_path <$> names) in
  (found = []
   ∧ for_each (λ name n_frames,
                 for_each (v2_to_v3_file sel_symbol)
                   (glob_recursive data_path name) n_frames)
       names None fs = (inr None, fs))
  ∨ (found ≠ []
     ∧ ∃ e, for_each (λ name n_frames,
                        for_each (v2_to_v3_file sel_symbol)
                          (glob_recursive data_path name) n_frames)
              names None fs = (inl e, fs)).
Proof.
  induction names as [|name names IH]; [by left|].
  cbn [fmap list_fmap concat for_each]. unfold mbind, ST_bind.
  destruct (v2_to_v3_files_unbound sel_symbol
              (glob_recursive data_path name) fs)
    as [[Hnil Hrun]|[Hne [e Hrun]]]; rewrite Hrun.
  - rewrite Hnil. simpl. exact IH.
  - right. split; [|by exists e]. intros [? _]%app_eq_nil. done.
Qed.

(** X12. [dplr_v2_to_v3] never rewrites a file.  It returns normally
    exactly when the data root holds no tensor file of any of the three
    names; with at least one such file it raises at the first one, having
    written nothing. *)
Theorem dplr_v2_to_v3_never_writes (data_path : string)
    (sel_symbol : list string) (fs : npy_files num) :
  (dplr_v2_to_v3 data_path sel_symbol fs).2 = fs
  ∧ ((dplr_v2_to_v3 data_path sel_symbol fs).1 = inr ()
     ↔ glob_recursive data_path "atomic_dipole.npy"
         ++ glob_recursive data_path "atomic_polarizability.npy"
         ++ glob_recursive data_path "wannier_spread.npy" = []).
Proof.
  unfold dplr_v2_to_v3. unfold mbind, ST_bind.
  destruct (v2_to_v3_names_unbound sel_symbol data_path atomic_data_fnames fs)
    as [[Hnil Hrun]|[Hne [e Hrun]]]; rewrite Hrun;
    unfold atomic_data_fnames in *; simpl in Hnil || simpl in Hne;
    rewrite app_nil_r in *.
  - split; [done|]. split; [done|]. by intros _.
  - split; [done|]. split; [done|]. intros Hnil. by destruct Hne.
Qed.

(** The body of [dplr_v3_to_v2] leaves the files as they are or rewrites
    the one it was given. *)
Lemma v3_to_v2_file_state sel_symbol fname fs :
  (v3_to_v2_file sel_symbol fname fs).2 = fs
  ∨ ∃ a, (v3_to_v2_file sel_symbol fname fs).2 = <[fname := a]> fs.
Proof.
  unfold v3_to_v2_file, mbind, ST_bind, ST_lift, np_load, np_save.
  destruct (load_sel_ids fname sel_symbol) as [e|[sel_ids n_atoms]];
    [by left|].
  destruct (fs !! fname) as [raw|]; [|by left].
  destruct (reshape_3d _ _ _) as [e|r]; [by left|].
  destruct (mapM _ r) as [e|selected]; [by left|].
  destruct (reshape_2d selected) as [e|out]; [by left|].
  right. by eexists.
Qed.

(** X13. [dplr_v3_to_v2] changes no file but those that the three
    searches under the data root return, whether it returns or raises. *)
Theorem dplr_v3_to_v2_touches_found_files_only (data_path : string)
    (sel_symbol : list string) (fs : npy_files num) (path : string) :
  path ∉ glob_recursive data_path "atomic_dipole.npy"
         ++ glob_recursive data_path "atomic_polarizability.npy"
         ++ glob_recursive data_path "wannier_spread.npy" →
  (dplr_v3_to_v2 data_path sel_symbol fs).2 !! path = fs !! path.
Proof.
  intros Hpath. unfold dplr_v3_to_v2.
  apply (for_each_state (λ fs', fs' !! path = fs !! path)); [done|].
  intros name [] fs1 Hname Hfs1.
  apply (for_each_state (λ fs', fs' !! path = fs !! path)); [done|].
  intros fname [] fs2 Hfname Hfs2.
  assert (Hne : fname ≠ path).
  { intros ->. apply Hpath. unfold atomic_data_fnames in Hname.
    rewrite !elem_of_app.
    apply elem_of_cons in Hname as [->|Hname]; [by left|].
    apply elem_of_cons in Hname as [->|Hname]; [right; by left|].
    apply list_elem_of_singleton in Hname as ->. right; by right. }
  destruct (v3_to_v2_file_state sel_symbol fname fs2) as [->|[a ->]];
    [done|]. by rewrite lookup_insert_ne.
Qed.
End reshapers_effects.

Section gather.
Context `{Num num} `{!FileSystem num}.

(** X14. Let the sibling metadata files be read and the selection be
    computed from them (a 0-d [type_map] or [type] array makes the body
    raise before that).  On a tensor in the full layout ([n_atoms] rows of
    [dim] numbers in each of at least one frame) the body of
    [dplr_v3_to_v2] rewrites the file, and only with this: frame by frame,
    the rows of the selected atoms, in the order of their indices, laid end
    to end. *)
Theorem v3_to_v2_file_gathers_selected_rows (fname : string)
    (sel_symbol : list string) (sel_ids : list nat) (n_atoms dim : nat)
    (full : list (list (list num))) (fs : npy_files num) :
  load_sel_ids fname sel_symbol = inr (sel_ids, n_atoms) →
  n_atoms ≠ 0 → full ≠ [] →
  Forall (λ frame, length frame = n_atoms
                   ∧ Forall (λ row, length row = dim) frame) full →
  fs !! fname = Some ((λ frame, concat frame) <$> full) →
  ∃ compact,
    v3_to_v2_file sel_symbol fname fs = (inr (), <[fname := compact]> fs)
    ∧ length compact = length full
    ∧ ∀ f frame, full !! f = Some frame →
        ∃ rows, compact !! f = Some (concat rows)
                ∧ length rows = length sel_ids
                ∧ length (concat rows) = length sel_ids * dim
                ∧ ∀ k i, sel_ids !! k = Some i → rows !! k = frame !! i.
Proof.
  intros Hmeta Hatoms Hfull Hshape Hfile.
  pose proof (load_sel_ids_spec _ _ _ _ Hmeta) as Hlt.
  destruct (mapM_res_total (λ frame, np_take_nat frame sel_ids) full)
    as [selected Hmap].
  { eapply Forall_impl; [exact Hshape|]. simpl. intros frame [Hl _].
    apply np_take_nat_total. by rewrite Hl. }
  pose proof (proj1 (mapM_res_inr _ _ _) Hmap) as Hsel2.
  assert (Hlen : length selected = length full).
  { symmetry. by eapply Forall2_length. }
  exists ((λ rows : list (list num), concat rows) <$> selected).
  split; [|split; [by rewrite length_fmap|]].
  - unfold v3_to_v2_file.
    erewrite run_bind by (unfold ST_lift; by rewrite Hmeta). cbv beta iota.
    erewrite run_bind by (unfold np_load; by rewrite Hfile).
    erewrite run_bind.
    2:{ unfold ST_lift. rewrite length_fmap.
        by rewrite (reshape_3d_concat full n_atoms dim). }
    erewrite run_bind by (unfold ST_lift; by rewrite Hmap).
    erewrite run_bind.
    2:{ unfold ST_lift, reshape_2d. destruct selected; [|done].
        by destruct full. }
    done.
  - intros f frame Hf.
    destruct (Forall2_lookup_l _ _ _ _ _ Hsel2 Hf) as (rows & Hrows & Htake).
    destruct (np_take_nat_lookup _ _ _ Htake) as [Hl Hlook].
    exists rows. split; [by rewrite list_lookup_fmap, Hrows|].
    split; [done|]. split; [|intros k i Hk; by destruct (Hlook k i Hk)].
    rewrite (concat_length_const _ dim), Hl; [done|].
    apply Forall_lookup. intros k row Hk.
    destruct (lookup_lt_is_Some_2 sel_ids k) as [i Hi].
    { rewrite <- Hl. by eapply lookup_lt_Some. }
    destruct (Hlook k i Hi) as [Heq _]. rewrite Hk in Heq.
    pose proof (proj1 (Forall_lookup _ _) Hshape f frame Hf) as [_ Hrow].
    by eapply (proj1 (Forall_lookup _ _) Hrow i).
Qed.
End gather.

(** ** [dump_dplr_lammps_data] on any structure *)

Lemma py_getitem_out_of_range {A} (a : list A) (i : Z) :
  ¬ valid_index (length a) i → py_getitem a i = inl IndexError.
Proof.
  unfold py_getitem, valid_index. intros Hbad.
  destruct (i <? 0)%Z eqn:Hneg;
    [apply Z.ltb_lt in Hneg|apply Z.ltb_ge in Hneg];
    (destruct (_ && _) eqn:Hin; [|done]);
    apply andb_true_iff in Hin as [H1%Z.leb_le H2%Z.ltb_lt]; lia.
Qed.

Lemma map_add_seq (k n : nat) : map (λ i, i + k) (seq 0 n) = seq k n.
Proof.
  transitivity (Nat.add k <$> seq 0 n); [apply map_ext; intros i; lia|].
  by rewrite fmap_add_seq, Nat.add_0_r.
Qed.

Lemma get_unused_symbols_fresh_NoDup (used : list string) (size : Z) :
  NoDup used → NoDup (used ++ get_unused_symbols used size).
Proof.
  intros Hused. destruct (get_unused_symbols_take used size) as [k ->].
  assert (Htbl : NoDup (reverse chemical_symbols)).
  { rewrite reverse_Permutation. apply chemical_symbols_NoDup. }
  revert Htbl. generalize (reverse chemical_symbols). intros tbl Htbl.
  apply NoDup_app. split; [done|]. split.
  - intros s Hs Hin.
    eapply elem_of_prefix in Hin; [|apply prefix_take].
    by apply list_elem_of_filter in Hin as [? _].
  - assert (Hnd : NoDup (filter (λ s, s ∉ used) tbl))
      by (by apply NoDup_filter).
    rewrite <- (take_drop k (filter (λ s, s ∉ used) tbl)) in Hnd.
    by apply NoDup_app in Hnd as [? _].
Qed.

(** *** The lists that the loops build *)

Section builder_lists.
Context `{Num num}.
Implicit Types (a b : Atoms num).

Lemma symbols_eq_length a s : length (symbols_eq a s) = length a.
Proof. unfold symbols_eq. by rewrite length_map. Qed.

Lemma symbols_eq_lookup a s i x :
  a !! i = Some x → symbols_eq a s !! i = Some (bool_decide (symbol x = s)).
Proof. intros Hx. unfold symbols_eq. by rewrite list_lookup_fmap, Hx. Qed.

Lemma virtual_atoms_length a sym vtype :
  length (virtual_atoms a sym vtype)
  = length (mask_select a (symbols_eq a sym)).
Proof. unfold virtual_atoms. by rewrite length_fmap. Qed.

Lemma real_atom_ids_cons a sym vtype pairs :
  real_atom_ids a ((sym, vtype) :: pairs)
  = np_where (symbols_eq a sym) ++ real_atom_ids a pairs.
Proof. done. Qed.

Lemma all_virtual_atoms_cons a sym vtype pairs :
  all_virtual_atoms a ((sym, vtype) :: pairs)
  = virtual_atoms a sym vtype ++ all_virtual_atoms a pairs.
Proof. done. Qed.

(** One pass of the first loop: the virtual atoms stand, in order, at the
    places of the atoms of the symbol. *)
Lemma virtual_pass a sym vt :
  Forall2 (λ vx r, ∃ x, a !! r = Some x ∧ symbol x = sym
                        ∧ vx = mkAtom vt (position x))
    (virtual_atoms a sym vt) (np_where (symbols_eq a sym)).
Proof.
  pose proof (mask_select_where a (symbols_eq a sym) (symbols_eq_length a sym))
    as Hsel.
  unfold virtual_atoms. apply Forall2_fmap_l.
  apply Forall2_same_length_lookup. split; [by eapply Forall2_length|].
  intros i x r Hx Hr. simpl.
  pose proof (Forall2_lookup_lr _ _ _ _ _ _ Hsel Hx Hr) as Har.
  simpl in Har. exists x. split; [done|]. split; [|done].
  assert (Hin : r ∈ np_where (symbols_eq a sym))
    by (by eapply list_elem_of_lookup_2).
  apply np_where_elem in Hin. rewrite (symbols_eq_lookup _ _ _ _ Har) in Hin.
  injection Hin as Hin. by apply bool_decide_eq_true_1 in Hin.
Qed.

(** All passes: every virtual atom comes from an atom of a selected symbol,
    and every atom of a selected symbol has a virtual atom for each pair
    that names its symbol. *)
Lemma bonded_sound a (pairs : list (string * string)) :
  Forall2 (λ vx r, ∃ x vt, a !! r = Some x ∧ (symbol x, vt) ∈ pairs
                           ∧ vx = mkAtom vt (position x))
    (all_virtual_atoms a pairs) (real_atom_ids a pairs).
Proof.
  induction pairs as [|[sym vt] pairs IH]; [constructor|].
  rewrite real_atom_ids_cons, all_virtual_atoms_cons. apply Forall2_app.
  - eapply Forall2_impl; [apply virtual_pass|]. simpl.
    intros vx r (x & Hx & <- & ->). exists x, vt.
    split; [done|]. split; [apply list_elem_of_here|done].
  - eapply Forall2_impl; [apply IH|]. simpl.
    intros vx r (x & vt' & Hx & Hin & ->). exists x, vt'.
    split; [done|]. split; [by apply list_elem_of_further|done].
Qed.

Lemma bonded_complete a (pairs : list (string * string)) r x vt :
  a !! r = Some x → (symbol x, vt) ∈ pairs →
  ∃ k, real_atom_ids a pairs !! k = Some r
       ∧ all_virtual_atoms a pairs !! k = Some (mkAtom vt (position x)).
Proof.
  intros Hx. induction pairs as [|[sym vt'] pairs IH];
    [by intros ?%elem_of_nil|].
  rewrite real_atom_ids_cons, all_virtual_atoms_cons.
  pose proof (virtual_pass a sym vt') as Hpass.
  pose proof (Forall2_length _ _ _ Hpass) as Hlen.
  intros [Heq|Hin]%elem_of_cons.
  - injection Heq as <- <-.
    assert (Hr : r ∈ np_where (symbols_eq a (symbol x))).
    { apply np_where_elem. rewrite (symbols_eq_lookup _ _ _ _ Hx).
      by rewrite bool_decide_eq_true_2. }
    apply list_elem_of_lookup in Hr as [k Hk]. exists k.
    destruct (Forall2_lookup_r _ _ _ _ _ Hpass Hk)
      as (vx & Hvx & x' & Hx' & _ & ->).
    rewrite Hx in Hx'. injection Hx' as <-.
    split; by apply lookup_app_l_Some.
  - destruct (IH Hin) as (k & Hk & Hv).
    exists (length (np_where (symbols_eq a sym)) + k). split.
    + rewrite lookup_app_r by lia. rewrite <- Hk. f_equal. lia.
    + rewrite lookup_app_r by lia. rewrite <- Hv. f_equal. lia.
Qed.

Lemma build_bonds_lookup (rs : list nat) (j k : nat) :
  build_bonds rs (seq j (length rs)) !! k
  = (λ r, (k + 1, 1, r + 1, j + k + 1)) <$> rs !! k.
Proof.
  unfold build_bonds. rewrite list_lookup_imap, lookup_zip_with.
  destruct (rs !! k) as [r|] eqn:Hr; [|done]. simpl.
  rewrite lookup_seq_lt by (by eapply lookup_lt_Some). done.
Qed.

Lemma build_bonds_length (rs : list nat) (j : nat) :
  length (build_bonds rs (seq j (length rs))) = length rs.
Proof.
  unfold build_bonds. rewrite length_imap, length_zip_with, length_seq. lia.
Qed.

(** The second loop, entry by entry. *)
Lemma mask_assign_length {A} (c : list A) (mask : list bool) (q : A) :
  length (mask_assign c mask q) = length c.
Proof.
  revert mask. induction c as [|y c IH]; intros [|m mask]; simpl; [done..|].
  by rewrite IH.
Qed.

Lemma mask_assign_lookup {A} (c : list A) (mask : list bool) (q : A)
    (i : nat) (y : A) (m : bool) :
  c !! i = Some y → mask !! i = Some m →
  mask_assign c mask q !! i = Some (if m then q else y).
Proof.
  revert mask i. induction c as [|y0 c IH]; intros [|m0 mask] [|i];
    simpl; try done.
  - by intros [= ->] [= ->].
  - apply IH.
Qed.

Lemma charges_of_snoc b (pairs : list (string * num)) p :
  charges_of b (pairs ++ [p])
  = mask_assign (charges_of b pairs) (symbols_eq b p.1) p.2.
Proof. unfold charges_of. by rewrite foldl_app. Qed.

Lemma charges_of_length b (pairs : list (string * num)) :
  length (charges_of b pairs) = length b.
Proof.
  induction pairs as [|p pairs IH] using rev_ind.
  - unfold charges_of. simpl. by rewrite length_replicate.
  - by rewrite charges_of_snoc, mask_assign_length.
Qed.

(** The charge of an atom is that of the last entry for its symbol, and
    zero without one. *)
Lemma charges_of_lookup b (pairs : list (string * num)) i x :
  b !! i = Some x →
  (∀ t q, pairs !! t = Some (symbol x, q) →
     (∀ t' q', t < t' → pairs !! t' ≠ Some (symbol x, q')) →
     charges_of b pairs !! i = Some q)
  ∧ ((∀ t q, pairs !! t ≠ Some (symbol x, q)) →
     charges_of b pairs !! i = Some nzero).
Proof.
  intros Hx. induction pairs as [|[s q0] pairs IH] using rev_ind.
  - split; [intros t q Ht; by rewrite lookup_nil in Ht|]. intros _.
    unfold charges_of. simpl. apply lookup_replicate_2.
    by eapply lookup_lt_Some.
  - destruct IH as [IH1 IH2].
    assert (Hstep : charges_of b (pairs ++ [(s, q0)]) !! i
                    = if bool_decide (symbol x = s) then Some q0
                      else charges_of b pairs !! i).
    { rewrite charges_of_snoc. simpl.
      destruct (lookup_lt_is_Some_2 (charges_of b pairs) i) as [y Hy].
      { rewrite charges_of_length. by eapply lookup_lt_Some. }
      rewrite (mask_assign_lookup _ _ _ _ _ _ Hy (symbols_eq_lookup _ _ _ _ Hx)).
      rewrite Hy. by destruct (bool_decide _). }
    rewrite Hstep. split.
    + intros t q Ht Hlater. destruct (decide (t = length pairs)) as [->|Hne].
      * rewrite list_lookup_middle in Ht by done. injection Ht as <- <-.
        by rewrite bool_decide_eq_true_2.
      * assert (Htl : t < length pairs).
        { apply lookup_lt_Some in Ht. rewrite length_app in Ht.
          simpl in Ht. lia. }
        rewrite lookup_app_l in Ht by done.
        rewrite bool_decide_eq_false_2.
        2:{ intros <-. apply (Hlater (length pairs) q0); [done|].
            by rewrite list_lookup_middle. }
        apply (IH1 t q Ht). intros t' q' Hlt Ht'.
        apply (Hlater t' q' Hlt). by apply lookup_app_l_Some.
    + intros Hnone. rewrite bool_decide_eq_false_2.
      2:{ intros <-. apply (Hnone (length pairs) q0).
          by rewrite list_lookup_middle. }
      apply IH2. intros t q Ht. apply (Hnone t q).
      by apply lookup_app_l_Some.
Qed.
End builder_lists.

(** *** Running the builder *)

Section builder_runs.
Context `{Num num}.
Implicit Types (a b : Atoms num) (w : world num).

(** One pass of the loop that adds the virtual atoms, on a store that holds
    the input [a] and the copy [b]. *)
Lemma add_virtual_atoms_step atoms new_atoms type_map atype vtype pairs sym
    a b r v w :
  py_getitem type_map atype = inr sym → new_atoms ≠ atoms →
  heap w !! atoms = Some a → heap w !! new_atoms = Some b →
  ∃ w1,
    add_virtual_atoms atoms new_atoms type_map ((atype, vtype) :: pairs) r v w
    = add_virtual_atoms atoms new_atoms type_map pairs
        (r ++ np_where (symbols_eq a sym))
        (v ++ seq (length b) (length (virtual_atoms a sym vtype))) w1
    ∧ heap w1 !! atoms = Some a
    ∧ heap w1 !! new_atoms = Some (b ++ virtual_atoms a sym vtype)
    ∧ files w1 = files w.
Proof.
  intros Hsym Hne Ha Hb. cbn [add_virtual_atoms].
  erewrite run_bind by (unfold ST_lift; by rewrite Hsym).
  erewrite run_bind by (by eapply atoms_symbols_eq_run).
  erewrite run_bind
    by (eapply atoms_getitem_mask_run; [done|by rewrite symbols_eq_length]).
  set (l2 := fresh (dom (heap w))).
  assert (Hl2a : l2 ≠ atoms) by (by eapply fresh_loc_ne).
  assert (Hl2n : l2 ≠ new_atoms) by (by eapply fresh_loc_ne).
  clearbody l2.
  erewrite run_bind by (eapply atoms_len_run; simpl; apply lookup_insert_eq).
  erewrite run_bind
    by (eapply set_chemical_symbols_run;
        [simpl; apply lookup_insert_eq|by rewrite length_replicate]).
  rewrite zip_with_replicate_l by done.
  fold (virtual_atoms a sym vtype).
  erewrite run_bind
    by (eapply atoms_symbols_eq_run; simpl;
        by rewrite !lookup_insert_ne by done).
  erewrite run_bind by (eapply atoms_len_run; simpl; apply lookup_insert_eq).
  erewrite run_bind
    by (eapply atoms_len_run; simpl; by rewrite !lookup_insert_ne by done).
  erewrite run_bind
    by (eapply atoms_iadd_run; simpl;
        [by rewrite !lookup_insert_ne by done|apply lookup_insert_eq]).
  rewrite map_add_seq.
  eexists. split; [reflexivity|]. simpl.
  split; [by rewrite !lookup_insert_ne by done|].
  split; [by rewrite lookup_insert_eq|done].
Qed.

(** The whole loop: the selected types are visited as long as there are
    virtual symbols for them. *)
Lemma add_virtual_atoms_run atoms new_atoms type_map sel_type syms a :
  Forall2 (λ atype sym, py_getitem type_map atype = inr sym) sel_type syms →
  new_atoms ≠ atoms →
  ∀ vtypes b r v w,
    heap w !! atoms = Some a → heap w !! new_atoms = Some b →
    ∃ w',
      add_virtual_atoms atoms new_atoms type_map (zip sel_type vtypes) r v w
      = (inr (r ++ real_atom_ids a (zip syms vtypes),
              v ++ seq (length b)
                     (length (all_virtual_atoms a (zip syms vtypes)))), w')
      ∧ heap w' !! new_atoms = Some (b ++ all_virtual_atoms a (zip syms vtypes))
      ∧ heap w' !! atoms = Some a
      ∧ files w' = files w.
Proof.
  intros HF Hne. induction HF as [|atype sym sel_type syms Hsym _ IH];
    intros vtypes b r v w Ha Hb.
  { exists w. simpl. by rewrite !app_nil_r. }
  destruct vtypes as [|vtype vtypes].
  { exists w. simpl. by rewrite !app_nil_r. }
  cbn [zip_with].
  destruct (add_virtual_atoms_step atoms new_atoms type_map atype vtype
              (zip sel_type vtypes) sym a b r v w Hsym Hne Ha Hb)
    as (w1 & -> & Ha1 & Hb1 & Hf1).
  destruct (IH vtypes _ (r ++ np_where (symbols_eq a sym))
              (v ++ seq (length b) (length (virtual_atoms a sym vtype)))
              w1 Ha1 Hb1)
    as (w' & -> & Hnew & Hatoms & Hfiles).
  exists w'. rewrite real_atom_ids_cons, all_virtual_atoms_cons.
  split; [|split; [by rewrite Hnew, <- app_assoc|split; [done|]]];
    [|by rewrite Hfiles].
  do 3 f_equal; [by rewrite <- app_assoc|].
  rewrite <- app_assoc. f_equal.
  by rewrite !length_app, seq_app.
Qed.

(** The loop stops at the first selected type that is no index of
    [type_map], if it gets there. *)
Lemma add_virtual_atoms_raises atoms new_atoms type_map a :
  new_atoms ≠ atoms →
  ∀ sel_type vtypes k t b r v w,
    sel_type !! k = Some t → ¬ valid_index (length type_map) t →
    k < length vtypes →
    heap w !! atoms = Some a → heap w !! new_atoms = Some b →
    ∃ w',
      add_virtual_atoms atoms new_atoms type_map (zip sel_type vtypes) r v w
      = (inl IndexError, w')
      ∧ files w' = files w.
Proof.
  intros Hne. induction sel_type as [|t0 sel_type IH];
    intros vtypes k t b r v w Hk Hbad Hlt Ha Hb; [done|].
  destruct vtypes as [|vt vtypes]; [simpl in Hlt; lia|]. cbn [zip_with].
  destruct (py_getitem type_map t0) as [e|sym] eqn:Hsym.
  - destruct (py_getitem_inl _ _ _ Hsym) as [-> _]. exists w.
    split; [|done]. cbn [add_virtual_atoms].
    unfold mbind, ST_bind, ST_lift. by rewrite Hsym.
  - destruct k as [|k].
    { simpl in Hk. injection Hk as <-.
      by rewrite (py_getitem_out_of_range _ _ Hbad) in Hsym. }
    destruct (add_virtual_atoms_step atoms new_atoms type_map t0 vt
                (zip sel_type vtypes) sym a b r v w Hsym Hne Ha Hb)
      as (w1 & -> & Ha1 & Hb1 & Hf1).
    assert (Hlt' : k < length vtypes) by (simpl in Hlt; lia).
    destruct (IH vtypes k t _ (r ++ np_where (symbols_eq a sym))
                (v ++ seq (length b) (length (virtual_atoms a sym vt)))
                w1 Hk Hbad Hlt' Ha1 Hb1)
      as (w' & -> & Hf).
    exists w'. split; [done|]. by rewrite Hf.
Qed.

(** The loop that builds the charges reads the symbols of one object that
    it does not change. *)
Lemma build_charges_run new_atoms pairs charges b w :
  heap w !! new_atoms = Some b →
  build_charges new_atoms pairs charges w
  = (inr (foldl (λ charges p, mask_assign charges (symbols_eq b p.1) p.2)
            charges pairs), w).
Proof.
  intros Hb. revert charges.
  induction pairs as [|[atype charge] pairs IH]; intros charges; simpl;
    [done|].
  erewrite run_bind by (by eapply atoms_symbols_eq_run). apply IH.
Qed.

(** Everything [dplr_lammps_build] computes, once the lengths agree and
    every selected type is an index of [type_map]. *)
Lemma dplr_lammps_build_run atoms type_map sel_type sys_charge_map
    model_charge_map syms a w :
  heap w !! atoms = Some a →
  length type_map = length sys_charge_map →
  length sel_type = length model_charge_map →
  np_take type_map sel_type = inr syms →
  let vtypes := get_unused_symbols type_map (Z.of_nat (length sel_type)) in
  let pairs := zip syms vtypes in
  let b := a ++ all_virtual_atoms a pairs in
  ∃ new_atoms w',
    dplr_lammps_build atoms type_map sel_type sys_charge_map
      model_charge_map w
    = (inr (new_atoms,
            charges_of b (zip (type_map ++ vtypes)
                            (sys_charge_map ++ model_charge_map)),
            build_bonds (real_atom_ids a pairs)
              (seq (length a) (length (all_virtual_atoms a pairs))),
            type_map ++ vtypes), w')
    ∧ new_atoms ≠ atoms
    ∧ heap w' !! new_atoms = Some b
    ∧ heap w' !! atoms = Some a
    ∧ files w' = files w.
Proof.
  intros Ha Hsys Hmodel Hsyms vtypes pairs b.
  apply mapM_res_inr in Hsyms.
  unfold dplr_lammps_build.
  rewrite (bool_decide_eq_true_2 _ Hsys), (bool_decide_eq_true_2 _ Hmodel).
  cbn [negb].
  erewrite run_bind by (by apply atoms_copy_run).
  set (l1 := fresh (dom (heap w))).
  assert (Hl1 : l1 ≠ atoms) by (by eapply fresh_loc_ne).
  clearbody l1.
  match goal with
  | |- ∃ n w', (add_virtual_atoms _ _ _ _ _ _ ≫= _) ?w1 = _ ∧ _ =>
      destruct (add_virtual_atoms_run atoms l1 type_map sel_type syms a
                  Hsyms Hl1 vtypes a [] [] w1)
        as (w2 & Hrun & Hnew & Hatoms & Hfiles)
  end.
  { simpl. by rewrite lookup_insert_ne. }
  { simpl. by rewrite lookup_insert_eq. }
  fold vtypes. erewrite run_bind by exact Hrun. cbv beta iota.
  erewrite run_bind by (by eapply atoms_len_run).
  erewrite run_bind by (by eapply build_charges_run).
  exists l1, w2. split; [done|]. by simpl in Hfiles.
Qed.

(** A selected type that is no index of [type_map] stops the builder, if
    the loop gets to it. *)
Lemma dplr_lammps_build_raises atoms type_map sel_type sys_charge_map
    model_charge_map a w k t :
  heap w !! atoms = Some a →
  length type_map = length sys_charge_map →
  length sel_type = length model_charge_map →
  sel_type !! k = Some t → ¬ valid_index (length type_map) t →
  k < length (get_unused_symbols type_map (Z.of_nat (length sel_type))) →
  ∃ w',
    dplr_lammps_build atoms type_map sel_type sys_charge_map
      model_charge_map w = (inl IndexError, w')
    ∧ files w' = files w.
Proof.
  intros Ha Hsys Hmodel Hk Hbad.
  unfold dplr_lammps_build.
  generalize (get_unused_symbols type_map (Z.of_nat (length sel_type))).
  intros vtypes Hlt.
  rewrite (bool_decide_eq_true_2 _ Hsys), (bool_decide_eq_true_2 _ Hmodel).
  cbn [negb].
  erewrite run_bind by (by apply atoms_copy_run).
  set (l1 := fresh (dom (heap w))).
  assert (Hl1 : l1 ≠ atoms) by (by eapply fresh_loc_ne).
  clearbody l1.
  match goal with
  | |- ∃ w', (add_virtual_atoms _ _ _ _ _ _ ≫= _) ?w1 = _ ∧ _ =>
      destruct (add_virtual_atoms_raises atoms l1 type_map a Hl1 sel_type
                  vtypes k t a [] [] w1 Hk Hbad Hlt)
        as (w2 & Hrun & Hfiles)
  end.
  { simpl. by rewrite lookup_insert_ne. }
  { simpl. by rewrite lookup_insert_eq. }
  exists w2. split; [|by simpl in Hfiles].
  unfold mbind at 1, ST_bind at 1. by rewrite Hrun.
Qed.
End builder_runs.

(** *** What the serializer is given *)

Section dump_results.
Context `{Num num}.
Variable LammpsData_write :
  string → Atoms num → list num → list bond → list string →
  res unit * string * Atoms num.
Implicit Types (a b : Atoms num) (w : world num).

(** X15. On a valid input with a [type_map] of element symbols the builder
    hands to the serializer the input atoms followed by the virtual atoms,
    and one bond per virtual atom: bond [k] (numbered [k + 1], of type 1)
    joins a real atom of a selected symbol with virtual atom [k], which
    stands at the real atom's position and carries the virtual symbol
    paired with that symbol.  Conversely,
    every atom of a selected symbol is bonded to such a virtual atom for
    each pair that names its symbol.  Nothing has been written to a file
    when the serializer is called. *)
Theorem dump_bonds_virtual_atoms_to_their_atoms (fp atoms : loc)
    (type_map : list string) (sel_type : list Z)
    (sys_charge_map model_charge_map : list num) (syms : list string)
    a w :
  element_symbols type_map →
  heap w !! atoms = Some a →
  length type_map = length sys_charge_map →
  length sel_type = length model_charge_map →
  np_take type_map sel_type = inr syms →
  let vtypes := get_unused_symbols type_map (Z.of_nat (length sel_type)) in
  ∃ new_atoms charges bonds virt w',
    dump_dplr_lammps_data LammpsData_write fp atoms type_map sel_type
      sys_charge_map model_charge_map w
    = lammps_write LammpsData_write fp new_atoms charges bonds
        (type_map ++ vtypes) w'
    ∧ new_atoms ≠ atoms
    ∧ heap w' !! new_atoms = Some (a ++ virt)
    ∧ files w' = files w
    ∧ length bonds = length virt
    ∧ (∀ k bd, bonds !! k = Some bd →
         ∃ r x vt,
           bd = (k + 1, 1, r + 1, length a + k + 1)
           ∧ a !! r = Some x
           ∧ (symbol x, vt) ∈ zip syms vtypes
           ∧ virt !! k = Some (mkAtom vt (position x)))
    ∧ (∀ r x vt,
         a !! r = Some x → (symbol x, vt) ∈ zip syms vtypes →
         ∃ k, bonds !! k = Some (k + 1, 1, r + 1, length a + k + 1)
              ∧ virt !! k = Some (mkAtom vt (position x))).
Proof.
  intros _ Ha Hsys Hmodel Hsyms.
  pose proof (dplr_lammps_build_run atoms type_map sel_type sys_charge_map
                model_charge_map syms a w Ha Hsys Hmodel Hsyms) as Hrun.
  cbv zeta in Hrun |- *. revert Hrun.
  generalize (get_unused_symbols type_map (Z.of_nat (length sel_type))).
  intros vtypes (new_atoms & w' & Hbuild & Hne & Hnew & _ & Hfiles).
  set (pairs := zip syms vtypes) in *.
  pose proof (bonded_sound a pairs) as Hsound.
  pose proof (Forall2_length _ _ _ Hsound) as Hlen.
  rewrite Hlen in Hbuild.
  eexists new_atoms, _, _, (all_virtual_atoms a pairs), w'.
  split.
  { unfold dump_dplr_lammps_data. by erewrite run_bind by exact Hbuild. }
  split; [done|]. split; [done|]. split; [done|].
  split; [by rewrite build_bonds_length|]. split.
  - intros k bd Hk. rewrite build_bonds_lookup in Hk.
    destruct (real_atom_ids a pairs !! k) as [r|] eqn:Hr; [|done].
    injection Hk as <-.
    destruct (Forall2_lookup_r _ _ _ _ _ Hsound Hr)
      as (vx & Hvx & x & vt & Hx & Hin & ->).
    by exists r, x, vt.
  - intros r x vt Hx Hin.
    destruct (bonded_complete a pairs r x vt Hx Hin) as (k & Hk & Hv).
    exists k. split; [|done]. by rewrite build_bonds_lookup, Hk.
Qed.

(** X16. For a [type_map] of element symbols, the charges handed to the
    serializer, atom by atom of the new structure: an atom has the charge
    of the last entry for its symbol in
    [zip(type_map + vtypes, sys_charge_map + model_charge_map)], so that a
    later entry for a symbol overrides an earlier one, and the charge zero
    when no entry names its symbol. *)
Theorem dump_charges_last_entry_wins (fp atoms : loc)
    (type_map : list string) (sel_type : list Z)
    (sys_charge_map model_charge_map : list num) (syms : list string)
    a w :
  element_symbols type_map →
  heap w !! atoms = Some a →
  length type_map = length sys_charge_map →
  length sel_type = length model_charge_map →
  np_take type_map sel_type = inr syms →
  let vtypes := get_unused_symbols type_map (Z.of_nat (length sel_type)) in
  let entries := zip (type_map ++ vtypes)
                   (sys_charge_map ++ model_charge_map) in
  ∃ new_atoms charges bonds b w',
    dump_dplr_lammps_data LammpsData_write fp atoms type_map sel_type
      sys_charge_map model_charge_map w
    = lammps_write LammpsData_write fp new_atoms charges bonds
        (type_map ++ vtypes) w'
    ∧ heap w' !! new_atoms = Some b
    ∧ length charges = length b
    ∧ ∀ i x, b !! i = Some x →
        (∀ t q, entries !! t = Some (symbol x, q) →
           (∀ t' q', t < t' → entries !! t' ≠ Some (symbol x, q')) →
           charges !! i = Some q)
        ∧ ((∀ t q, entries !! t ≠ Some (symbol x, q)) →
           charges !! i = Some nzero).
Proof.
  intros _ Ha Hsys Hmodel Hsyms.
  pose proof (dplr_lammps_build_run atoms type_map sel_type sys_charge_map
                model_charge_map syms a w Ha Hsys Hmodel Hsyms) as Hrun.
  cbv zeta in Hrun |- *. revert Hrun.
  generalize (get_unused_symbols type_map (Z.of_nat (length sel_type))).
  intros vtypes (new_atoms & w' & Hbuild & Hne & Hnew & _ & Hfiles).
  eexists new_atoms, _, _, _, w'.
  split.
  { unfold dump_dplr_lammps_data. by erewrite run_bind by exact Hbuild. }
  split; [exact Hnew|]. split; [by rewrite charges_of_length|].
  intros i x Hx. by apply charges_of_lookup.
Qed.

(** X17. With a [type_map] of element symbols without repetition the
    charges are those of the types: an atom whose symbol is entry [t] of
    [type_map] has the charge [sys_charge_map[t]], an atom whose symbol is
    the virtual symbol [j] has the charge [model_charge_map[j]], and an
    atom of any other symbol has the charge zero. *)
Theorem dump_charges_by_type (fp atoms : loc)
    (type_map : list string) (sel_type : list Z)
    (sys_charge_map model_charge_map : list num) (syms : list string)
    a w :
  element_symbols type_map →
  heap w !! atoms = Some a →
  length type_map = length sys_charge_map →
  length sel_type = length model_charge_map →
  np_take type_map sel_type = inr syms →
  NoDup type_map →
  let vtypes := get_unused_symbols type_map (Z.of_nat (length sel_type)) in
  ∃ new_atoms charges bonds b w',
    dump_dplr_lammps_data LammpsData_write fp atoms type_map sel_type
      sys_charge_map model_charge_map w
    = lammps_write LammpsData_write fp new_atoms charges bonds
        (type_map ++ vtypes) w'
    ∧ heap w' !! new_atoms = Some b
    ∧ ∀ i x, b !! i = Some x →
        (∀ t q, type_map !! t = Some (symbol x) →
                sys_charge_map !! t = Some q → charges !! i = Some q)
        ∧ (∀ j q, vtypes !! j = Some (symbol x) →
                  model_charge_map !! j = Some q → charges !! i = Some q)
        ∧ (symbol x ∉ type_map ++ vtypes → charges !! i = Some nzero).
Proof.
  intros _ Ha Hsys Hmodel Hsyms Hnd.
  pose proof (dplr_lammps_build_run atoms type_map sel_type sys_charge_map
                model_charge_map syms a w Ha Hsys Hmodel Hsyms) as Hrun.
  pose proof (get_unused_symbols_fresh_NoDup type_map
                (Z.of_nat (length sel_type)) Hnd) as Hkeys.
  cbv zeta in Hrun |- *. revert Hrun Hkeys.
  generalize (get_unused_symbols type_map (Z.of_nat (length sel_type))).
  intros vtypes (new_atoms & w' & Hbuild & Hne & Hnew & _ & Hfiles) Hkeys.
  eexists new_atoms, _, _, _, w'.
  split.
  { unfold dump_dplr_lammps_data. by erewrite run_bind by exact Hbuild. }
  split; [exact Hnew|].
  intros i x Hx.
  match goal with
  | |- context [charges_of ?b ?entries] =>
      destruct (charges_of_lookup b entries i x Hx) as [Hlast Hnone]
  end.
  assert (Hkey : ∀ t q,
    (type_map ++ vtypes) !! t = Some (symbol x) →
    (sys_charge_map ++ model_charge_map) !! t = Some q →
    charges_of (a ++ all_virtual_atoms a (zip syms vtypes))
      (zip (type_map ++ vtypes) (sys_charge_map ++ model_charge_map)) !! i
    = Some q).
  { intros t q Hk Hv. apply (Hlast t q).
    - by rewrite lookup_zip_with, Hk, Hv.
    - intros t' q' Hlt Ht'.
      apply lookup_zip_with_Some in Ht' as (s' & q'' & Heq & Hk' & _).
      injection Heq as <- <-.
      pose proof (NoDup_lookup _ _ _ _ Hkeys Hk Hk'). lia. }
  split; [|split].
  - intros t q Ht Hq. apply (Hkey t q); by apply lookup_app_l_Some.
  - intros j q Hj Hq. apply (Hkey (length type_map + j) q).
    + rewrite lookup_app_r by lia. rewrite <- Hj. f_equal. lia.
    + rewrite Hsys. rewrite lookup_app_r by lia. rewrite <- Hq. f_equal. lia.
  - intros Hnot. apply Hnone. intros t q Ht.
    apply lookup_zip_with_Some in Ht as (s' & q'' & Heq & Hk' & _).
    injection Heq as <- <-. apply Hnot. by eapply list_elem_of_lookup_2.
Qed.

(** X18. For a [type_map] of element symbols, a selected type that is no
    index of [type_map] makes [dump_dplr_lammps_data] raise [IndexError],
    provided the loop gets to it (it stops when the virtual symbols run
    out); the serializer is not called and no file is written. *)
Theorem dump_bad_selected_type_raises_IndexError (fp atoms : loc)
    (type_map : list string) (sel_type : list Z)
    (sys_charge_map model_charge_map : list num) a w (k : nat) (t : Z) :
  element_symbols type_map →
  heap w !! atoms = Some a →
  length type_map = length sys_charge_map →
  length sel_type = length model_charge_map →
  sel_type !! k = Some t →
  ¬ valid_index (length type_map) t →
  k < length (get_unused_symbols type_map (Z.of_nat (length sel_type))) →
  ∃ w',
    dump_dplr_lammps_data LammpsData_write fp atoms type_map sel_type
      sys_charge_map model_charge_map w = (inl IndexError, w')
    ∧ files w' = files w.
Proof.
  intros _ Ha Hsys Hmodel Hk Hbad Hlt.
  destruct (dplr_lammps_build_raises atoms type_map sel_type sys_charge_map
              model_charge_map a w k t Ha Hsys Hmodel Hk Hbad Hlt)
    as (w' & Hbuild & Hfiles).
  exists w'. split; [|done].
  unfold dump_dplr_lammps_data, mbind, ST_bind. by rewrite Hbuild.
Qed.

(** X19. For a [type_map] of element symbols and no selected type, the
    request for zero unused symbols is answered by [get_unused_symbols]
    with all of them, unless [Og] is in [type_map]: the serializer is given a copy of the input, no bond, and a
    species order of [type_map] followed by every other symbol of the
    element table, read backwards. *)
Theorem dump_empty_selection_lists_unused_symbols (fp atoms : loc)
    (type_map : list string) (sys_charge_map : list num) a w :
  element_symbols type_map →
  heap w !! atoms = Some a →
  length type_map = length sys_charge_map →
  ∃ new_atoms charges w',
    dump_dplr_lammps_data LammpsData_write fp atoms type_map [] sys_charge_map
      [] w
    = lammps_write LammpsData_write fp new_atoms charges []
        (type_map
         ++ (if bool_decide ("Og" ∈ type_map) then []
             else filter (λ s, s ∉ type_map) (reverse chemical_symbols))) w'
    ∧ new_atoms ≠ atoms
    ∧ heap w' !! new_atoms = Some a
    ∧ length charges = length a
    ∧ files w' = files w.
Proof.
  intros _ Ha Hsys.
  assert (Hsyms : np_take type_map [] = inr []) by done.
  pose proof (dplr_lammps_build_run atoms type_map [] sys_charge_map [] [] a w
                Ha Hsys eq_refl Hsyms) as Hrun.
  cbv zeta in Hrun.
  change (Z.of_nat (length (@nil Z))) with 0%Z in Hrun.
  rewrite get_unused_symbols_zero in Hrun. revert Hrun.
  generalize (if bool_decide ("Og" ∈ type_map) then []
              else filter (λ s, s ∉ type_map) (reverse chemical_symbols)).
  intros vtypes (new_atoms & w' & Hbuild & Hne & Hnew & _ & Hfiles).
  cbn [zip_with all_virtual_atoms real_atom_ids fmap list_fmap concat
       length seq] in Hbuild, Hnew.
  rewrite app_nil_r in Hbuild, Hnew.
  eexists new_atoms, _, w'.
  split.
  { unfold dump_dplr_lammps_data. by erewrite run_bind by exact Hbuild. }
  split; [done|]. split; [done|]. split; [by rewrite charges_of_length|done].
Qed.
End dump_results.

(** * The claims on the worked example *)

Import Example.

Lemma C7_builder_on_two_waters_witness :
  heap the_world !! 0 = Some two_waters
  ∧ ∃ new_atoms w',
      dplr_lammps_build 0 ["O"; "H"] [0%Z] [6; 1]%Z [-8]%Z the_world
      = (inr (new_atoms, [6; 6; 1; 1; 1; 1; -8; -8]%Z,
              [(1, 1, 1, 7); (2, 1, 2, 8)], ["O"; "H"; "Og"]), w')
      ∧ heap w' !! new_atoms
        = Some (two_waters
                ++ [mkAtom "Og" (0, 0, 0); mkAtom "Og" (50, 50, 50)]%Z)
      ∧ dump_dplr_lammps_data write_stub 0 0
          ["O"; "H"] [0%Z] [6; 1]%Z [-8]%Z the_world
        = lammps_write write_stub 0 new_atoms
            [6; 6; 1; 1; 1; 1; -8; -8]%Z [(1, 1, 1, 7); (2, 1, 2, 8)]
            ["O"; "H"; "Og"] w'.
Proof.
  split; [reflexivity|].
  apply (C7_builder_on_two_waters write_stub 0 0 the_world
           (0, 0, 0)%Z (50, 50, 50)%Z (10, 0, 0)%Z (0, 10, 0)%Z
           (60, 50, 50)%Z (50, 60, 50)%Z).
  reflexivity.
Defined.

Lemma C8_length_mismatch_raised_first_witness :
  (length ["O"; "H"] ≠ length [6%Z] ∨ length [0%Z] ≠ length [(-8)%Z])
  ∧ ∃ e, (e = sys_charge_map_length ∨ e = model_charge_map_length)
         ∧ dump_dplr_lammps_data write_stub 0 0 ["O"; "H"] [0%Z] [6%Z]
             [(-8)%Z] the_world = (inl (ValueError e), the_world).
Proof.
  assert (Hlen : length ["O"; "H"] ≠ length [6%Z]
                 ∨ length [0%Z] ≠ length [(-8)%Z]) by (left; simpl; lia).
  split; [exact Hlen|].
  exact (C8_length_mismatch_raised_first write_stub 0 0 ["O"; "H"] [0%Z]
           [6%Z] [(-8)%Z] the_world Hlen).
Defined.

Lemma C10_dump_keeps_input_atoms_witness :
  heap the_world !! 0 = Some two_waters
  ∧ heap (dump_dplr_lammps_data write_stub 0 0 ["O"; "H"] [0%Z] [6; 1]%Z
            [-8]%Z the_world).2 !! 0 = Some two_waters.
Proof.
  split; [reflexivity|].
  apply (C10_dump_keeps_input_atoms write_stub 0 0 ["O"; "H"] [0%Z]
           [6; 1]%Z [-8]%Z the_world two_waters).
  reflexivity.
Defined.

Lemma C1_dipole_is_mean_of_four_witness :
  let centres := mask_select water_wannier (symbols_eq water_wannier "X") in
  get_atomic_dipole water [0] centres 10%Z None
  = inr ([(0, 1, 2)%Z],
         [(0, 0, 0); (10, 0, 0); (0, 10, 0); (0, 1, 2)]%Z, [])
  ∧ ∃ c, cells water = [c]
    ∧ length [(0, 1, 2)%Z] = length [0]
    ∧ ∀ ii i, [0] !! ii = Some i →
        ∃ r j1 j2 j3 j4 e1 e2 e3 e4,
          let box := cell_to_cellpar c in
          let d e := minimize_vector box (vsub e r) in
          concat (coords water) !! i = Some r
          ∧ j1 < j2 ∧ j2 < j3 ∧ j3 < j4
          ∧ (position <$> centres) !! j1 = Some e1
          ∧ (position <$> centres) !! j2 = Some e2
          ∧ (position <$> centres) !! j3 = Some e3
          ∧ (position <$> centres) !! j4 = Some e4
          ∧ (∀ j e, (position <$> centres) !! j = Some e →
                    nlt (distance box r e) 10%Z = true
                    ↔ j ∈ [j1; j2; j3; j4])
          ∧ [(0, 1, 2)%Z] !! ii
            = Some (vdiv (vadd (vadd (vadd (d e1) (d e2)) (d e3)) (d e4)) 4).
Proof.
  intros centres.
  assert (Hget : get_atomic_dipole water [0] centres 10%Z None
                 = inr ([(0, 1, 2)%Z],
                        [(0, 0, 0); (10, 0, 0); (0, 10, 0); (0, 1, 2)]%Z, []))
    by (vm_compute; reflexivity).
  split; [exact Hget|].
  exact (C1_dipole_is_mean_of_four water [0] centres 10%Z None
           [(0, 1, 2)%Z] [(0, 0, 0); (10, 0, 0); (0, 10, 0); (0, 1, 2)]%Z []
           Hget).
Defined.



Lemma C3_duplicate_assignment_check_witness :
  let ids := concat (map (λ r, centres_of (cell_to_cellpar box100) 10%Z
                                  (position <$> pair_wannier) r)
                       [(0, 0, 0); (2, 0, 0)]%Z) in
  ids = [0; 1; 2; 3; 0; 1; 2; 3]
  ∧ count_distinct ids < 4 * length [0; 1]
  ∧ get_atomic_dipole pair [0; 1] pair_wannier 10%Z None = inl AssertionError.
Proof.
  intros ids.
  assert (Hlt : count_distinct ids < 4 * length [0; 1])
    by (vm_compute; lia).
  split; [reflexivity|]. split; [exact Hlt|].
  refine (proj1 (proj2 (proj2
    (C3_duplicate_assignment_check pair [0; 1] pair_wannier 10%Z None box100
       None [(0, 0, 0); (2, 0, 0)]%Z _ _ _ _ _))) Hlt).
  - reflexivity.
  - reflexivity.
  - reflexivity.
  - exact I.
  - repeat constructor.
Defined.

Lemma C4_loader_catches_ValueError_only_witness :
  get_atomic_dipole water [0]
    (mask_select water_wannier (symbols_eq water_wannier "X")) 5%Z None
  = inl (ValueError (cutoff_range 0 3))
  ∧ dpdata_read_cp2k_dplr_data "run" "out" "wannier.xyz" ["O"; "H"] [0%Z]
      5%Z None = inr None.
Proof.
  assert (Hget : get_atomic_dipole water [0]
            (mask_select water_wannier (symbols_eq water_wannier "X")) 5%Z
            None = inl (ValueError (cutoff_range 0 3)))
    by (vm_compute; reflexivity).
  split; [exact Hget|].
  refine (proj1 (C4_loader_catches_ValueError_only "run" "out" "wannier.xyz"
                   ["O"; "H"] [0%Z] 5%Z None water water_wannier [0]
                   (ValueError (cutoff_range 0 3)) _ _ _ _ Hget)).
  - reflexivity.
  - reflexivity.
  - reflexivity.
  - reflexivity.
Defined.

(** C4 as stated fails: with two oxygens that share their four centres the
    assignment fails on the duplicate check, and the loader does not return
    [None] but raises the [AssertionError]. *)
Lemma C4_counterexample :
  get_atomic_dipole pair [0; 1]
    (mask_select pair_wannier (symbols_eq pair_wannier "X")) 10%Z None
  = inl AssertionError
  ∧ dpdata_read_cp2k_dplr_data "dup" "out" "wannier.xyz" ["O"; "H"] [0%Z]
      10%Z None = inl AssertionError
  ∧ dpdata_read_cp2k_dplr_data "dup" "out" "wannier.xyz" ["O"; "H"] [0%Z]
      10%Z None ≠ inr None.
Proof.
  split; [by vm_compute|]. split; [by vm_compute|]. by vm_compute.
Qed.

Lemma C5_full_arrays_zero_outside_selection_witness :
  ∃ dp_sys',
    set_dplr_ext_from_cp2k_output water "run/wannier.xyz" ["O"; "H"] [0%Z]
      10%Z (Some "run/spread.out") = inr dp_sys'
    ∧ data_atomic_dipole dp_sys'
      = Some [[(0, 1, 2); (0, 0, 0); (0, 0, 0)]%Z]
    ∧ data_wannier_spread dp_sys'
      = Some [[[21; 22; 23; 24]; [0; 0; 0; 0]; [0; 0; 0; 0]]%Z].
Proof.
  destruct (C5_full_arrays_zero_outside_selection water "run/wannier.xyz"
              ["O"; "H"] [0%Z] 10%Z (Some "run/spread.out") water_wannier
              box100 [(0, 0, 0); (10, 0, 0); (0, 10, 0)]%Z
              (Some [21; 22; 23; 24]%Z) [0])
    as (d & ext & sp & dp_sys' & dframe & _ & _ & Hset & _).
  - reflexivity.
  - reflexivity.
  - reflexivity.
  - reflexivity.
  - reflexivity.
  - reflexivity.
  - reflexivity.
  - intros i r Hi%list_elem_of_singleton Hr. subst i.
    injection Hr as <-. reflexivity.
  - intros i i' r r' j Hi%list_elem_of_singleton Hi'%list_elem_of_singleton.
    intros Hne. destruct Hne. by rewrite Hi, Hi'.
  - exists dp_sys'. split; [exact Hset|].
    assert (Hval : set_dplr_ext_from_cp2k_output water "run/wannier.xyz"
                     ["O"; "H"] [0%Z] 10%Z (Some "run/spread.out")
                   = inr (mkLabeledSystem ["O"; "H"] [0; 1; 1]%Z
                            [[(0, 0, 0); (10, 0, 0); (0, 10, 0)]]%Z [box100]
                            (Some [[(0, 1, 2); (0, 0, 0); (0, 0, 0)]%Z])
                            (Some [[[21; 22; 23; 24]; [0; 0; 0; 0];
                                    [0; 0; 0; 0]]%Z])))
      by (vm_compute; reflexivity).
    rewrite Hval in Hset. injection Hset as <-. split; reflexivity.
Defined.

Lemma C6_v2_to_v3_reads_unbound_n_frames_witness :
  let compact := (dplr_v3_to_v2 "data" ["O"] the_npy).2 in
  compact !! "data/set.000/atomic_dipole.npy" = Some [[1; 2; 3]%Z]
  ∧ dplr_v2_to_v3 "data" ["O"] compact
    = (inl (UnboundLocalError "n_frames"), compact).
Proof.
  intros compact.
  assert (Hfile : compact !! "data/set.000/atomic_dipole.npy"
                  = Some [[1; 2; 3]%Z]) by (vm_compute; reflexivity).
  split; [exact Hfile|].
  apply (C6_v2_to_v3_reads_unbound_n_frames "data" ["O"] compact
           "data/set.000/atomic_dipole.npy" [] [0] 3 [[1; 2; 3]%Z]).
  - reflexivity.
  - reflexivity.
  - exact Hfile.
Defined.

(** The round trip of C6 on the worked example: the gather succeeds and
    leaves the compact tensor; the scatter raises and leaves it there, so
    the file does not come back to the zero-padded tensor it held. *)
Lemma C6_round_trip_fails :
  let gathered := dplr_v3_to_v2 "data" ["O"] the_npy in
  let scattered := dplr_v2_to_v3 "data" ["O"] gathered.2 in
  the_npy !! "data/set.000/atomic_dipole.npy"
    = Some [[1; 2; 3; 0; 0; 0; 0; 0; 0]%Z]
  ∧ gathered.1 = inr ()
  ∧ scattered.1 = inl (UnboundLocalError "n_frames")
  ∧ scattered.2 !! "data/set.000/atomic_dipole.npy" = Some [[1; 2; 3]%Z].
Proof. by vm_compute. Qed.

(** * The further properties on the worked example *)

Lemma get_unused_symbols_positive_size_witness :
  (0 < 2)%Z
  ∧ get_unused_symbols ["O"; "H"] 2 = ["Og"; "Ts"]
  ∧ length (get_unused_symbols ["O"; "H"] 2) = 2.
Proof.
  assert (Hpos : (0 < 2)%Z) by lia.
  destruct (get_unused_symbols_positive_size ["O"; "H"] 2 Hpos)
    as [Hval Hlen].
  split; [exact Hpos|].
  split; [rewrite Hval|rewrite Hlen]; vm_compute; reflexivity.
Defined.

Lemma get_unused_symbols_nonpositive_size_witness :
  (0 ≤ 0)%Z ∧ get_unused_symbols ["O"; "H"; "Og"] 0 = [].
Proof.
  assert (Hle : (0 ≤ 0)%Z) by lia.
  split; [exact Hle|].
  rewrite (get_unused_symbols_nonpositive_size ["O"; "H"; "Og"] 0 Hle).
  vm_compute; reflexivity.
Defined.

Lemma get_sel_ids_selects_witness :
  get_sel_ids water ["O"; "H"] [1%Z] = inr [1; 2]
  ∧ StronglySorted lt [1; 2]
  ∧ ∀ i, i ∈ [1; 2] ↔
      ∃ t s k st,
        atom_types water !! i = Some t
        ∧ py_getitem (atom_names water) t = inr s
        ∧ [1%Z] !! k = Some st
        ∧ py_getitem ["O"; "H"] st = inr s.
Proof.
  assert (Hsel : get_sel_ids water ["O"; "H"] [1%Z] = inr [1; 2])
    by (vm_compute; reflexivity).
  split; [exact Hsel|].
  exact (get_sel_ids_selects water ["O"; "H"] [1%Z] [1; 2] Hsel).
Defined.

Lemma read_wannier_spread_rows_witness :
  let rows := [(11, 21); (12, 22); (13, 23); (14, 24)]%Z in
  readlines "run/spread.out" = inr water_spread
  ∧ read_wannier_spread "run/spread.out" = inr rows
  ∧ length rows = length water_spread - 3
  ∧ ∀ k x1 x2, rows !! k = Some (x1, x2) →
      ∃ line f1 f2,
        water_spread !! (k + 2) = Some line
        ∧ k + 2 < length water_spread - 1
        ∧ py_split (py_strip line) !! 1 = Some f1 ∧ py_float f1 = inr x1
        ∧ py_split (py_strip line) !! 2 = Some f2 ∧ py_float f2 = inr x2.
Proof.
  intros rows.
  assert (Hlines : readlines "run/spread.out" = inr water_spread)
    by reflexivity.
  assert (Hrows : read_wannier_spread "run/spread.out" = inr rows)
    by (vm_compute; reflexivity).
  split; [exact Hlines|]. split; [exact Hrows|].
  exact (read_wannier_spread_rows "run/spread.out" water_spread rows
           Hlines Hrows).
Defined.

Lemma spread_file_without_data_raises_IndexError_witness :
  let centres := mask_select water_wannier (symbols_eq water_wannier "X") in
  @readlines Z Faulty.faulty_fs "run/empty.out" = inr Faulty.empty_spread
  ∧ length Faulty.empty_spread ≤ 3
  ∧ read_wannier_spread (FileSystem0 := Faulty.faulty_fs) "run/empty.out"
    = inr []
  ∧ get_atomic_dipole (FileSystem0 := Faulty.faulty_fs) water [0] centres
      10%Z (Some "run/empty.out") = inl IndexError.
Proof.
  intros centres.
  assert (Hlines : @readlines Z Faulty.faulty_fs "run/empty.out"
                   = inr Faulty.empty_spread) by reflexivity.
  assert (Hshort : length Faulty.empty_spread ≤ 3) by (simpl; lia).
  split; [exact Hlines|]. split; [exact Hshort|].
  apply (spread_file_without_data_raises_IndexError
           (FileSystem0 := Faulty.faulty_fs) water [0] centres 10%Z
           (Some "run/empty.out") box100 "run/empty.out"
           Faulty.empty_spread).
  - reflexivity.
  - reflexivity.
  - exact Hlines.
  - exact Hshort.
Defined.

Lemma loader_spread_file_failure_witness :
  read_wannier_spread (FileSystem0 := Faulty.faulty_fs) "run/garbled.out"
  = inl (ValueError (could_not_convert "****"))
  ∧ dpdata_read_cp2k_dplr_data (FileSystem0 := Faulty.faulty_fs) "run" "out"
      "wannier.xyz" ["O"; "H"] [0%Z] 10%Z (Some "garbled.out") = inr None.
Proof.
  assert (Hspread : read_wannier_spread (FileSystem0 := Faulty.faulty_fs)
                      "run/garbled.out"
                    = inl (ValueError (could_not_convert "****")))
    by (vm_compute; reflexivity).
  split; [exact Hspread|].
  apply (loader_spread_file_failure (FileSystem0 := Faulty.faulty_fs)
           "run" "out" "wannier.xyz" ["O"; "H"] [0%Z] 10%Z
           (Some "garbled.out") water water_wannier [0] "garbled.out"
           (ValueError (could_not_convert "****"))).
  - reflexivity.
  - reflexivity.
  - reflexivity.
  - reflexivity.
  - reflexivity.
  - reflexivity.
  - exact Hspread.
Defined.

Lemma multi_frame_system_fails_assertion_witness :
  get_nframes Faulty.two_frames = 2
  ∧ (∀ spread_file,
       set_dplr_ext_from_cp2k_output (FileSystem0 := Faulty.faulty_fs)
         Faulty.two_frames "traj/wannier.xyz" ["O"; "H"] [0%Z] 10%Z
         spread_file = inl AssertionError)
  ∧ dpdata_read_cp2k_dplr_data (FileSystem0 := Faulty.faulty_fs) "traj" "out"
      "wannier.xyz" ["O"; "H"] [0%Z] 10%Z None = inl AssertionError.
Proof.
  split; [reflexivity|].
  apply (multi_frame_system_fails_assertion (FileSystem0 := Faulty.faulty_fs)
           "traj" "out" "wannier.xyz" ["O"; "H"] [0%Z] 10%Z None
           Faulty.two_frames water_wannier).
  - reflexivity.
  - reflexivity.
  - vm_compute. lia.
Defined.

Lemma extended_coords_appends_centroids_witness :
  let centres := mask_select water_wannier (symbols_eq water_wannier "X") in
  let extended := [(0, 0, 0); (10, 0, 0); (0, 10, 0); (0, 1, 2)]%Z in
  get_atomic_dipole water [0] centres 10%Z None
  = inr ([(0, 1, 2)%Z], extended, [])
  ∧ length extended = length (concat (coords water)) + length [0]
  ∧ take (length (concat (coords water))) extended = concat (coords water)
  ∧ ∀ k i, [0] !! k = Some i →
      ∃ r d, concat (coords water) !! i = Some r
             ∧ [(0, 1, 2)%Z] !! k = Some d
             ∧ extended !! (length (concat (coords water)) + k)
               = Some (vadd d r).
Proof.
  intros centres extended.
  assert (Hget : get_atomic_dipole water [0] centres 10%Z None
                 = inr ([(0, 1, 2)%Z], extended, []))
    by (vm_compute; reflexivity).
  split; [exact Hget|].
  exact (extended_coords_appends_centroids water [0] centres 10%Z None
           [(0, 1, 2)%Z] extended [] Hget).
Defined.

Lemma wannier_spread_rows_follow_centres_witness :
  let centres := mask_select water_wannier (symbols_eq water_wannier "X") in
  get_atomic_dipole water [0] centres 10%Z (Some "run/spread.out")
  = inr ([(0, 1, 2)%Z], [(0, 0, 0); (10, 0, 0); (0, 10, 0); (0, 1, 2)]%Z,
         [[21; 22; 23; 24]%Z])
  ∧ ∃ c spread,
      cells water = [c]
      ∧ load_full_wannier_spread (Some "run/spread.out") = inr spread
      ∧ match spread with
        | None => [[21; 22; 23; 24]%Z] = []
        | Some s =>
            length [[21; 22; 23; 24]%Z] = length [0]
            ∧ ∀ k i, [0] !! k = Some i →
                ∃ r j1 j2 j3 j4 s1 s2 s3 s4,
                  concat (coords water) !! i = Some r
                  ∧ centres_of (cell_to_cellpar c) 10%Z
                      (position <$> centres) r = [j1; j2; j3; j4]
                  ∧ s !! j1 = Some s1 ∧ s !! j2 = Some s2
                  ∧ s !! j3 = Some s3 ∧ s !! j4 = Some s4
                  ∧ [[21; 22; 23; 24]%Z] !! k = Some [s1; s2; s3; s4]
        end.
Proof.
  intros centres.
  assert (Hget : get_atomic_dipole water [0] centres 10%Z
                   (Some "run/spread.out")
                 = inr ([(0, 1, 2)%Z],
                        [(0, 0, 0); (10, 0, 0); (0, 10, 0); (0, 1, 2)]%Z,
                        [[21; 22; 23; 24]%Z]))
    by (vm_compute; reflexivity).
  split; [exact Hget|].
  exact (wannier_spread_rows_follow_centres water [0] centres 10%Z
           (Some "run/spread.out") [(0, 1, 2)%Z]
           [(0, 0, 0); (10, 0, 0); (0, 10, 0); (0, 1, 2)]%Z
           [[21; 22; 23; 24]%Z] Hget).
Defined.

Lemma empty_selection_gives_zero_dipoles_witness :
  get_sel_ids water ["O"; "H"] [] = inr []
  ∧ (∀ wannier_atoms,
       get_atomic_dipole water [] wannier_atoms 10%Z (Some "run/spread.out")
       = inr ([], concat (coords water), []))
  ∧ set_dplr_ext_from_cp2k_output water "run/wannier.xyz" ["O"; "H"] []
      10%Z (Some "run/spread.out")
    = inr (mkLabeledSystem (atom_names water) (atom_types water)
             (coords water) (cells water)
             (Some [replicate (get_natoms water) vzero])
             (data_wannier_spread water)).
Proof.
  split; [reflexivity|].
  apply (empty_selection_gives_zero_dipoles water "run/wannier.xyz"
           ["O"; "H"] [] 10%Z (Some "run/spread.out") water_wannier box100
           (Some [21; 22; 23; 24]%Z)).
  - reflexivity.
  - reflexivity.
  - reflexivity.
  - vm_compute; reflexivity.
Defined.

Lemma dplr_v3_to_v2_touches_found_files_only_witness :
  let found := glob_recursive "data" "atomic_dipole.npy"
               ++ glob_recursive "data" "atomic_polarizability.npy"
               ++ glob_recursive "data" "wannier_spread.npy" in
  found = ["data/set.000/atomic_dipole.npy"]
  ∧ ("data/set.000/energy.npy" ∉ found)
  ∧ ((dplr_v3_to_v2 "data" ["O"]
        (<["data/set.000/energy.npy" := [[7%Z]]]> the_npy)).2)
      !! "data/set.000/energy.npy" = Some [[7%Z]].
Proof.
  intros found.
  assert (Hfound : found = ["data/set.000/atomic_dipole.npy"])
    by (vm_compute; reflexivity).
  assert (Hpath : "data/set.000/energy.npy" ∉ found).
  { rewrite Hfound. intros Hin%list_elem_of_singleton. discriminate Hin. }
  split; [exact Hfound|]. split; [exact Hpath|].
  rewrite (dplr_v3_to_v2_touches_found_files_only "data" ["O"]
             (<["data/set.000/energy.npy" := [[7%Z]]]> the_npy)
             "data/set.000/energy.npy" Hpath).
  vm_compute; reflexivity.
Defined.

Lemma v3_to_v2_file_gathers_selected_rows_witness :
  let fname := "data/set.000/atomic_dipole.npy" in
  let full := [[[1; 2; 3]; [0; 0; 0]; [0; 0; 0]]]%Z in
  load_sel_ids fname ["O"] = inr ([0], 3)
  ∧ the_npy !! fname = Some ((λ frame, concat frame) <$> full)
  ∧ ∃ compact,
      v3_to_v2_file ["O"] fname the_npy
      = (inr (), <[fname := compact]> the_npy)
      ∧ length compact = length full
      ∧ ∀ f frame, full !! f = Some frame →
          ∃ rows, compact !! f = Some (concat rows)
                  ∧ length rows = length [0]
                  ∧ length (concat rows) = length [0] * 3
                  ∧ ∀ k i, [0] !! k = Some i → rows !! k = frame !! i.
Proof.
  intros fname full.
  assert (Hmeta : load_sel_ids fname ["O"] = inr ([0], 3))
    by (vm_compute; reflexivity).
  assert (Hfile : the_npy !! fname = Some ((λ frame, concat frame) <$> full))
    by (vm_compute; reflexivity).
  split; [exact Hmeta|]. split; [exact Hfile|].
  apply (v3_to_v2_file_gathers_selected_rows fname ["O"] [0] 3 3 full the_npy
           Hmeta).
  - lia.
  - discriminate.
  - repeat constructor.
  - exact Hfile.
Defined.

Lemma dump_bonds_virtual_atoms_to_their_atoms_witness :
  element_symbols ["O"; "H"]
  ∧ heap the_world !! 0 = Some two_waters
  ∧ np_take ["O"; "H"] [0%Z] = inr ["O"]
  ∧ let vtypes := get_unused_symbols ["O"; "H"] (Z.of_nat (length [0%Z])) in
    ∃ new_atoms charges bonds virt w',
      dump_dplr_lammps_data write_stub 0 0 ["O"; "H"] [0%Z] [6; 1]%Z [-8]%Z
        the_world
      = lammps_write write_stub 0 new_atoms charges bonds
          (["O"; "H"] ++ vtypes) w'
      ∧ new_atoms ≠ 0
      ∧ heap w' !! new_atoms = Some (two_waters ++ virt)
      ∧ files w' = files the_world
      ∧ length bonds = length virt
      ∧ (∀ k bd, bonds !! k = Some bd →
           ∃ r x vt,
             bd = (k + 1, 1, r + 1, length two_waters + k + 1)
             ∧ two_waters !! r = Some x
             ∧ (symbol x, vt) ∈ zip ["O"] vtypes
             ∧ virt !! k = Some (mkAtom vt (position x)))
      ∧ (∀ r x vt,
           two_waters !! r = Some x → (symbol x, vt) ∈ zip ["O"] vtypes →
           ∃ k, bonds !! k
                = Some (k + 1, 1, r + 1, length two_waters + k + 1)
                ∧ virt !! k = Some (mkAtom vt (position x))).
Proof.
  assert (Hsym : element_symbols ["O"; "H"])
    by (apply (bool_decide_unpack _); vm_compute; exact I).
  split; [exact Hsym|]. split; [reflexivity|]. split; [reflexivity|].
  apply (dump_bonds_virtual_atoms_to_their_atoms write_stub 0 0 ["O"; "H"]
           [0%Z] [6; 1]%Z [-8]%Z ["O"] two_waters the_world).
  - exact Hsym.
  - reflexivity.
  - reflexivity.
  - reflexivity.
  - reflexivity.
Defined.

Lemma dump_charges_last_entry_wins_witness :
  element_symbols ["O"; "O"]
  ∧ zip (["O"; "O"] ++ get_unused_symbols ["O"; "O"] (Z.of_nat (length [0%Z])))
    ([6; 7] ++ [-8])%Z
  = [("O", 6); ("O", 7); ("Og", -8)]%Z
  ∧ let vtypes := get_unused_symbols ["O"; "O"] (Z.of_nat (length [0%Z])) in
    let entries := zip (["O"; "O"] ++ vtypes) ([6; 7] ++ [-8])%Z in
    ∃ new_atoms charges bonds b w',
      dump_dplr_lammps_data write_stub 0 0 ["O"; "O"] [0%Z] [6; 7]%Z [-8]%Z
        the_world
      = lammps_write write_stub 0 new_atoms charges bonds
          (["O"; "O"] ++ vtypes) w'
      ∧ heap w' !! new_atoms = Some b
      ∧ length charges = length b
      ∧ ∀ i x, b !! i = Some x →
          (∀ t q, entries !! t = Some (symbol x, q) →
             (∀ t' q', t < t' → entries !! t' ≠ Some (symbol x, q')) →
             charges !! i = Some q)
          ∧ ((∀ t q, entries !! t ≠ Some (symbol x, q)) →
             charges !! i = Some nzero).
Proof.
  assert (Hsym : element_symbols ["O"; "O"])
    by (apply (bool_decide_unpack _); vm_compute; exact I).
  split; [exact Hsym|]. split; [reflexivity|].
  apply (dump_charges_last_entry_wins write_stub 0 0 ["O"; "O"] [0%Z]
           [6; 7]%Z [-8]%Z ["O"] two_waters the_world).
  - exact Hsym.
  - reflexivity.
  - reflexivity.
  - reflexivity.
  - reflexivity.
Defined.

Lemma dump_charges_by_type_witness :
  element_symbols ["O"; "H"]
  ∧ NoDup ["O"; "H"]
  ∧ let vtypes := get_unused_symbols ["O"; "H"] (Z.of_nat (length [0%Z])) in
    ∃ new_atoms charges bonds b w',
      dump_dplr_lammps_data write_stub 0 0 ["O"; "H"] [0%Z] [6; 1]%Z [-8]%Z
        the_world
      = lammps_write write_stub 0 new_atoms charges bonds
          (["O"; "H"] ++ vtypes) w'
      ∧ heap w' !! new_atoms = Some b
      ∧ ∀ i x, b !! i = Some x →
          (∀ t q, ["O"; "H"] !! t = Some (symbol x) →
                  [6; 1]%Z !! t = Some q → charges !! i = Some q)
          ∧ (∀ j q, vtypes !! j = Some (symbol x) →
                    [-8]%Z !! j = Some q → charges !! i = Some q)
          ∧ (symbol x ∉ ["O"; "H"] ++ vtypes → charges !! i = Some nzero).
Proof.
  assert (Hnd : NoDup ["O"; "H"])
    by (apply (bool_decide_unpack _); vm_compute; exact I).
  assert (Hsym : element_symbols ["O"; "H"])
    by (apply (bool_decide_unpack _); vm_compute; exact I).
  split; [exact Hsym|]. split; [exact Hnd|].
  apply (dump_charges_by_type write_stub 0 0 ["O"; "H"] [0%Z] [6; 1]%Z
           [-8]%Z ["O"] two_waters the_world).
  - exact Hsym.
  - reflexivity.
  - reflexivity.
  - reflexivity.
  - reflexivity.
  - exact Hnd.
Defined.

Lemma dump_bad_selected_type_raises_IndexError_witness :
  element_symbols ["O"; "H"]
  ∧ ¬ valid_index (length ["O"; "H"]) 2
  ∧ ∃ w', dump_dplr_lammps_data write_stub 0 0 ["O"; "H"] [2%Z] [6; 1]%Z
            [-8]%Z the_world = (inl IndexError, w')
          ∧ files w' = files the_world.
Proof.
  assert (Hbad : ¬ valid_index (length ["O"; "H"]) 2)
    by (unfold valid_index; simpl; lia).
  assert (Hsym : element_symbols ["O"; "H"])
    by (apply (bool_decide_unpack _); vm_compute; exact I).
  split; [exact Hsym|]. split; [exact Hbad|].
  apply (dump_bad_selected_type_raises_IndexError write_stub 0 0 ["O"; "H"]
           [2%Z] [6; 1]%Z [-8]%Z two_waters the_world 0 2%Z).
  - exact Hsym.
  - reflexivity.
  - reflexivity.
  - reflexivity.
  - reflexivity.
  - exact Hbad.
  - vm_compute. lia.
Defined.

Lemma dump_empty_selection_lists_unused_symbols_witness :
  element_symbols ["O"; "H"]
  ∧ heap the_world !! 0 = Some two_waters
  ∧ length (["O"; "H"]
            ++ (if bool_decide ("Og" ∈ ["O"; "H"]) then []
                else filter (λ s, s ∉ ["O"; "H"]) (reverse chemical_symbols)))
    = 119
  ∧ ∃ new_atoms charges w',
      dump_dplr_lammps_data write_stub 0 0 ["O"; "H"] [] [6; 1]%Z [] the_world
      = lammps_write write_stub 0 new_atoms charges []
          (["O"; "H"]
           ++ (if bool_decide ("Og" ∈ ["O"; "H"]) then []
               else filter (λ s, s ∉ ["O"; "H"]) (reverse chemical_symbols)))
          w'
      ∧ new_atoms ≠ 0
      ∧ heap w' !! new_atoms = Some two_waters
      ∧ length charges = length two_waters
      ∧ files w' = files the_world.
Proof.
  assert (Hsym : element_symbols ["O"; "H"])
    by (apply (bool_decide_unpack _); vm_compute; exact I).
  split; [exact Hsym|]. split; [reflexivity|].
  split; [vm_compute; reflexivity|].
  apply (dump_empty_selection_lists_unused_symbols write_stub 0 0 ["O"; "H"]
           [6; 1]%Z two_waters the_world).
  - exact Hsym.
  - reflexivity.
  - reflexivity.
Defined.
